(** * The IBM MQ random data stream producer (producer.py)

    A shallow embedding of [src/ibm-mq/data-producer/producer.py]:
    the record generator [generate_transaction], the connection and
    publish helpers [connect_to_mq] and [send_message], and the
    producer loop [main], together with the parts of the Python
    runtime the script leans on (decimal formatting, [datetime.isoformat],
    [random.randint] / [random.choice], [json.dumps] / [json.loads],
    UTF-8).

    Conventions.
    - A Python [str] is a list of Unicode code points ([pystr]).
    - A Python [bytes] is a [list byte].
    - IEEE-754 arithmetic is not modelled: the float type and the few
      float operations the script calls are the fields of [FloatOps].
    - Everything the outside world decides (the clock, the random
      source, the Faker provider, how each pymqi call ends, when the
      operator presses Ctrl-C) is read from an explicit oracle. *)

From Stdlib.Strings Require Import Ascii String Byte.
From Stdlib Require Import List ZArith NArith Lia Bool Arith.
Import ListNotations.

Set Warnings "-register-all".
Local Open Scope N_scope.

(* ================================================================== *)
(** * Part I. Definitions                                               *)
(* ================================================================== *)

(** ** Python strings *)

Abbreviation codepoint := N (only parsing).
Abbreviation pystr := (list N) (only parsing).

(** An ASCII literal of the source, as code points. *)
Definition lit (s : string) : pystr :=
  map N_of_ascii (list_ascii_of_string s).

Fixpoint str_eqb (a b : pystr) : bool :=
  match a, b with
  | [], [] => true
  | x :: a', y :: b' => (x =? y) && str_eqb a' b'
  | _, _ => false
  end.

Fixpoint starts_with (p s : pystr) : bool :=
  match p, s with
  | [], _ => true
  | x :: p', y :: s' => (x =? y) && starts_with p' s'
  | _ :: _, [] => false
  end.

(** Named characters. *)
Definition ch_quote : codepoint := 34.      (* the double quote *)
Definition ch_backslash : codepoint := 92.
Definition ch_newline : codepoint := 10.
Definition ch_space : codepoint := 32.
Definition ch_minus : codepoint := 45.
Definition ch_zero : codepoint := 48.

Definition is_digit (c : codepoint) : bool := (48 <=? c) && (c <=? 57).

(** ** [str(int)] and zero padding *)

Definition digit_char (d : N) : codepoint := 48 + d.

(** Digits of [n], most significant first, in front of [acc]. *)
Fixpoint digits_aux (fuel : nat) (n : N) (acc : pystr) : pystr :=
  match fuel with
  | O => acc
  | S fuel' =>
      let acc' := digit_char (n mod 10) :: acc in
      if n / 10 =? 0 then acc' else digits_aux fuel' (n / 10) acc'
  end.

(** A number has no more decimal digits than binary ones. *)
Definition str_N (n : N) : pystr := digits_aux (2 + N.to_nat (N.log2 n)) n [].

Definition str_int (z : Z) : pystr :=
  if (z <? 0)%Z then ch_minus :: str_N (Z.abs_N z) else str_N (Z.abs_N z).

Definition str_nat (n : nat) : pystr := str_N (N.of_nat n).

(** ["%0wd" % n] for a non-negative [n]. *)
Definition zfill (w : nat) (s : pystr) : pystr :=
  repeat ch_zero (w - length s) ++ s.
Definition pad0 (w : nat) (n : N) : pystr := zfill w (str_N n).

(** ** Character patterns

    The spec's [CUST-<5 digits>] and the ISO-8601 shapes are patterns
    of literal characters and digit places. *)

Inductive pat := PDigit | PChar (c : codepoint).

Fixpoint matches (p : list pat) (s : pystr) : bool :=
  match p, s with
  | [], [] => true
  | PDigit :: p', c :: s' => is_digit c && matches p' s'
  | PChar x :: p', c :: s' => (x =? c) && matches p' s'
  | _, _ => false
  end.

Definition plit (s : string) : list pat := map PChar (lit s).
Definition pdigits (n : nat) : list pat := repeat PDigit n.

(** ** [datetime.utcnow().isoformat()] *)

Record datetime := {
  year : N; month : N; day : N;
  hour : N; minute : N; second : N; microsecond : N
}.

(** The ranges the [datetime] type guarantees. *)
Definition valid_datetime (t : datetime) : Prop :=
  1 <= year t <= 9999 /\ 1 <= month t <= 12 /\ 1 <= day t <= 31 /\
  hour t < 24 /\ minute t < 60 /\ second t < 60 /\ microsecond t < 1000000.

(** [_format_time] with [timespec='auto']: the microseconds are left out
    when they are zero and printed with six digits otherwise. *)
Definition format_time (t : datetime) : pystr :=
  pad0 2 (hour t) ++ lit ":" ++ pad0 2 (minute t) ++ lit ":" ++ pad0 2 (second t)
  ++ (if microsecond t =? 0 then [] else lit "." ++ pad0 6 (microsecond t)).

(** [isoformat()] of a naive datetime ([utcnow] carries no tzinfo, so no
    offset is appended). *)
Definition isoformat (t : datetime) : pystr :=
  pad0 4 (year t) ++ lit "-" ++ pad0 2 (month t) ++ lit "-" ++ pad0 2 (day t)
  ++ lit "T" ++ format_time t.

(** ** The [random] module

    Each call consumes one raw draw of the generator; [_randbelow n]
    yields a value below [n]. *)

Definition randbelow (n raw : N) : N := raw mod n.

(** [random.randint(a, b)] is [a + _randbelow(b - a + 1)]. *)
Definition randint (a b : Z) (raw : N) : Z :=
  (a + Z.of_N (randbelow (Z.to_N (b - a + 1)) raw))%Z.

(** [random.choice(seq)] is [seq[_randbelow(len(seq))]]; on an empty
    sequence it raises [IndexError] ([None]). *)
Definition choice {A} (seq : list A) (raw : N) : option A :=
  match seq with
  | [] => None
  | _ => nth_error seq (N.to_nat (randbelow (N.of_nat (length seq)) raw))
  end.

(** ** Floats

    The script's floats are finite binary64 values. Their arithmetic is
    kept outside the model: what the script calls is an interface. *)

Class FloatOps := {
  pyfloat : Type;
  pydecimal : Type;                                  (* decimal.Decimal *)
  float_of_int : Z -> pyfloat;                       (* the literal [n.0] *)
  random_uniform : pyfloat -> pyfloat -> N -> pyfloat; (* random.uniform(a, b) *)
  py_round : pyfloat -> Z -> pyfloat;                (* round(x, ndigits) *)
  float_of_decimal : pydecimal -> pyfloat;           (* float(d) *)
  float_repr : pyfloat -> pystr;                     (* float.__repr__ *)
  float_of_str : pystr -> option pyfloat             (* float(s) *)
}.

(** ** Python values that [json] handles *)

Section Values.
Context {F : FloatOps}.

Inductive pyval :=
| PNone
| PBool (b : bool)
| PInt (z : Z)
| PFloat (x : pyfloat)
| PStr (s : pystr)
| PList (elems : list pyval)
| PDict (items : list (pystr * pyval)).

(** [d[k]] on the items of a dict. *)
Fixpoint dict_get (items : list (pystr * pyval)) (k : pystr) : option pyval :=
  match items with
  | [] => None
  | (k', v) :: rest => if str_eqb k' k then Some v else dict_get rest k
  end.

Definition getitem (v : pyval) (k : pystr) : option pyval :=
  match v with
  | PDict items => dict_get items k
  | _ => None
  end.

Definition is_none (v : pyval) : bool :=
  match v with PNone => true | _ => false end.

(** ** [generate_transaction]

    One field per external call of the function body, in the order the
    dict display evaluates them. *)

Record draws := {
  d_transaction_id : pystr;     (* fake.uuid4() *)
  d_now : datetime;             (* datetime.utcnow() *)
  d_customer : N;               (* random.randint(10000, 99999) *)
  d_customer_name : pystr;      (* fake.name() *)
  d_customer_email : pystr;     (* fake.email() *)
  d_transaction_type : N;       (* random.choice(transaction_types) *)
  d_category : N;               (* random.choice(categories) *)
  d_amount : N;                 (* random.uniform(10.0, 5000.0) *)
  d_currency : N;               (* random.choice([...]) *)
  d_status : N;                 (* random.choice(statuses) *)
  d_merchant : N;               (* random.randint(1000, 9999) *)
  d_merchant_name : pystr;      (* fake.company() *)
  d_city : pystr;               (* fake.city() *)
  d_country : pystr;            (* fake.country() *)
  d_latitude : pydecimal;       (* fake.latitude() *)
  d_longitude : pydecimal;      (* fake.longitude() *)
  d_payment_method : N;         (* random.choice([...]) *)
  d_device_type : N;            (* random.choice([...]) *)
  d_ip_address : pystr;         (* fake.ipv4() *)
  d_user_agent : pystr;         (* fake.user_agent() *)
  d_session_id : pystr;         (* fake.uuid4() *)
  d_referrer : pystr;           (* fake.url() *)
  d_campaign : N                (* random.randint(100, 999) *)
}.

Definition transaction_types : list pystr :=
  [lit "purchase"; lit "refund"; lit "payment"; lit "transfer"; lit "deposit";
   lit "withdrawal"].
Definition categories : list pystr :=
  [lit "electronics"; lit "clothing"; lit "food"; lit "services"; lit "utilities";
   lit "entertainment"].
Definition statuses : list pystr :=
  [lit "completed"; lit "pending"; lit "failed"; lit "processing"].
Definition currencies : list pystr := [lit "USD"; lit "EUR"; lit "GBP"].
Definition payment_methods : list pystr :=
  [lit "credit_card"; lit "debit_card"; lit "paypal"; lit "bank_transfer"; lit "cash"].
Definition device_types : list pystr :=
  [lit "mobile"; lit "web"; lit "pos"; lit "atm"].

Notation "x <- a ;; b" :=
  (match a with Some x => b | None => None end)
  (right associativity, at level 60, a at next level).

Definition generate_transaction (d : draws) : option pyval :=
  transaction_type <- choice transaction_types (d_transaction_type d) ;;
  category <- choice categories (d_category d) ;;
  currency <- choice currencies (d_currency d) ;;
  status <- choice statuses (d_status d) ;;
  payment_method <- choice payment_methods (d_payment_method d) ;;
  device_type <- choice device_types (d_device_type d) ;;
  Some (PDict [
    (lit "transaction_id", PStr (d_transaction_id d));
    (lit "timestamp", PStr (isoformat (d_now d) ++ lit "Z"));
    (lit "customer_id", PStr (lit "CUST-" ++ str_int (randint 10000 99999 (d_customer d))));
    (lit "customer_name", PStr (d_customer_name d));
    (lit "customer_email", PStr (d_customer_email d));
    (lit "transaction_type", PStr transaction_type);
    (lit "category", PStr category);
    (lit "amount",
       PFloat (py_round (random_uniform (float_of_int 10) (float_of_int 5000) (d_amount d)) 2));
    (lit "currency", PStr currency);
    (lit "status", PStr status);
    (lit "merchant_id", PStr (lit "MERCH-" ++ str_int (randint 1000 9999 (d_merchant d))));
    (lit "merchant_name", PStr (d_merchant_name d));
    (lit "location", PDict [
       (lit "city", PStr (d_city d));
       (lit "country", PStr (d_country d));
       (lit "latitude", PFloat (float_of_decimal (d_latitude d)));
       (lit "longitude", PFloat (float_of_decimal (d_longitude d)))]);
    (lit "payment_method", PStr payment_method);
    (lit "device_type", PStr device_type);
    (lit "ip_address", PStr (d_ip_address d));
    (lit "user_agent", PStr (d_user_agent d));
    (lit "metadata", PDict [
       (lit "session_id", PStr (d_session_id d));
       (lit "referrer", PStr (d_referrer d));
       (lit "campaign_id", PStr (lit "CAMP-" ++ str_int (randint 100 999 (d_campaign d))))])
  ]).

(** ** [json.dumps(obj, indent=2)]

    With an indent the encoder is [_make_iterencode]: item separator
    [","], key separator [": "], every item on a line of its own. *)

(** Lower-case hexadecimal digit; ['{0:04x}'.format(n)] for [n < 0x10000]. *)
Definition hex_char (d : N) : codepoint := if d <? 10 then 48 + d else 87 + d.
Definition hex4 (n : N) : pystr :=
  [hex_char (n / 4096 mod 16); hex_char (n / 256 mod 16);
   hex_char (n / 16 mod 16); hex_char (n mod 16)].
Definition u_escape (n : N) : pystr := ch_backslash :: 117 :: hex4 n.

(** [ESCAPE_ASCII]: a backslash, a quote, or anything outside [' '..'~']. *)
Definition needs_escape (c : codepoint) : bool :=
  (c =? ch_backslash) || (c =? ch_quote) || negb ((32 <=? c) && (c <=? 126)).

(** [ESCAPE_DCT]: the short escapes. (Its other entries, the control
    characters, are spelled [\u00XX], which is what [replace] computes
    for them anyway.) *)
Definition escape_dct (c : codepoint) : option pystr :=
  if c =? ch_backslash then Some [ch_backslash; ch_backslash]
  else if c =? ch_quote then Some [ch_backslash; ch_quote]
  else if c =? 8 then Some [ch_backslash; 98]
  else if c =? 12 then Some [ch_backslash; 102]
  else if c =? 10 then Some [ch_backslash; 110]
  else if c =? 13 then Some [ch_backslash; 114]
  else if c =? 9 then Some [ch_backslash; 116]
  else None.

(** [replace(match)] of [py_encode_basestring_ascii]. *)
Definition escape_char (c : codepoint) : pystr :=
  if needs_escape c then
    match escape_dct c with
    | Some e => e
    | None =>
        if c <? 0x10000 then u_escape c
        else
          let n := c - 0x10000 in
          let s1 := N.lor 0xd800 (N.land (N.shiftr n 10) 0x3ff) in
          let s2 := N.lor 0xdc00 (N.land n 0x3ff) in
          u_escape s1 ++ u_escape s2
    end
  else [c].

Definition encode_basestring_ascii (s : pystr) : pystr :=
  ch_quote :: flat_map escape_char s ++ [ch_quote].

(** ['\n' + _indent * level]. *)
Definition newline_indent (ind lvl : nat) : pystr :=
  ch_newline :: repeat ch_space (ind * lvl).

(** [_iterencode], [_iterencode_list] and [_iterencode_dict]; the inner
    loops carry the [first] flag of the source. *)
Fixpoint iterencode (ind lvl : nat) (o : pyval) {struct o} : pystr :=
  match o with
  | PNone => lit "null"
  | PBool true => lit "true"
  | PBool false => lit "false"
  | PInt z => str_int z
  | PFloat x => float_repr x
  | PStr s => encode_basestring_ascii s
  | PList [] => lit "[]"
  | PList lst =>
      lit "[" ++ newline_indent ind (S lvl)
      ++ (fix loop (first : bool) (l : list pyval) : pystr :=
            match l with
            | [] => []
            | value :: l' =>
                (if first then [] else lit "," ++ newline_indent ind (S lvl))
                ++ iterencode ind (S lvl) value ++ loop false l'
            end) true lst
      ++ newline_indent ind lvl ++ lit "]"
  | PDict [] => lit "{}"
  | PDict dct =>
      lit "{" ++ newline_indent ind (S lvl)
      ++ (fix loop (first : bool) (l : list (pystr * pyval)) : pystr :=
            match l with
            | [] => []
            | (key, value) :: l' =>
                (if first then [] else lit "," ++ newline_indent ind (S lvl))
                ++ encode_basestring_ascii key ++ lit ": "
                ++ iterencode ind (S lvl) value ++ loop false l'
            end) true dct
      ++ newline_indent ind lvl ++ lit "}"
  end.

Definition json_dumps (ind : nat) (obj : pyval) : pystr := iterencode ind 0 obj.

(** ** [json.loads]

    [py_scanstring], [NUMBER_RE], [JSONObject], [JSONArray] and
    [py_make_scanner] of the pure-Python decoder, in strict mode and
    without the [NaN] / [Infinity] constants (the float type holds finite
    values only). An error of any kind is [None]. *)

Definition is_ws (c : codepoint) : bool :=
  (c =? 32) || (c =? 9) || (c =? 10) || (c =? 13).

Fixpoint skip_ws (s : pystr) : pystr :=
  match s with
  | c :: s' => if is_ws c then skip_ws s' else s
  | [] => []
  end.

Definition hex_val (c : codepoint) : option N :=
  if is_digit c then Some (c - 48)
  else if (97 <=? c) && (c <=? 102) then Some (c - 87)
  else if (65 <=? c) && (c <=? 70) then Some (c - 55)
  else None.

(** [_decode_uXXXX]: four hexadecimal digits. *)
Definition decode_uXXXX (a b c d : codepoint) : option N :=
  match hex_val a, hex_val b, hex_val c, hex_val d with
  | Some x3, Some x2, Some x1, Some x0 => Some (((x3 * 16 + x2) * 16 + x1) * 16 + x0)
  | _, _, _, _ => None
  end.

(** [BACKSLASH]. *)
Definition backslash_dct (esc : codepoint) : option codepoint :=
  if esc =? ch_quote then Some ch_quote
  else if esc =? ch_backslash then Some ch_backslash
  else if esc =? 47 then Some 47
  else if esc =? 98 then Some 8
  else if esc =? 102 then Some 12
  else if esc =? 110 then Some 10
  else if esc =? 114 then Some 13
  else if esc =? 116 then Some 9
  else None.

Definition is_high_surrogate (u : N) : bool := (0xd800 <=? u) && (u <=? 0xdbff).
Definition is_low_surrogate (u : N) : bool := (0xdc00 <=? u) && (u <=? 0xdfff).
Definition join_surrogates (u u2 : N) : N :=
  0x10000 + N.lor (N.shiftl (u - 0xd800) 10) (u2 - 0xdc00).

(** [py_scanstring]: [s] starts just after the opening quote; [acc]
    holds the characters read so far, last first. *)
Fixpoint scanstring (s : pystr) (acc : pystr) {struct s} : option (pystr * pystr) :=
  match s with
  | [] => None
  | c :: s1 =>
      if c =? ch_quote then Some (rev acc, s1)
      else if c =? ch_backslash then
        match s1 with
        | [] => None
        | esc :: s2 =>
            if esc =? 117 then
              match s2 with
              | a :: b :: c' :: d :: s3 =>
                  match decode_uXXXX a b c' d with
                  | None => None
                  | Some uni =>
                      if is_high_surrogate uni then
                        match s3 with
                        | b1 :: u1 :: a2 :: b2 :: c2 :: d2 :: s4 =>
                            if (b1 =? ch_backslash) && (u1 =? 117) then
                              match decode_uXXXX a2 b2 c2 d2 with
                              | None => None
                              | Some uni2 =>
                                  if is_low_surrogate uni2
                                  then scanstring s4 (join_surrogates uni uni2 :: acc)
                                  else scanstring s3 (uni :: acc)
                              end
                            else scanstring s3 (uni :: acc)
                        | _ => scanstring s3 (uni :: acc)
                        end
                      else scanstring s3 (uni :: acc)
                  end
              | _ => None
              end
            else
              match backslash_dct esc with
              | Some ch => scanstring s2 (ch :: acc)
              | None => None
              end
        end
      else if c <? 32 then None
      else scanstring s1 (c :: acc)
  end.

Fixpoint take_digits (s : pystr) : pystr * pystr :=
  match s with
  | c :: s' =>
      if is_digit c then let (ds, r) := take_digits s' in (c :: ds, r) else ([], s)
  | [] => ([], [])
  end.

(** [NUMBER_RE]: an integer part (an optional minus sign, then a lone
    zero or a digit from 1 to 9 and any digits), an optional fraction
    (a dot and at least one digit) and an optional exponent ([e] or [E],
    an optional sign, at least one digit). The result is the three
    groups (an unmatched group is empty) and what follows the match. *)
Definition match_integer (s : pystr) : option (pystr * pystr) :=
  let (sign, s1) :=
    match s with
    | c :: s' => if c =? ch_minus then ([ch_minus], s') else ([], s)
    | [] => ([], s)
    end in
  match s1 with
  | c :: s2 =>
      if c =? ch_zero then Some (sign ++ [c], s2)
      else if is_digit c then let (ds, r) := take_digits s2 in Some (sign ++ c :: ds, r)
      else None
  | [] => None
  end.

Definition match_frac (s : pystr) : pystr * pystr :=
  match s with
  | c :: s1 =>
      if c =? 46 then
        match take_digits s1 with
        | ([], _) => ([], s)
        | (ds, r) => (c :: ds, r)
        end
      else ([], s)
  | [] => ([], s)
  end.

Definition match_exp (s : pystr) : pystr * pystr :=
  match s with
  | c :: s1 =>
      if (c =? 101) || (c =? 69) then
        let (sign, s2) :=
          match s1 with
          | g :: s' => if (g =? 45) || (g =? 43) then ([g], s') else ([], s1)
          | [] => ([], s1)
          end in
        match take_digits s2 with
        | ([], _) => ([], s)
        | (ds, r) => (c :: sign ++ ds, r)
        end
      else ([], s)
  | [] => ([], s)
  end.

Definition match_number (s : pystr) : option (pystr * pystr * pystr * pystr) :=
  match match_integer s with
  | None => None
  | Some (integer, r1) =>
      let (frac, r2) := match_frac r1 in
      let (exp, r3) := match_exp r2 in
      Some (integer, frac, exp, r3)
  end.

(** [int(s)] on an optional minus sign and digits. *)
Definition digits_val (ds : pystr) : N :=
  fold_left (fun a c => 10 * a + (c - 48)) ds 0.
Definition int_of_str (s : pystr) : Z :=
  match s with
  | c :: ds => if c =? ch_minus then (- Z.of_N (digits_val ds))%Z else Z.of_N (digits_val s)
  | [] => 0%Z
  end.

(** [dict(pairs)]: a repeated key keeps its place and takes the last value. *)
Fixpoint dict_set (items : list (pystr * pyval)) (k : pystr) (v : pyval)
  : list (pystr * pyval) :=
  match items with
  | [] => [(k, v)]
  | (k', v') :: rest =>
      if str_eqb k' k then (k', v) :: rest else (k', v') :: dict_set rest k v
  end.
Definition dict_of_pairs (pairs : list (pystr * pyval)) : list (pystr * pyval) :=
  fold_left (fun d kv => dict_set d (fst kv) (snd kv)) pairs [].

(** [scan_once] with [JSONObject] and [JSONArray]. [object_members]
    starts just after the opening quote of a key, [array_elements] at
    a value. The fuel bounds the nesting and the number of items. *)
Fixpoint scan_once (fuel : nat) (s : pystr) {struct fuel} : option (pyval * pystr) :=
  match fuel with
  | O => None
  | S fuel' =>
      match s with
      | [] => None
      | c :: s1 =>
          if c =? ch_quote then
            match scanstring s1 [] with
            | Some (str, r) => Some (PStr str, r)
            | None => None
            end
          else if c =? 123 then
            match skip_ws s1 with
            | c1 :: s2 =>
                if c1 =? 125 then Some (PDict [], s2)
                else if c1 =? ch_quote then
                  match object_members fuel' s2 with
                  | Some (pairs, r) => Some (PDict (dict_of_pairs pairs), r)
                  | None => None
                  end
                else None
            | [] => None
            end
          else if c =? 91 then
            match skip_ws s1 with
            | c1 :: s2 =>
                if c1 =? 93 then Some (PList [], s2)
                else
                  match array_elements fuel' (c1 :: s2) with
                  | Some (values, r) => Some (PList values, r)
                  | None => None
                  end
            | [] => None
            end
          else if starts_with (lit "null") s then Some (PNone, skipn 4 s)
          else if starts_with (lit "true") s then Some (PBool true, skipn 4 s)
          else if starts_with (lit "false") s then Some (PBool false, skipn 5 s)
          else
            match match_number s with
            | Some (integer, frac, exp, r) =>
                match frac ++ exp with
                | [] => Some (PInt (int_of_str integer), r)
                | _ =>
                    match float_of_str (integer ++ frac ++ exp) with
                    | Some x => Some (PFloat x, r)
                    | None => None
                    end
                end
            | None => None
            end
      end
  end
with object_members (fuel : nat) (s : pystr) {struct fuel}
  : option (list (pystr * pyval) * pystr) :=
  match fuel with
  | O => None
  | S fuel' =>
      match scanstring s [] with
      | None => None
      | Some (key, s1) =>
          match skip_ws s1 with
          | c :: s2 =>
              if c =? 58 then
                match scan_once fuel' (skip_ws s2) with
                | None => None
                | Some (value, s3) =>
                    match skip_ws s3 with
                    | c' :: s4 =>
                        if c' =? 125 then Some ([(key, value)], s4)
                        else if c' =? 44 then
                          match skip_ws s4 with
                          | q :: s5 =>
                              if q =? ch_quote then
                                match object_members fuel' s5 with
                                | Some (pairs, r) => Some ((key, value) :: pairs, r)
                                | None => None
                                end
                              else None
                          | [] => None
                          end
                        else None
                    | [] => None
                    end
                end
              else None
          | [] => None
          end
      end
  end
with array_elements (fuel : nat) (s : pystr) {struct fuel}
  : option (list pyval * pystr) :=
  match fuel with
  | O => None
  | S fuel' =>
      match scan_once fuel' s with
      | None => None
      | Some (value, s1) =>
          match skip_ws s1 with
          | c :: s2 =>
              if c =? 93 then Some ([value], s2)
              else if c =? 44 then
                match array_elements fuel' (skip_ws s2) with
                | Some (values, r) => Some (value :: values, r)
                | None => None
                end
              else None
          | [] => None
          end
      end
  end.

(** [JSONDecoder.decode]: one value between optional white space. *)
Definition json_decode (s : pystr) : option pyval :=
  match scan_once (S (length s)) (skip_ws s) with
  | Some (obj, r) => match skip_ws r with [] => Some obj | _ => None end
  | None => None
  end.

End Values.

(** ** UTF-8 *)

Definition is_surrogate (c : codepoint) : bool := (0xD800 <=? c) && (c <=? 0xDFFF).

(** The code units of one code point; a surrogate or a value above
    U+10FFFF cannot be encoded ([UnicodeEncodeError]). *)
Definition utf8_units (c : codepoint) : option (list N) :=
  if c <? 0x80 then Some [c]
  else if c <? 0x800 then
    Some [N.lor 0xC0 (N.shiftr c 6); N.lor 0x80 (N.land c 0x3F)]
  else if c <? 0x10000 then
    if is_surrogate c then None
    else Some [N.lor 0xE0 (N.shiftr c 12);
               N.lor 0x80 (N.land (N.shiftr c 6) 0x3F);
               N.lor 0x80 (N.land c 0x3F)]
  else if c <? 0x110000 then
    Some [N.lor 0xF0 (N.shiftr c 18);
          N.lor 0x80 (N.land (N.shiftr c 12) 0x3F);
          N.lor 0x80 (N.land (N.shiftr c 6) 0x3F);
          N.lor 0x80 (N.land c 0x3F)]
  else None.

Fixpoint to_bytes (us : list N) : option (list byte) :=
  match us with
  | [] => Some []
  | u :: us' =>
      match Byte.of_N u, to_bytes us' with
      | Some b, Some bs => Some (b :: bs)
      | _, _ => None
      end
  end.

(** [s.encode('utf-8')]. *)
Fixpoint str_encode_utf8 (s : pystr) : option (list byte) :=
  match s with
  | [] => Some []
  | c :: s' =>
      match utf8_units c with
      | None => None
      | Some us =>
          match to_bytes us, str_encode_utf8 s' with
          | Some bs, Some rest => Some (bs ++ rest)
          | _, _ => None
          end
      end
  end.

Definition is_cont (x : N) : bool := (0x80 <=? x) && (x <=? 0xBF).

(** [b.decode('utf-8')], strict: overlong forms, surrogates and values
    above U+10FFFF are errors. *)
Fixpoint bytes_decode_utf8 (bs : list byte) : option pystr :=
  match bs with
  | [] => Some []
  | b0 :: r0 =>
      let x0 := Byte.to_N b0 in
      if x0 <? 0x80 then option_map (cons x0) (bytes_decode_utf8 r0)
      else if (0xC2 <=? x0) && (x0 <=? 0xDF) then
        match r0 with
        | b1 :: r1 =>
            let x1 := Byte.to_N b1 in
            if is_cont x1
            then option_map (cons (N.lor (N.shiftl (N.land x0 0x1F) 6) (N.land x1 0x3F)))
                            (bytes_decode_utf8 r1)
            else None
        | _ => None
        end
      else if (0xE0 <=? x0) && (x0 <=? 0xEF) then
        match r0 with
        | b1 :: b2 :: r2 =>
            let x1 := Byte.to_N b1 in
            let x2 := Byte.to_N b2 in
            let c := N.lor (N.shiftl (N.land x0 0x0F) 12)
                       (N.lor (N.shiftl (N.land x1 0x3F) 6) (N.land x2 0x3F)) in
            if is_cont x1 && is_cont x2 && (0x800 <=? c) && negb (is_surrogate c)
            then option_map (cons c) (bytes_decode_utf8 r2)
            else None
        | _ => None
        end
      else if (0xF0 <=? x0) && (x0 <=? 0xF4) then
        match r0 with
        | b1 :: b2 :: b3 :: r3 =>
            let x1 := Byte.to_N b1 in
            let x2 := Byte.to_N b2 in
            let x3 := Byte.to_N b3 in
            let c := N.lor (N.shiftl (N.land x0 0x07) 18)
                       (N.lor (N.shiftl (N.land x1 0x3F) 12)
                          (N.lor (N.shiftl (N.land x2 0x3F) 6) (N.land x3 0x3F))) in
            if is_cont x1 && is_cont x2 && is_cont x3
               && (0x10000 <=? c) && (c <? 0x110000)
            then option_map (cons c) (bytes_decode_utf8 r3)
            else None
        | _ => None
        end
      else None
  end.

Section Loads.
Context {F : FloatOps}.

(** [json.loads(payload)] on bytes: decode as UTF-8 (what
    [detect_encoding] selects for a payload without a byte-order mark
    or NUL bytes), then [JSONDecoder.decode]. The library decodes with
    the [surrogatepass] handler, which accepts encoded surrogates where
    [bytes_decode_utf8] fails; on every other input the two agree. *)
Definition json_loads (payload : list byte) : option pyval :=
  match bytes_decode_utf8 payload with
  | Some s => json_decode s
  | None => None
  end.

End Loads.

(** ** The outside world of [main] *)

(** The module-level configuration (read once from the environment). *)
Record config := {
  MQ_HOST : pystr;
  MQ_PORT : pystr;
  MQ_QUEUE_MANAGER : pystr;
  MQ_CHANNEL : pystr;
  MQ_QUEUE : pystr;
  MQ_USER : pystr;
  MQ_PASSWORD : pystr;
  MESSAGE_INTERVAL : Z
}.

Definition default_config : config := {|
  MQ_HOST := lit "ibm-mq.mq-kafka-integration.svc.cluster.local";
  MQ_PORT := lit "1414";
  MQ_QUEUE_MANAGER := lit "QM1";
  MQ_CHANNEL := lit "DEV.APP.SVRCONN";
  MQ_QUEUE := lit "KAFKA.IN";
  MQ_USER := lit "app";
  MQ_PASSWORD := lit "passw0rd";
  MESSAGE_INTERVAL := 5
|}.

(** What can be raised, by the three classes the handlers of [main]
    tell apart; [msg] is [str(e)]. *)
Inductive exn :=
| Exception_ (msg : pystr)        (* an instance of [Exception]: MQMIError, OSError, ... *)
| KeyboardInterrupt               (* Ctrl-C; a [BaseException] *)
| BaseException_ (msg : pystr).   (* any other [BaseException]: SystemExit, ... *)

Definition is_Exception (e : exn) : bool :=
  match e with Exception_ _ => true | _ => false end.

Definition exn_str (e : exn) : pystr :=
  match e with
  | Exception_ msg => msg
  | KeyboardInterrupt => []
  | BaseException_ msg => msg
  end.

(** How an external call ends. *)
Inductive fate := Succeeds | Raises (e : exn).

(** The calls that leave the script. [obj] names the [pymqi.Queue]
    object the call creates or acts on. *)
Inductive call :=
| pymqi_connect (queue_manager channel conn_info user password : pystr)
| pymqi_Queue (obj : nat) (queue_name : pystr)
| queue_put (obj : nat) (msg : list byte)
| queue_close (obj : nat)
| qmgr_disconnect
| time_sleep (secs : Z).

(** What an observer sees: the external calls with their ends, and the
    lines printed. *)
Inductive event :=
| Called (c : call) (f : fate)
| Printed (line : pystr).

(** The machine state: the local [message_count] of [main], the supply
    of object identities, and the events so far, oldest first. *)
Record state := {
  message_count : nat;
  next_obj : nat;
  trace : list event
}.

Definition initial_state : state :=
  {| message_count := 0; next_obj := 0; trace := [] |}.

(** A computation either returns, raises, or is still running when the
    iteration budget of the endless loop is used up. *)
Inductive outcome (A : Type) :=
| Returns (a : A)
| Raised (e : exn)
| Running.
Arguments Returns {A} a.
Arguments Raised {A} e.
Arguments Running {A}.

Definition M (A : Type) : Type := state -> outcome A * state.

Definition ret {A} (a : A) : M A := fun s => (Returns a, s).
Definition raise {A} (e : exn) : M A := fun s => (Raised e, s).
Definition running {A} : M A := fun s => (Running, s).

Definition bind {A B} (m : M A) (k : A -> M B) : M B :=
  fun s =>
    match m s with
    | (Returns a, s') => k a s'
    | (Raised e, s') => (Raised e, s')
    | (Running, s') => (Running, s')
    end.

Declare Scope py_scope.
Delimit Scope py_scope with py.
Notation "x <- m ;; k" := (bind m (fun x => k))
  (at level 61, m at next level, right associativity) : py_scope.
Notation "m ;; k" := (bind m (fun _ => k))
  (at level 61, right associativity) : py_scope.

(** [try: body / except ...: handler]: the handler says which
    exceptions its clauses take. *)
Definition try_except {A} (body : M A) (handler : exn -> option (M A)) : M A :=
  fun s =>
    match body s with
    | (Raised e, s') =>
        match handler e with
        | Some h => h s'
        | None => (Raised e, s')
        end
    | r => r
    end.

(** [try: body / finally: fin]: [fin] runs when [body] returns or
    raises, and an exception of [fin] replaces the pending one. *)
Definition try_finally {A} (body : M A) (fin : M unit) : M A :=
  fun s =>
    match body s with
    | (Running, s') => (Running, s')
    | (r, s') =>
        match fin s' with
        | (Returns _, s'') => (r, s'')
        | (Raised e, s'') => (Raised e, s'')
        | (Running, s'') => (Running, s'')
        end
    end.

Definition emit (ev : event) : M unit :=
  fun s => (Returns tt,
            {| message_count := message_count s; next_obj := next_obj s;
               trace := trace s ++ [ev] |}).

Definition print (line : pystr) : M unit := emit (Printed line).

(** An external call: it is observed, and ends as the world decides. *)
Definition extern (c : call) (f : fate) : M unit :=
  (emit (Called c f) ;;
   match f with
   | Succeeds => ret tt
   | Raises e => raise e
   end)%py.

Definition fresh_obj : M nat :=
  fun s => (Returns (next_obj s),
            {| message_count := message_count s; next_obj := S (next_obj s);
               trace := trace s |}).

Definition get_message_count : M nat := fun s => (Returns (message_count s), s).
Definition set_message_count (n : nat) : M unit :=
  fun s => (Returns tt,
            {| message_count := n; next_obj := next_obj s; trace := trace s |}).

Section Producer.
Context {F : FloatOps}.

(** The world's decisions. The calls inside the loop are indexed by the
    iteration they belong to; a [Raises KeyboardInterrupt] is the
    operator's interrupt surfacing in that call. *)
Record oracle := {
  on_connect : fate;               (* pymqi.connect(...) *)
  on_generate : nat -> fate;       (* generate_transaction() *)
  draw : nat -> draws;             (* what the generator draws *)
  on_Queue : nat -> fate;          (* pymqi.Queue(qmgr, queue_name) *)
  on_put : nat -> fate;            (* queue.put(...) *)
  on_close : nat -> fate;          (* queue.close() *)
  on_sleep : nat -> fate;          (* time.sleep(MESSAGE_INTERVAL) *)
  on_disconnect : fate             (* qmgr.disconnect() *)
}.

Variable cfg : config.
Variable W : oracle.

Local Open Scope py_scope.

(** [connect_to_mq]. The queue manager object is the only one of its
    kind, so it is not given a name. *)
Definition connect_to_mq : M unit :=
  print (lit "Connecting to MQ: " ++ MQ_HOST cfg ++ lit ":" ++ MQ_PORT cfg) ;;
  print (lit "Queue Manager: " ++ MQ_QUEUE_MANAGER cfg ++ lit ", Channel: "
         ++ MQ_CHANNEL cfg) ;;
  let conn_info := MQ_HOST cfg ++ lit "(" ++ MQ_PORT cfg ++ lit ")" in
  extern (pymqi_connect (MQ_QUEUE_MANAGER cfg) (MQ_CHANNEL cfg) conn_info
            (MQ_USER cfg) (MQ_PASSWORD cfg))
         (on_connect W) ;;
  print ([0x2705] ++ lit " Connected to Queue Manager: " ++ MQ_QUEUE_MANAGER cfg) ;;
  ret tt.

(** [message_json.encode('utf-8')]. *)
Definition encode_utf8 (s : pystr) : M (list byte) :=
  match str_encode_utf8 s with
  | Some bs => ret bs
  | None => raise (Exception_ (lit "UnicodeEncodeError"))
  end.

(** [send_message], called in iteration [i]. *)
Definition send_message (i : nat) (queue_name : pystr) (message_data : pyval)
  : M pystr :=
  queue <- fresh_obj ;;
  extern (pymqi_Queue queue queue_name) (on_Queue W i) ;;
  let message_json := json_dumps 2 message_data in
  payload <- encode_utf8 message_json ;;
  extern (queue_put queue payload) (on_put W i) ;;
  extern (queue_close queue) (on_close W i) ;;
  ret message_json.

(** The call of [generate_transaction] in iteration [i]. *)
Definition call_generate_transaction (i : nat) : M pyval :=
  match on_generate W i with
  | Raises e => raise e
  | Succeeds =>
      match generate_transaction (draw W i) with
      | Some transaction => ret transaction
      | None => raise (Exception_ (lit "IndexError"))
      end
  end.

(** [str(v)] as an f-string field formats it. Only scalars are
    formatted by the script; the [repr] of containers is left out. *)
Definition py_str (v : pyval) : option pystr :=
  match v with
  | PNone => Some (lit "None")
  | PBool true => Some (lit "True")
  | PBool false => Some (lit "False")
  | PInt z => Some (str_int z)
  | PFloat x => Some (float_repr x)
  | PStr s => Some s
  | PList _ | PDict _ => None
  end.

(** A field [{transaction['key']}] of an f-string. *)
Definition field (transaction : pyval) (key : string) : M pystr :=
  match getitem transaction (lit key) with
  | None => raise (Exception_ (lit "KeyError"))
  | Some v =>
      match py_str v with
      | Some s => ret s
      | None => raise (Exception_ (lit "unformatted container"))
      end
  end.

(** The five lines printed after a successful send, and the rule. *)
Definition report_sent (transaction : pyval) : M unit :=
  count <- get_message_count ;;
  ts <- field transaction "timestamp" ;;
  print ([0x1f4e4] ++ lit " Message #" ++ str_nat count ++ lit " sent at " ++ ts) ;;
  tid <- field transaction "transaction_id" ;;
  print (lit "   Transaction ID: " ++ tid) ;;
  ty <- field transaction "transaction_type" ;;
  cur <- field transaction "currency" ;;
  amt <- field transaction "amount" ;;
  print (lit "   Type: " ++ ty ++ lit " | Amount: " ++ cur ++ lit " " ++ amt) ;;
  name <- field transaction "customer_name" ;;
  cid <- field transaction "customer_id" ;;
  print (lit "   Customer: " ++ name ++ lit " (" ++ cid ++ lit ")") ;;
  st <- field transaction "status" ;;
  print (lit "   Status: " ++ st) ;;
  print (repeat 45 80).

Definition send_failed_line (e : exn) : pystr :=
  [0x274c] ++ lit " Failed to send message: " ++ exn_str e.

(** The inner [try] of the loop body. *)
Definition try_send (i : nat) (transaction : pyval) : M unit :=
  try_except
    (message_json <- send_message i (MQ_QUEUE cfg) transaction ;;
     count <- get_message_count ;;
     set_message_count (count + 1) ;;
     report_sent transaction)
    (fun e => if is_Exception e then Some (print (send_failed_line e)) else None).

(** One pass through the body of [while True]. *)
Definition loop_body (i : nat) : M unit :=
  transaction <- call_generate_transaction i ;;
  try_send i transaction ;;
  extern (time_sleep (MESSAGE_INTERVAL cfg)) (on_sleep W i).

(** [while True], from iteration [i] on, for at most [fuel] passes. *)
Fixpoint while_true (fuel : nat) (i : nat) : M unit :=
  match fuel with
  | O => running
  | S fuel' => loop_body i ;; while_true fuel' (S i)
  end.

Definition banner : M unit :=
  print (repeat 61 80) ;;
  print (lit "IBM MQ Random Data Stream Producer") ;;
  print (repeat 61 80) ;;
  print (lit "Target Queue: " ++ MQ_QUEUE cfg) ;;
  print (lit "Message Interval: " ++ str_int (MESSAGE_INTERVAL cfg) ++ lit " seconds") ;;
  print (repeat 61 80) ;;
  print [].

Definition connect_failed_line (e : exn) : pystr :=
  [0x274c] ++ lit " Failed to connect to MQ: " ++ exn_str e.
Definition stopped_line : pystr :=
  [10; 10; 0x26a0; 0xfe0f] ++ lit "  Producer stopped by user".
Definition loop_error_line (e : exn) : pystr :=
  [10; 0x274c] ++ lit " Error in producer loop: " ++ exn_str e.
Definition summary_line (count : nat) : pystr :=
  [10; 0x2705] ++ lit " Disconnected from MQ. Total messages sent: " ++ str_nat count.

(** The [finally] clause of [main]: a bare [except] around the
    disconnect and the summary. *)
Definition shutdown : M unit :=
  try_except
    (extern qmgr_disconnect (on_disconnect W) ;;
     count <- get_message_count ;;
     print (summary_line count))
    (fun _ => Some (ret tt)).

(** The guarded loop of [main], from [message_count = 0] on. *)
Definition producer (fuel : nat) : M unit :=
  set_message_count 0 ;;
  try_finally
    (try_except (while_true fuel 0)
       (fun e =>
          match e with
          | KeyboardInterrupt => Some (print stopped_line)
          | Exception_ _ => Some (print (loop_error_line e))
          | BaseException_ _ => None
          end))
    shutdown.

(** [main]. The first [try] returns from [main] when the connection
    fails with an [Exception]. *)
Definition main (fuel : nat) : M unit :=
  banner ;;
  connected <- try_except (connect_to_mq ;; ret true)
                 (fun e => if is_Exception e
                           then Some (print (connect_failed_line e) ;; ret false)
                           else None) ;;
  if connected : bool then producer fuel else ret tt.

End Producer.


(** ** The data-model table, as predicates on a record *)

Section RecordShape.
Context {F : FloatOps}.

(** The field is there and is not [None]. *)
Definition present (r : pyval) (key : string) : Prop :=
  exists v, getitem r (lit key) = Some v /\ v <> PNone.

(** The field is there, is a string, and the string passes [ok]. *)
Definition str_field (r : pyval) (key : string) (ok : pystr -> bool) : Prop :=
  exists s, getitem r (lit key) = Some (PStr s) /\ ok s = true.

Definition one_of (names : list string) (s : pystr) : bool :=
  existsb (str_eqb s) (map lit names).

Definition record_fields : list string :=
  ["transaction_id"; "timestamp"; "customer_id"; "customer_name"; "customer_email";
   "transaction_type"; "category"; "amount"; "currency"; "status"; "merchant_id";
   "merchant_name"; "location"; "payment_method"; "device_type"; "ip_address";
   "user_agent"; "metadata"]%string.
Definition location_fields : list string :=
  ["city"; "country"; "latitude"; "longitude"]%string.
Definition metadata_fields : list string :=
  ["session_id"; "referrer"; "campaign_id"]%string.

Definition well_formed_record (r : pyval) : Prop :=
  Forall (present r) record_fields
  /\ (exists loc, getitem r (lit "location") = Some loc
                  /\ Forall (present loc) location_fields)
  /\ (exists md, getitem r (lit "metadata") = Some md
                 /\ Forall (present md) metadata_fields
                 /\ str_field md "campaign_id" (matches (plit "CAMP-" ++ pdigits 3)))
  /\ str_field r "transaction_type"
       (one_of ["purchase"; "refund"; "payment"; "transfer"; "deposit";
                "withdrawal"]%string)
  /\ str_field r "category"
       (one_of ["electronics"; "clothing"; "food"; "services"; "utilities";
                "entertainment"]%string)
  /\ str_field r "currency" (one_of ["USD"; "EUR"; "GBP"]%string)
  /\ str_field r "status"
       (one_of ["completed"; "pending"; "failed"; "processing"]%string)
  /\ str_field r "payment_method"
       (one_of ["credit_card"; "debit_card"; "paypal"; "bank_transfer"; "cash"]%string)
  /\ str_field r "device_type" (one_of ["mobile"; "web"; "pos"; "atm"]%string)
  /\ str_field r "customer_id" (matches (plit "CUST-" ++ pdigits 5))
  /\ str_field r "merchant_id" (matches (plit "MERCH-" ++ pdigits 4)).

(** ISO-8601 date and time, [frac] digits of fractional seconds
    (none, and no dot, when [frac] is 0), and the trailing [Z]. *)
Definition iso_utc (frac : nat) : list pat :=
  pdigits 4 ++ plit "-" ++ pdigits 2 ++ plit "-" ++ pdigits 2 ++ plit "T"
  ++ pdigits 2 ++ plit ":" ++ pdigits 2 ++ plit ":" ++ pdigits 2
  ++ match frac with O => [] | _ => plit "." ++ pdigits frac end
  ++ plit "Z".

(** The timestamp of every record drawn at a valid time has second
    precision or [frac] digits of fractional seconds. *)
Definition timestamp_precision (frac : nat) (d : draws) : Prop :=
  valid_datetime (d_now d) ->
  exists r ts, generate_transaction d = Some r
    /\ getitem r (lit "timestamp") = Some (PStr ts)
    /\ ts = isoformat (d_now d) ++ lit "Z"
    /\ (matches (iso_utc 0) ts = true \/ matches (iso_utc frac) ts = true).

End RecordShape.

(** ** A stand-in for the float type

    Whole numbers printed as [n.0]: enough to run the model on concrete
    inputs. *)

Definition whole_float : FloatOps := {|
  pyfloat := N;
  pydecimal := N;
  float_of_int := Z.to_N;
  random_uniform := fun a b raw => a + raw mod (b - a + 1);
  py_round := fun x _ => x;
  float_of_decimal := fun d => d;
  float_repr := fun x => str_N x ++ lit ".0";
  float_of_str := fun s =>
    let (ds, r) := take_digits s in
    match ds with
    | [] => None
    | _ => if str_eqb r (lit ".0") then Some (digits_val ds) else None
    end
|}.

Definition sample_time : datetime :=
  {| year := 2024; month := 3; day := 7;
     hour := 9; minute := 5; second := 0; microsecond := 123456 |}.

Definition sample_draws : @draws whole_float := {|
  d_transaction_id := lit "6f1c0d6e-8a59-4c0e-9d3a-2b7e5f4a1c90";
  d_now := sample_time;
  d_customer := 777777;
  d_customer_name := lit "Zo" ++ [235] ++ lit " Brown";
  d_customer_email := lit "zoe@example.org";
  d_transaction_type := 7;
  d_category := 3;
  d_amount := 12345;
  d_currency := 4;
  d_status := 2;
  d_merchant := 99;
  d_merchant_name := lit "Acme Ltd";
  d_city := lit "Oslo";
  d_country := lit "Norway";
  d_latitude := (59 : @pydecimal whole_float);
  d_longitude := (10 : @pydecimal whole_float);
  d_payment_method := 1;
  d_device_type := 6;
  d_ip_address := lit "10.0.0.1";
  d_user_agent := lit "Mozilla/5.0";
  d_session_id := lit "0b9f7c1e-52f4-4d0a-8a3e-6d1b2c3d4e5f";
  d_referrer := lit "http://example.org/";
  d_campaign := 5
|}.

(** ** Observations on traces *)

(** Every run of [m] takes a state to one related to it by [R]. *)
Definition keeps (R : state -> state -> Prop) {A} (m : M A) : Prop :=
  forall s, R s (snd (m s)).

(** A publish call has completed successfully when [send_message] has
    returned, that is when its last call, [queue.close()], has. *)
Definition is_close_ok (ev : event) : bool :=
  match ev with Called (queue_close _) Succeeds => true | _ => false end.
Definition successful_publishes (tr : list event) : nat :=
  length (filter is_close_ok tr).

Definition is_connect (ev : event) : bool :=
  match ev with Called (pymqi_connect _ _ _ _ _) _ => true | _ => false end.
Definition is_disconnect (ev : event) : bool :=
  match ev with Called qmgr_disconnect _ => true | _ => false end.
Definition is_put (ev : event) : bool :=
  match ev with Called (queue_put _ _) _ => true | _ => false end.
Definition is_close (ev : event) : bool :=
  match ev with Called (queue_close _) _ => true | _ => false end.
Definition is_call (ev : event) : bool :=
  match ev with Called _ _ => true | Printed _ => false end.

Definition connect_calls (tr : list event) : nat := length (filter is_connect tr).
Definition disconnect_calls (tr : list event) : nat := length (filter is_disconnect tr).

(** The shutdown summary is the one line that starts with a newline
    and the check mark. *)
Definition is_summary (ev : event) : bool :=
  match ev with
  | Printed line => starts_with [10; 0x2705] line
  | Called _ _ => false
  end.

(** The objects created by the [pymqi.Queue(...)] calls, oldest first. *)
Definition created_objs (tr : list event) : list nat :=
  flat_map (fun ev => match ev with
                      | Called (pymqi_Queue obj _) _ => [obj]
                      | _ => []
                      end) tr.

(** The state in which the loop is entered: connected once, nothing
    published, nothing else done. *)
Definition at_start (s0 : state) : Prop :=
  message_count s0 = 0%nat /\ next_obj s0 = 0%nat
  /\ successful_publishes (trace s0) = 0%nat
  /\ disconnect_calls (trace s0) = 0%nat
  /\ connect_calls (trace s0) = 1%nat
  /\ filter is_summary (trace s0) = []
  /\ created_objs (trace s0) = [].

(** A step that only prints. *)
Definition prints_only (s s' : state) : Prop :=
  message_count s' = message_count s /\ next_obj s' = next_obj s
  /\ exists lines, trace s' = trace s ++ map Printed lines.

Definition is_returns {A} (r : outcome A) : bool :=
  match r with Returns _ => true | _ => false end.

(** An outcome the inner handler of the loop contains: a return, or an
    [Exception]. *)
Definition mild {A} (r : outcome A) : Prop :=
  match r with
  | Returns _ => True
  | Raised e => is_Exception e = true
  | Running => False
  end.
Definition tame {A} (m : M A) : Prop := forall s, mild (fst (m s)).

Section Observations.
Context {F : FloatOps}.
Variable W : oracle.

(** The calls one [send_message] makes in iteration [i] on its queue
    object [obj], and how it ends, read off the oracle. *)
Definition send_events (i obj : nat) (queue_name : pystr) (message_data : pyval)
  : list event :=
  Called (pymqi_Queue obj queue_name) (on_Queue W i) ::
  match on_Queue W i, str_encode_utf8 (json_dumps 2 message_data) with
  | Succeeds, Some payload =>
      Called (queue_put obj payload) (on_put W i) ::
      match on_put W i with
      | Succeeds => [Called (queue_close obj) (on_close W i)]
      | Raises _ => []
      end
  | _, _ => []
  end.

Definition send_outcome (i : nat) (message_data : pyval) : outcome pystr :=
  match on_Queue W i with
  | Raises e => Raised e
  | Succeeds =>
      match str_encode_utf8 (json_dumps 2 message_data) with
      | None => Raised (Exception_ (lit "UnicodeEncodeError"))
      | Some _ =>
          match on_put W i with
          | Raises e => Raised e
          | Succeeds =>
              match on_close W i with
              | Raises e => Raised e
              | Succeeds => Returns (json_dumps 2 message_data)
              end
          end
      end
  end.

(** The exception that leaves the loop body in iteration [i], if any:
    one raised in the generator, one raised in [send_message] that is
    not an [Exception] (the inner handler lets it pass), or one raised
    in the sleep. *)
Definition sleep_exit (i : nat) : option exn :=
  match on_sleep W i with
  | Raises e => Some e
  | Succeeds => None
  end.

Definition iteration_exit (i : nat) : option exn :=
  match on_generate W i with
  | Raises e => Some e
  | Succeeds =>
      match generate_transaction (draw W i) with
      | None => Some (Exception_ (lit "IndexError"))
      | Some transaction =>
          match send_outcome i transaction with
          | Raised e => if is_Exception e then sleep_exit i else Some e
          | _ => sleep_exit i
          end
      end
  end.

(** How the publish of iteration [i] ends. *)
Definition publish_outcome (i : nat) : outcome pystr :=
  match generate_transaction (draw W i) with
  | Some transaction => send_outcome i transaction
  | None => Raised (Exception_ (lit "IndexError"))
  end.

(** How [while True] ends within [fuel] passes from iteration [i] on,
    and how [main] ends: neither depends on the disconnect. *)
Fixpoint loop_outcome (fuel i : nat) : outcome unit :=
  match fuel with
  | O => Running
  | S fuel' =>
      match iteration_exit i with
      | Some e => Raised e
      | None => loop_outcome fuel' (S i)
      end
  end.

Definition main_outcome (fuel : nat) : outcome unit :=
  match on_connect W with
  | Raises e => if is_Exception e then Returns tt else Raised e
  | Succeeds =>
      match loop_outcome fuel 0 with
      | Running => Running
      | Raised (BaseException_ msg) => Raised (BaseException_ msg)
      | _ => Returns tt
      end
  end.

(** The loop runs undisturbed through the iterations before [k]. *)
Definition runs_until (k : nat) : Prop :=
  forall i, (i < k)%nat -> iteration_exit i = None.

(** What a stretch of the loop may do to the state: append events [evs]
    that are neither a connect, a disconnect nor a summary, count the
    publishes that completed, and create objects under new names. *)
Definition loop_event (ev : event) : bool :=
  negb (is_connect ev) && negb (is_disconnect ev) && negb (is_summary ev).

Definition loop_step (s s' : state) : Prop :=
  exists evs,
    trace s' = trace s ++ evs
    /\ message_count s' = (message_count s + successful_publishes evs)%nat
    /\ forallb loop_event evs = true
    /\ created_objs evs = seq (next_obj s) (next_obj s' - next_obj s)
    /\ (next_obj s <= next_obj s')%nat.

(** What the handlers of the outer [try] print for the exception that
    ended the loop, what the [finally] clause does, and how [main] ends. *)
Definition handler_events (e : exn) : list event :=
  match e with
  | KeyboardInterrupt => [Printed stopped_line]
  | Exception_ _ => [Printed (loop_error_line e)]
  | BaseException_ _ => []
  end.

Definition shutdown_events (count : nat) : list event :=
  Called qmgr_disconnect (on_disconnect W) ::
  match on_disconnect W with
  | Succeeds => [Printed (summary_line count)]
  | Raises _ => []
  end.

Definition exit_outcome (e : exn) : outcome unit :=
  match e with
  | BaseException_ _ => Raised e
  | _ => Returns tt
  end.

(** The events after the loop ended as [r]: the handler's line, then
    the shutdown. *)
Definition closing_events (r : outcome unit) (count : nat) : list event :=
  match r with
  | Running => []
  | Raised e => handler_events e ++ shutdown_events count
  | Returns _ => shutdown_events count
  end.

(** C8 as stated: the call closes its queue object before it completes. *)
Definition publish_closes (i : nat) (queue_name : pystr) (message_data : pyval)
  (s : state) : Prop :=
  exists f, In (Called (queue_close (next_obj s)) f)
               (trace (snd (send_message W i queue_name message_data s))).

End Observations.

(** Worlds to run the model in: one where the first write fails and
    the third sleep is interrupted, and one where the queue manager
    cannot be reached. *)
Definition sample_record : @pyval whole_float :=
  match generate_transaction sample_draws with
  | Some r => r
  | None => PNone
  end.

Definition mq_error : exn :=
  Exception_ (lit "MQI Error. Comp: 2, Reason 2009: FAILED: MQRC_CONNECTION_BROKEN").

Definition rough_world : @oracle whole_float := {|
  on_connect := Succeeds;
  on_generate := fun _ => Succeeds;
  draw := fun _ => sample_draws;
  on_Queue := fun _ => Succeeds;
  on_put := fun i => match i with O => Raises mq_error | _ => Succeeds end;
  on_close := fun _ => Succeeds;
  on_sleep := fun i => match i with 2%nat => Raises KeyboardInterrupt | _ => Succeeds end;
  on_disconnect := Succeeds
|}.

Definition unreachable_world : @oracle whole_float := {|
  on_connect := Raises mq_error;
  on_generate := fun _ => Succeeds;
  draw := fun _ => sample_draws;
  on_Queue := fun _ => Succeeds;
  on_put := fun _ => Succeeds;
  on_close := fun _ => Succeeds;
  on_sleep := fun _ => Succeeds;
  on_disconnect := Succeeds
|}.

(** ** What the round trip through JSON needs *)

(** The character after a number token: not one that could extend it. *)
Definition ends_number (rest : pystr) : bool :=
  match rest with
  | [] => true
  | c :: _ =>
      negb (is_digit c || (c =? 46) || (c =? 101) || (c =? 69) || (c =? 43) || (c =? 45))
  end.

Definition ascii_text (s : pystr) : Prop := Forall (fun c => c < 128) s.

(** A number token starts with a digit or a minus sign. *)
Definition starts_number (s : pystr) : Prop :=
  match s with
  | c :: _ => is_digit c = true \/ c = ch_minus
  | [] => False
  end.

(** What a value's text starts with: no white space, no closing bracket. *)
Definition opens_value (s : pystr) : Prop :=
  exists c tl, s = c :: tl /\ is_ws c = false /\ c <> 93.

Definition no_digit_ahead (rest : pystr) : Prop :=
  match rest with
  | [] => True
  | c :: _ => is_digit c = false
  end.

Section FloatLiterals.
Context {F : FloatOps}.

(** The text is one JSON number with a fraction or an exponent. *)
Definition is_float_literal (s : pystr) : bool :=
  match match_number s with
  | Some (_, frac, exp, []) => match frac ++ exp with [] => false | _ => true end
  | _ => false
  end.

End FloatLiterals.

(** What Python documents of [repr] on finite floats: it is read back
    by [float] as the same value, and it is a decimal numeral with a
    fraction or an exponent ([5000.0], [1e-06], [-73.150096]). *)
Class FloatLaws (F : FloatOps) : Prop := {
  float_repr_roundtrip : forall x : pyfloat, float_of_str (float_repr x) = Some x;
  float_repr_literal : forall x : pyfloat, is_float_literal (float_repr x) = true
}.

(** A Unicode scalar value: a code point that is not a surrogate. *)
Definition is_scalar (c : codepoint) : bool :=
  (c <? 0xD800) || ((0xDFFF <? c) && (c <? 0x110000)).
Definition scalar_text (s : pystr) : Prop := Forall (fun c => is_scalar c = true) s.

Fixpoint nodupb (keys : list pystr) : bool :=
  match keys with
  | [] => true
  | k :: rest => negb (existsb (str_eqb k) rest) && nodupb rest
  end.

Section JsonShape.
Context {F : FloatOps}.

(** Values that the round trip returns unchanged: the strings are text
    (sequences of scalar values), and no dict has a key twice. *)
Fixpoint well_formed (v : pyval) : Prop :=
  match v with
  | PStr s => scalar_text s
  | PList elems =>
      (fix all (l : list pyval) : Prop :=
         match l with
         | [] => True
         | x :: l' => well_formed x /\ all l'
         end) elems
  | PDict items =>
      nodupb (map fst items) = true
      /\ (fix all (l : list (pystr * pyval)) : Prop :=
            match l with
            | [] => True
            | (k, x) :: l' => scalar_text k /\ well_formed x /\ all l'
            end) items
  | _ => True
  end.

(** The fuel [scan_once] needs to read a value back. *)
Fixpoint size (v : pyval) : nat :=
  match v with
  | PList elems =>
      S ((fix sum (l : list pyval) : nat :=
            match l with
            | [] => O
            | x :: l' => S (size x + sum l')
            end) elems)
  | PDict items =>
      S ((fix sum (l : list (pystr * pyval)) : nat :=
            match l with
            | [] => O
            | (_, x) :: l' => S (size x + sum l')
            end) items)
  | _ => 1%nat
  end.

(** The pieces of [iterencode], by name: an item of a dict, and what
    the loops emit for the items after the first. *)
Definition item_text (ind lvl : nat) (kv : pystr * pyval) : pystr :=
  encode_basestring_ascii (fst kv) ++ lit ": " ++ iterencode ind lvl (snd kv).
Definition elems_tail (ind lvl : nat) (l : list pyval) : pystr :=
  flat_map (fun x => lit "," ++ newline_indent ind lvl ++ iterencode ind lvl x) l.
Definition items_tail (ind lvl : nat) (l : list (pystr * pyval)) : pystr :=
  flat_map (fun kv => lit "," ++ newline_indent ind lvl ++ item_text ind lvl kv) l.

Definition elems_size (l : list pyval) : nat :=
  fold_right (fun x n => S (size x + n)) O l.
Definition items_size (l : list (pystr * pyval)) : nat :=
  fold_right (fun kv n => S (size (snd kv) + n)) O l.

(** Reading back what [iterencode] wrote, with enough fuel and before
    a text that cannot extend a number. *)
Definition reads_back (ind : nat) (v : pyval) : Prop :=
  forall lvl fuel rest,
    well_formed v -> (size v <= fuel)%nat -> ends_number rest = true ->
    scan_once fuel (iterencode ind lvl v ++ rest) = Some (v, rest).

(** The strings the Faker provider supplies are text. *)
Definition faker_text (d : draws) : Prop :=
  scalar_text (d_transaction_id d) /\ scalar_text (d_customer_name d)
  /\ scalar_text (d_customer_email d) /\ scalar_text (d_merchant_name d)
  /\ scalar_text (d_city d) /\ scalar_text (d_country d)
  /\ scalar_text (d_ip_address d) /\ scalar_text (d_user_agent d)
  /\ scalar_text (d_session_id d) /\ scalar_text (d_referrer d).

End JsonShape.

(** ** The log, as the operator reads it *)

(** The number a string of decimal digits denotes, after [acc]. *)
Fixpoint decimal_value (digits : pystr) (acc : N) : option N :=
  match digits with
  | [] => Some acc
  | c :: rest =>
      if (48 <=? c) && (c <=? 57) then decimal_value rest (10 * acc + (c - 48))
      else None
  end.

(** [digits] is the decimal numeral of [n]: digits only, at least one,
    denoting [n], with no zero in front of another digit. *)
Definition decimal_numeral (n : nat) (digits : pystr) : Prop :=
  digits <> []
  /\ decimal_value digits 0 = Some (N.of_nat n)
  /\ forall rest, digits = 48 :: rest -> rest = [].

(** A printed line that starts with a newline. *)
Definition starts_with_newline (ev : event) : bool :=
  match ev with
  | Printed (c :: _) => c =? 10
  | _ => false
  end.

(** ** Further observations on runs *)

Definition is_sleep (ev : event) : bool :=
  match ev with Called (time_sleep _) _ => true | _ => false end.
Definition is_Queue (ev : event) : bool :=
  match ev with Called (pymqi_Queue _ _) _ => true | _ => false end.

Section Reports.
Context {F : FloatOps}.

(** What a field [{transaction['key']}] of an f-string shows. *)
Definition shown (transaction : pyval) (key : string) : pystr :=
  match getitem transaction (lit key) with
  | Some v => match py_str v with Some s => s | None => [] end
  | None => []
  end.

(** The lines printed after a successful send, [count] being the
    counter after its increment. *)
Definition sent_header (count : nat) (transaction : pyval) : pystr :=
  [0x1f4e4] ++ lit " Message #" ++ str_nat count ++ lit " sent at "
  ++ shown transaction "timestamp".

Definition sent_lines (count : nat) (transaction : pyval) : list pystr :=
  [ sent_header count transaction;
    lit "   Transaction ID: " ++ shown transaction "transaction_id";
    lit "   Type: " ++ shown transaction "transaction_type" ++ lit " | Amount: "
      ++ shown transaction "currency" ++ lit " " ++ shown transaction "amount";
    lit "   Customer: " ++ shown transaction "customer_name" ++ lit " ("
      ++ shown transaction "customer_id" ++ lit ")";
    lit "   Status: " ++ shown transaction "status";
    repeat 45 80 ].

End Reports.

Section Iterations.
Context {F : FloatOps}.
Variable cfg : config.
Variable W : oracle.

(** What the inner [try] prints in iteration [i] for the record [t],
    [count] being the counter before the attempt. *)
Definition attempt_lines (i count : nat) (t : pyval) : list pystr :=
  match send_outcome W i t with
  | Returns _ => sent_lines (S count) t
  | Raised e => if is_Exception e then [send_failed_line e] else []
  | Running => []
  end.

(** The sleep of iteration [i]: reached unless [send_message] was left
    by an exception the inner handler lets pass. *)
Definition sleep_events (i : nat) (t : pyval) : list event :=
  match send_outcome W i t with
  | Raised e =>
      if is_Exception e
      then [Called (time_sleep (MESSAGE_INTERVAL cfg)) (on_sleep W i)]
      else []
  | _ => [Called (time_sleep (MESSAGE_INTERVAL cfg)) (on_sleep W i)]
  end.

(** Everything iteration [i] adds to the trace. *)
Definition iteration_events (i obj count : nat) : list event :=
  match on_generate W i, generate_transaction (draw W i) with
  | Succeeds, Some t =>
      send_events W i obj (MQ_QUEUE cfg) t
      ++ map Printed (attempt_lines i count t) ++ sleep_events i t
  | _, _ => []
  end.

(** What [main] has done when [connect_to_mq] is over. *)
Definition startup_events : list event :=
  map Printed
    [repeat 61 80; lit "IBM MQ Random Data Stream Producer"; repeat 61 80;
     lit "Target Queue: " ++ MQ_QUEUE cfg;
     lit "Message Interval: " ++ str_int (MESSAGE_INTERVAL cfg) ++ lit " seconds";
     repeat 61 80; [];
     lit "Connecting to MQ: " ++ MQ_HOST cfg ++ lit ":" ++ MQ_PORT cfg;
     lit "Queue Manager: " ++ MQ_QUEUE_MANAGER cfg ++ lit ", Channel: "
       ++ MQ_CHANNEL cfg]
  ++ [Called (pymqi_connect (MQ_QUEUE_MANAGER cfg) (MQ_CHANNEL cfg)
                (MQ_HOST cfg ++ lit "(" ++ MQ_PORT cfg ++ lit ")")
                (MQ_USER cfg) (MQ_PASSWORD cfg)) (on_connect W)].

End Iterations.

(** More worlds: every call of the loop ends as its own schedule says. *)
Definition always (_ : nat) : fate := Succeeds.
Definition at_iteration (k : nat) (e : exn) (i : nat) : fate :=
  if Nat.eqb i k then Raises e else Succeeds.

Definition world (connect : fate) (generate Queue put close sleep : nat -> fate)
  (disconnect : fate) : @oracle whole_float := {|
  on_connect := connect;
  on_generate := generate;
  draw := fun _ => sample_draws;
  on_Queue := Queue;
  on_put := put;
  on_close := close;
  on_sleep := sleep;
  on_disconnect := disconnect
|}.

Definition steady_world : @oracle whole_float :=
  world Succeeds always always always always always Succeeds.
Definition negative_sleep_world : @oracle whole_float :=
  world Succeeds always always always always
    (at_iteration 1 (Exception_ (lit "sleep length must be non-negative")))
    (Raises mq_error).
Definition exiting_world : @oracle whole_float :=
  world Succeeds always always (at_iteration 1 (BaseException_ (lit "SystemExit")))
    always always Succeeds.
Definition interrupted_connect_world : @oracle whole_float :=
  world (Raises KeyboardInterrupt) always always always always always Succeeds.
Definition close_fails_world : @oracle whole_float :=
  world Succeeds always always always (at_iteration 0 mq_error) always Succeeds.

(** Values that are not generated records: one with a lone surrogate
    in a string, and one with a list, an integer, [None] and a bool. *)
Definition odd_value : @pyval whole_float :=
  PDict [(lit "name", PStr [90; 111; 235; 0x1f4e4; 0xD800])].
Definition nested_value : @pyval whole_float :=
  PDict [(lit "name", PStr [90; 111; 235; 0x1f4e4]);
         (lit "tags", PList [PInt (-5); PNone; PBool true; PFloat (7 : @pyfloat whole_float)])].

(** ** The module-level configuration: [os.getenv] and [int]

    The eight assignments at the top of the script read the
    environment once; [MESSAGE_INTERVAL] is converted by [int]. *)

(** What [int] asks the Unicode database and the interpreter: which
    code points from 127 on are white space, which are decimal digits
    and of what value, and the limit on the number of digits
    ([sys.get_int_max_str_digits()], 0 for none). *)
Class IntOps := {
  Py_UNICODE_ISSPACE : codepoint -> bool;
  Py_UNICODE_TODECIMAL : codepoint -> option N;
  int_max_str_digits : nat
}.

(** [os.environ], as its items. *)
Fixpoint environ_get (environ : list (pystr * pystr)) (key : pystr) : option pystr :=
  match environ with
  | [] => None
  | (k, v) :: rest => if str_eqb k key then Some v else environ_get rest key
  end.

(** [os.getenv(key, default)]. *)
Definition getenv (environ : list (pystr * pystr)) (key default : string) : pystr :=
  match environ_get environ (lit key) with
  | Some v => v
  | None => lit default
  end.

(** The white space of the C locale: tab, line feed, vertical tab,
    form feed, carriage return, space. *)
Definition Py_ISSPACE (c : codepoint) : bool := ((9 <=? c) && (c <=? 13)) || (c =? 32).

Fixpoint skip_spaces (s : pystr) : pystr :=
  match s with
  | c :: tl => if Py_ISSPACE c then skip_spaces tl else s
  | [] => []
  end.

(** The digits of a numeral, with single underscores between them:
    [prev] is the character before, [digits] the digits so far. The
    scan stops at the first character that is neither, and fails on
    two underscores in a row or an underscore at the end. *)
Fixpoint scan_digits (s : pystr) (prev : codepoint) (digits : pystr)
  : option (pystr * pystr) :=
  match s with
  | c :: tl =>
      if c =? 95 then
        if prev =? 95 then None else scan_digits tl c digits
      else if is_digit c then scan_digits tl c (digits ++ [c])
      else if prev =? 95 then None else Some (digits, s)
  | [] => if prev =? 95 then None else Some (digits, s)
  end.

Section Int.
Context {U : IntOps}.

(** A string with a character outside ASCII is first rewritten: white
    space becomes a space, a decimal digit its ASCII digit, and the
    first character that is neither ends the text with a question
    mark. *)
Fixpoint transform_decimal_and_space (s : pystr) : pystr :=
  match s with
  | [] => []
  | ch :: tl =>
      if ch <? 127 then ch :: transform_decimal_and_space tl
      else if Py_UNICODE_ISSPACE ch then 32 :: transform_decimal_and_space tl
      else
        match Py_UNICODE_TODECIMAL ch with
        | Some d => (48 + d) :: transform_decimal_and_space tl
        | None => [63]
        end
  end.

Definition to_ascii (s : pystr) : pystr :=
  if forallb (fun c => c <? 128) s then s else transform_decimal_and_space s.

(** More digits than the interpreter converts. *)
Definition too_many_digits (digits : pystr) : bool :=
  (640 <? length digits)%nat && (0 <? int_max_str_digits)%nat
  && (int_max_str_digits <? length digits)%nat.

(** The numeral after the sign: it does not start with an underscore,
    has a digit and no more digits than the limit, and only white
    space follows it. [None] is [ValueError]. *)
Definition numeral_value (negative : bool) (s : pystr) : option Z :=
  match s with
  | 95 :: _ => None
  | _ =>
      match scan_digits s 0 [] with
      | None => None
      | Some (digits, rest) =>
          if too_many_digits digits then None
          else
            match digits, skip_spaces rest with
            | _ :: _, [] =>
                Some (if negative then (- Z.of_N (digits_val digits))%Z
                      else Z.of_N (digits_val digits))
            | _, _ => None
            end
      end
  end.

(** [PyLong_FromString] in base 10: white space, a sign, the numeral. *)
Definition PyLong_FromString (s : pystr) : option Z :=
  match skip_spaces s with
  | c :: tl =>
      if c =? 43 then numeral_value false tl
      else if c =? 45 then numeral_value true tl
      else numeral_value false (c :: tl)
  | [] => numeral_value false []
  end.

(** [int(s)] on a string. *)
Definition py_int (s : pystr) : option Z := PyLong_FromString (to_ascii s).

(** The assignments of lines 16 to 23; [None] when [int] raises
    [ValueError], which ends the script before [main] is defined. *)
Definition load_config (environ : list (pystr * pystr)) : option config :=
  match py_int (getenv environ "MESSAGE_INTERVAL" "5") with
  | None => None
  | Some interval =>
      Some {|
        MQ_HOST := getenv environ "MQ_HOST"
                     "ibm-mq.mq-kafka-integration.svc.cluster.local";
        MQ_PORT := getenv environ "MQ_PORT" "1414";
        MQ_QUEUE_MANAGER := getenv environ "MQ_QUEUE_MANAGER" "QM1";
        MQ_CHANNEL := getenv environ "MQ_CHANNEL" "DEV.APP.SVRCONN";
        MQ_QUEUE := getenv environ "MQ_QUEUE" "KAFKA.IN";
        MQ_USER := getenv environ "MQ_USER" "app";
        MQ_PASSWORD := getenv environ "MQ_PASSWORD" "passw0rd";
        MESSAGE_INTERVAL := interval
      |}
  end.

(** The characters a decimal numeral is made of. *)
Definition numeral_char (c : codepoint) : bool :=
  is_digit c || (c =? 95) || (c =? 43) || (c =? 45) || Py_ISSPACE c.

End Int.

(** A stand-in for the Unicode database with a few of its entries: the
    no-break space and the ideographic space, the Arabic-Indic and the
    fullwidth digits; the default limit of 4300 digits. *)
Definition few_entries : IntOps := {|
  Py_UNICODE_ISSPACE := fun c => (c =? 0xA0) || (c =? 0x3000);
  Py_UNICODE_TODECIMAL := fun c =>
    if (0x660 <=? c) && (c <=? 0x669) then Some (c - 0x660)
    else if (0xFF10 <=? c) && (c <=? 0xFF19) then Some (c - 0xFF10)
    else None;
  int_max_str_digits := 4300
|}.
(* ================================================================== *)
(** * Part II. Properties                                               *)
(* ================================================================== *)

(** ** Arithmetic helpers *)

(** Name the quotient and the remainder of every division by a constant
    and keep the two facts that define them, so that [lia] applies. *)
Ltac divmod_facts a b :=
  let q := fresh "q" in
  let r := fresh "r" in
  pose proof (N.div_mod a b ltac:(discriminate));
  pose proof (N.mod_upper_bound a b ltac:(discriminate));
  set (q := a / b) in *; set (r := a mod b) in *; clearbody q r.

Ltac name_divmod :=
  repeat match goal with
  | |- context [N.div ?a ?b] => divmod_facts a b
  | |- context [N.modulo ?a ?b] => divmod_facts a b
  | H : context [N.div ?a ?b] |- _ => divmod_facts a b
  | H : context [N.modulo ?a ?b] |- _ => divmod_facts a b
  end.

Ltac nlia := name_divmod; lia.

(** ** Decimal digits *)

Lemma digits_aux_app (f : nat) : forall n acc,
  digits_aux f n acc = digits_aux f n [] ++ acc.
Proof.
  induction f as [|f IH]; intros n acc; simpl; [reflexivity|].
  destruct (n / 10 =? 0); [reflexivity|].
  rewrite IH, (IH _ [_]), <- app_assoc. reflexivity.
Qed.

Lemma digit_char_is_digit (n : N) : is_digit (digit_char (n mod 10)) = true.
Proof.
  unfold is_digit, digit_char.
  apply andb_true_intro; split; apply N.leb_le; nlia.
Qed.

Lemma digits_aux_digits (f : nat) : forall n acc,
  Forall (fun c => is_digit c = true) acc ->
  Forall (fun c => is_digit c = true) (digits_aux f n acc).
Proof.
  induction f as [|f IH]; intros n acc Hacc; simpl; [assumption|].
  assert (Forall (fun c => is_digit c = true) (digit_char (n mod 10) :: acc))
    by (constructor; [apply digit_char_is_digit | assumption]).
  destruct (n / 10 =? 0); auto.
Qed.

Lemma pow2_succ (f : nat) : 2 ^ N.of_nat (S f) = 2 * 2 ^ N.of_nat f.
Proof. rewrite Nat2N.inj_succ. apply N.pow_succ_r'. Qed.

Lemma div10_lt_half (n b : N) : n < 2 * b -> n / 10 < b.
Proof. intros H. nlia. Qed.

(** Once the fuel covers the binary size, more of it changes nothing. *)
Lemma digits_aux_fuel (f1 : nat) : forall f2 n acc,
  n < 2 ^ N.of_nat f1 -> n < 2 ^ N.of_nat f2 ->
  digits_aux (S f1) n acc = digits_aux (S f2) n acc.
Proof.
  induction f1 as [|f1 IH]; intros f2 n acc H1 H2.
  - assert (n = 0) by (simpl in H1; lia). subst n. reflexivity.
  - cbn [digits_aux]. destruct (n / 10 =? 0) eqn:E; [reflexivity|].
    apply N.eqb_neq in E.
    destruct f2 as [|f2].
    + simpl in H2. assert (n = 0) by lia. subst n. elim E. reflexivity.
    + rewrite pow2_succ in H1, H2.
      apply IH; apply div10_lt_half; assumption.
Qed.

Lemma lt_pow2_log2 (n : N) : n < 2 ^ N.of_nat (S (N.to_nat (N.log2 n))).
Proof.
  rewrite Nat2N.inj_succ, N2Nat.id.
  destruct (N.eq_dec n 0) as [->|Hn]; [reflexivity|].
  apply N.log2_spec. lia.
Qed.

Lemma digits_aux_step (f : nat) (n : N) (acc : pystr) :
  digits_aux (S f) n acc =
  if n / 10 =? 0 then digit_char (n mod 10) :: acc
  else digits_aux f (n / 10) (digit_char (n mod 10) :: acc).
Proof. reflexivity. Qed.

(** The recursive reading of [str_N]. *)
Lemma str_N_unfold (n : N) :
  str_N n = if n / 10 =? 0 then [digit_char (n mod 10)]
            else str_N (n / 10) ++ [digit_char (n mod 10)].
Proof.
  unfold str_N.
  change (2 + N.to_nat (N.log2 n))%nat with (S (S (N.to_nat (N.log2 n)))).
  rewrite digits_aux_step.
  destruct (n / 10 =? 0) eqn:E; [reflexivity|].
  rewrite digits_aux_app. f_equal.
  change (2 + N.to_nat (N.log2 (n / 10)))%nat
    with (S (S (N.to_nat (N.log2 (n / 10))))).
  apply digits_aux_fuel; [|apply lt_pow2_log2].
  pose proof (lt_pow2_log2 n) as H. rewrite pow2_succ in H.
  apply div10_lt_half; assumption.
Qed.

Lemma str_N_digits (n : N) : Forall (fun c => is_digit c = true) (str_N n).
Proof. apply digits_aux_digits. constructor. Qed.

Lemma str_N_small (n : N) : n < 10 -> str_N n = [digit_char n].
Proof.
  intros H. rewrite str_N_unfold.
  rewrite N.div_small, N.mod_small by assumption. reflexivity.
Qed.

Lemma str_N_big (n : N) : 10 <= n ->
  str_N n = str_N (n / 10) ++ [digit_char (n mod 10)].
Proof.
  intros H. rewrite str_N_unfold.
  destruct (n / 10 =? 0) eqn:E; [|reflexivity].
  apply N.eqb_eq in E. nlia.
Qed.

(** A number below [10^(k+1)] has at most [k+1] digits, one of at least
    [10^k] has at least [k+1]. *)
Lemma str_N_length_le (k : nat) : forall n,
  n < 10 ^ N.of_nat (S k) -> (length (str_N n) <= S k)%nat.
Proof.
  induction k as [|k IH]; intros n H.
  - rewrite str_N_small by (simpl in H; lia). simpl. lia.
  - destruct (N.lt_ge_cases n 10) as [Hs|Hb].
    + rewrite str_N_small by assumption. simpl. lia.
    + rewrite str_N_big, length_app by assumption. simpl.
      assert (n / 10 < 10 ^ N.of_nat (S k)).
      { rewrite (Nat2N.inj_succ (S k)), N.pow_succ_r' in H.
        apply N.Div0.div_lt_upper_bound. assumption. }
      specialize (IH _ H0). lia.
Qed.

Lemma str_N_length_ge (k : nat) : forall n,
  10 ^ N.of_nat k <= n -> (S k <= length (str_N n))%nat.
Proof.
  induction k as [|k IH]; intros n H.
  - rewrite str_N_unfold. destruct (n / 10 =? 0); [simpl; lia|].
    rewrite length_app. simpl. lia.
  - rewrite Nat2N.inj_succ, N.pow_succ_r' in H.
    assert (0 < 10 ^ N.of_nat k) by (apply N.neq_0_lt_0, N.pow_nonzero; discriminate).
    rewrite str_N_big, length_app by lia. simpl.
    assert (10 ^ N.of_nat k <= n / 10)
      by (apply N.div_le_lower_bound; [discriminate | assumption]).
    specialize (IH _ H1). lia.
Qed.

Lemma str_N_length (k : nat) (n : N) :
  10 ^ N.of_nat k <= n < 10 ^ N.of_nat (S k) -> length (str_N n) = S k.
Proof.
  intros [Hlo Hhi]. apply Nat.le_antisymm;
    [apply str_N_length_le | apply str_N_length_ge]; assumption.
Qed.

Lemma str_int_nonneg (z : Z) : (0 <= z)%Z -> str_int z = str_N (Z.to_N z).
Proof.
  intros H. unfold str_int.
  destruct (z <? 0)%Z eqn:E; [apply Z.ltb_lt in E; lia|].
  f_equal. destruct z; try reflexivity. lia.
Qed.

(** ** Patterns *)

Lemma matches_lit_app (l : pystr) (p : list pat) (s : pystr) :
  matches (map PChar l ++ p) (l ++ s) = matches p s.
Proof.
  induction l as [|c l IH]; simpl; [reflexivity|].
  rewrite N.eqb_refl. exact IH.
Qed.

Lemma matches_digits_app (ds : pystr) : forall (k : nat) (p : list pat) (s : pystr),
  length ds = k -> Forall (fun c => is_digit c = true) ds ->
  matches (pdigits k ++ p) (ds ++ s) = matches p s.
Proof.
  induction ds as [|c ds IH]; intros k p s Hlen Hd; subst k; simpl; [reflexivity|].
  inversion Hd as [|? ? Hc Hds]; subst. rewrite Hc. simpl.
  apply (IH (length ds)); auto.
Qed.

Lemma matches_lit (l : pystr) : matches (map PChar l) l = true.
Proof.
  pose proof (matches_lit_app l [] []) as H.
  rewrite !app_nil_r in H. exact H.
Qed.

Lemma matches_digits (ds : pystr) (k : nat) :
  length ds = k -> Forall (fun c => is_digit c = true) ds ->
  matches (pdigits k) ds = true.
Proof.
  intros Hlen Hd.
  pose proof (matches_digits_app ds k [] [] Hlen Hd) as H.
  rewrite !app_nil_r in H. exact H.
Qed.

(** ** The [random] module *)

Lemma randbelow_lt (n raw : N) : n <> 0 -> randbelow n raw < n.
Proof. intros H. apply N.mod_upper_bound. assumption. Qed.

Lemma randint_range (a b : Z) (raw : N) :
  (a <= b)%Z -> (a <= randint a b raw <= b)%Z.
Proof.
  intros H. unfold randint.
  pose proof (randbelow_lt (Z.to_N (b - a + 1)) raw ltac:(lia)). lia.
Qed.

Lemma choice_In {A} (seq : list A) (raw : N) :
  seq <> [] -> exists x, choice seq raw = Some x /\ In x seq.
Proof.
  intros Hne. unfold choice.
  destruct seq as [|a seq']; [contradiction|].
  set (l := a :: seq') in *.
  assert (Hlt : (N.to_nat (randbelow (N.of_nat (length l)) raw) < length l)%nat).
  { pose proof (randbelow_lt (N.of_nat (length l)) raw ltac:(simpl; lia)). lia. }
  destruct (nth_error l _) eqn:E.
  - eexists; split; [reflexivity|]. eapply nth_error_In; eassumption.
  - apply nth_error_None in E. lia.
Qed.

(** [f"PREFIX-{random.randint(lo, hi)}"] when every number from [lo] to
    [hi] has [k+1] digits. *)
Lemma prefixed_randint (prefix : pystr) (k : nat) (lo hi : Z) (raw : N) :
  (0 <= lo <= hi)%Z ->
  10 ^ N.of_nat k <= Z.to_N lo -> Z.to_N hi < 10 ^ N.of_nat (S k) ->
  matches (map PChar prefix ++ pdigits (S k))
          (prefix ++ str_int (randint lo hi raw)) = true.
Proof.
  intros Hr Hlo Hhi.
  pose proof (randint_range lo hi raw ltac:(lia)) as Hin.
  rewrite matches_lit_app, str_int_nonneg by lia.
  apply matches_digits; [|apply str_N_digits].
  apply str_N_length. lia.
Qed.

(** ** The record generator *)

Lemma str_eqb_refl (s : pystr) : str_eqb s s = true.
Proof. induction s as [|c s IH]; simpl; [reflexivity|]. rewrite N.eqb_refl. exact IH. Qed.

Lemma str_eqb_eq (a : pystr) : forall b, str_eqb a b = true <-> a = b.
Proof.
  induction a as [|x a IH]; intros [|y b]; simpl; split; intros H;
    try reflexivity; try discriminate.
  - apply andb_prop in H. destruct H as [Hx Ha].
    apply N.eqb_eq in Hx. apply IH in Ha. congruence.
  - injection H as -> ->. rewrite N.eqb_refl. apply IH. reflexivity.
Qed.

Lemma one_of_In (names : list string) (s : pystr) :
  In s (map lit names) -> one_of names s = true.
Proof.
  intros H. apply existsb_exists. exists s. split; [assumption | apply str_eqb_refl].
Qed.

Section Generator.
Context {F : FloatOps}.

(** What [generate_transaction] returns, with the six choices named. *)
Lemma generate_transaction_Some (d : draws) :
  exists r, generate_transaction d = Some r.
Proof.
  unfold generate_transaction.
  destruct (choice_In transaction_types (d_transaction_type d)) as (x1 & -> & _);
    [discriminate|].
  destruct (choice_In categories (d_category d)) as (x2 & -> & _); [discriminate|].
  destruct (choice_In currencies (d_currency d)) as (x3 & -> & _); [discriminate|].
  destruct (choice_In statuses (d_status d)) as (x4 & -> & _); [discriminate|].
  destruct (choice_In payment_methods (d_payment_method d)) as (x5 & -> & _);
    [discriminate|].
  destruct (choice_In device_types (d_device_type d)) as (x6 & -> & _); [discriminate|].
  eexists. reflexivity.
Qed.

Ltac field_present := eexists; split; [reflexivity | discriminate].
Ltac field_is := eexists; split; [reflexivity|].

(** C1. Every record the generator returns has all the fields of the
    data-model table, none of them [None]; the six enumerated fields
    take one of their listed values, and [customer_id], [merchant_id]
    and [metadata.campaign_id] are their prefix followed by exactly 5,
    4 and 3 digits. The generator returns a record on every draw. *)
Theorem generate_transaction_well_formed (d : draws) :
  exists r, generate_transaction d = Some r /\ well_formed_record r.
Proof.
  unfold generate_transaction.
  destruct (choice_In transaction_types (d_transaction_type d)) as (x1 & -> & H1);
    [discriminate|].
  destruct (choice_In categories (d_category d)) as (x2 & -> & H2); [discriminate|].
  destruct (choice_In currencies (d_currency d)) as (x3 & -> & H3); [discriminate|].
  destruct (choice_In statuses (d_status d)) as (x4 & -> & H4); [discriminate|].
  destruct (choice_In payment_methods (d_payment_method d)) as (x5 & -> & H5);
    [discriminate|].
  destruct (choice_In device_types (d_device_type d)) as (x6 & -> & H6); [discriminate|].
  eexists. split; [reflexivity|].
  unfold well_formed_record.
  split; [repeat (constructor; [field_present|]); constructor|].
  split; [eexists; split; [reflexivity|];
          repeat (constructor; [field_present|]); constructor|].
  split.
  { eexists; split; [reflexivity|].
    split; [repeat (constructor; [field_present|]); constructor|].
    field_is. apply (prefixed_randint (lit "CAMP-") 2); [lia | discriminate | reflexivity]. }
  split; [field_is; apply one_of_In; exact H1|].
  split; [field_is; apply one_of_In; exact H2|].
  split; [field_is; apply one_of_In; exact H3|].
  split; [field_is; apply one_of_In; exact H4|].
  split; [field_is; apply one_of_In; exact H5|].
  split; [field_is; apply one_of_In; exact H6|].
  split; field_is.
  - apply (prefixed_randint (lit "CUST-") 4); [lia | discriminate | reflexivity].
  - apply (prefixed_randint (lit "MERCH-") 3); [lia | discriminate | reflexivity].
Qed.

End Generator.

(** ** The timestamp *)

Lemma pad0_shape (w : nat) (n : N) :
  n < 10 ^ N.of_nat (S w) ->
  length (pad0 (S w) n) = S w /\ Forall (fun c => is_digit c = true) (pad0 (S w) n).
Proof.
  intros H. unfold pad0, zfill.
  pose proof (str_N_length_le w n H) as Hle.
  split.
  - rewrite length_app, repeat_length. lia.
  - apply Forall_app. split; [|apply str_N_digits].
    apply Forall_forall. intros c Hc. apply repeat_spec in Hc. subst c. reflexivity.
Qed.

Lemma matches_pad0_app (w : nat) (n : N) (p : list pat) (s : pystr) :
  n < 10 ^ N.of_nat (S w) ->
  matches (pdigits (S w) ++ p) (pad0 (S w) n ++ s) = matches p s.
Proof.
  intros H. destruct (pad0_shape w n H) as [Hlen Hd].
  apply matches_digits_app; assumption.
Qed.

Section Timestamp.
Context {F : FloatOps}.

Lemma generate_transaction_timestamp (d : draws) :
  exists r, generate_transaction d = Some r
    /\ getitem r (lit "timestamp") = Some (PStr (isoformat (d_now d) ++ lit "Z")).
Proof.
  destruct (generate_transaction_Some d) as [r Hr]. exists r. split; [exact Hr|].
  unfold generate_transaction in Hr.
  repeat match type of Hr with
         | match ?c with _ => _ end = _ => destruct c; [|discriminate]
         end.
  injection Hr as <-. reflexivity.
Qed.

Lemma isoformat_shape (t : datetime) :
  valid_datetime t ->
  matches (iso_utc (if microsecond t =? 0 then 0 else 6)) (isoformat t ++ lit "Z") = true.
Proof.
  intros (Hy & Hmo & Hd & Hh & Hmi & Hs & Hus).
  unfold iso_utc, isoformat, format_time, plit.
  repeat rewrite <- app_assoc.
  rewrite (matches_pad0_app 3) by (simpl; lia).
  rewrite matches_lit_app.
  rewrite (matches_pad0_app 1) by (simpl; lia).
  rewrite matches_lit_app.
  rewrite (matches_pad0_app 1) by (simpl; lia).
  rewrite matches_lit_app.
  rewrite (matches_pad0_app 1) by (simpl; lia).
  rewrite matches_lit_app.
  rewrite (matches_pad0_app 1) by (simpl; lia).
  rewrite matches_lit_app.
  rewrite (matches_pad0_app 1) by (simpl; lia).
  destruct (microsecond t =? 0).
  - apply matches_lit.
  - repeat rewrite <- app_assoc.
    rewrite matches_lit_app.
    rewrite (matches_pad0_app 5) by (simpl; lia).
    apply matches_lit.
Qed.

(** C9, amended. The timestamp of every generated record is the
    ISO-8601 rendering of the UTC generation time followed by [Z], with
    second precision when the microseconds of the clock reading are zero
    and with six fractional digits (microsecond precision) otherwise. *)
Theorem timestamp_iso_utc_microseconds (d : draws) :
  valid_datetime (d_now d) ->
  exists r ts, generate_transaction d = Some r
    /\ getitem r (lit "timestamp") = Some (PStr ts)
    /\ ts = isoformat (d_now d) ++ lit "Z"
    /\ matches (iso_utc (if microsecond (d_now d) =? 0 then 0 else 6)) ts = true.
Proof.
  intros Hv. destruct (generate_transaction_timestamp d) as (r & Hr & Hts).
  exists r, (isoformat (d_now d) ++ lit "Z").
  repeat split; try assumption. apply isoformat_shape. exact Hv.
Qed.

End Timestamp.

Lemma sample_time_valid : valid_datetime sample_time.
Proof. unfold valid_datetime, sample_time; simpl. lia. Qed.

Lemma timestamp_iso_utc_microseconds_witness :
  valid_datetime (d_now sample_draws)
  /\ exists r ts, generate_transaction sample_draws = Some r
       /\ getitem r (lit "timestamp") = Some (PStr ts)
       /\ ts = isoformat (d_now sample_draws) ++ lit "Z"
       /\ matches (iso_utc (if microsecond (d_now sample_draws) =? 0 then 0 else 6)) ts
          = true.
Proof.
  split; [exact sample_time_valid|].
  apply (timestamp_iso_utc_microseconds sample_draws). exact sample_time_valid.
Defined.

(** C9 as stated fails: at a clock reading with 123456 microseconds the
    timestamp is [2024-03-07T09:05:00.123456Z], which has neither second
    nor millisecond precision. *)
Lemma timestamp_not_milliseconds : ~ timestamp_precision 3 sample_draws.
Proof.
  intros H. destruct (H sample_time_valid) as (r & ts & Hr & Hts & Heq & Hm).
  subst ts. vm_compute in Hm. destruct Hm; discriminate.
Qed.

(** ** Running the monad *)

Section Keeps.
(** A relation between the state before and after, kept by every step
    of a computation. *)
Variable R : state -> state -> Prop.
Hypothesis R_refl : forall s, R s s.
Hypothesis R_trans : forall s1 s2 s3, R s1 s2 -> R s2 s3 -> R s1 s3.

Local Abbreviation keeps := (keeps R).

Lemma keeps_ret {A} (a : A) : keeps (ret a).
Proof. intros s. apply R_refl. Qed.

Lemma keeps_raise {A} (e : exn) : keeps (@raise A e).
Proof. intros s. apply R_refl. Qed.

Lemma keeps_running {A} : keeps (@running A).
Proof. intros s. apply R_refl. Qed.

Lemma keeps_bind {A B} (m : M A) (k : A -> M B) :
  keeps m -> (forall a, keeps (k a)) -> keeps (bind m k).
Proof.
  intros Hm Hk s. unfold bind. specialize (Hm s).
  destruct (m s) as [[a|e|] s']; simpl in *; try assumption.
  eapply R_trans; [exact Hm | apply Hk].
Qed.

Lemma keeps_try_except {A} (body : M A) (handler : exn -> option (M A)) :
  keeps body -> (forall e h, handler e = Some h -> keeps h) ->
  keeps (try_except body handler).
Proof.
  intros Hb Hh s. unfold try_except. specialize (Hb s).
  destruct (body s) as [[a|e|] s']; simpl in *; try assumption.
  destruct (handler e) as [h|] eqn:E; simpl; [|assumption].
  eapply R_trans; [exact Hb | eapply Hh; eassumption].
Qed.

Lemma keeps_try_finally {A} (body : M A) (fin : M unit) :
  keeps body -> keeps fin -> keeps (try_finally body fin).
Proof.
  intros Hb Hf s. unfold try_finally. specialize (Hb s).
  destruct (body s) as [[a|e|] s']; simpl in *; try assumption;
    specialize (Hf s'); destruct (fin s') as [[[]|e'|] s'']; simpl in *;
    eapply R_trans; eassumption.
Qed.

Lemma keeps_get_message_count : keeps get_message_count.
Proof. intros s. apply R_refl. Qed.

Lemma keeps_extern (c : call) (f : fate) :
  keeps (emit (Called c f)) -> keeps (extern c f).
Proof.
  intros H. unfold extern. apply keeps_bind; [exact H|].
  intros _. destruct f; [apply keeps_ret | apply keeps_raise].
Qed.

End Keeps.

(** The outcome of [bind]. *)
Lemma bind_run {A B} (m : M A) (k : A -> M B) (s : state) :
  bind m k s = match m s with
               | (Returns a, s') => k a s'
               | (Raised e, s') => (Raised e, s')
               | (Running, s') => (Running, s')
               end.
Proof. reflexivity. Qed.

Lemma emit_run (ev : event) (s : state) :
  emit ev s = (Returns tt, {| message_count := message_count s;
                              next_obj := next_obj s;
                              trace := trace s ++ [ev] |}).
Proof. reflexivity. Qed.

(** ** Counting on traces *)

Lemma successful_publishes_app (a b : list event) :
  successful_publishes (a ++ b) = (successful_publishes a + successful_publishes b)%nat.
Proof. unfold successful_publishes. rewrite filter_app, length_app. reflexivity. Qed.

Lemma disconnect_calls_app (a b : list event) :
  disconnect_calls (a ++ b) = (disconnect_calls a + disconnect_calls b)%nat.
Proof. unfold disconnect_calls. rewrite filter_app, length_app. reflexivity. Qed.

Lemma connect_calls_app (a b : list event) :
  connect_calls (a ++ b) = (connect_calls a + connect_calls b)%nat.
Proof. unfold connect_calls. rewrite filter_app, length_app. reflexivity. Qed.

Lemma created_objs_app (a b : list event) :
  created_objs (a ++ b) = created_objs a ++ created_objs b.
Proof. unfold created_objs. apply flat_map_app. Qed.

Lemma loop_event_no_disconnect (evs : list event) :
  forallb loop_event evs = true -> disconnect_calls evs = 0%nat.
Proof.
  induction evs as [|ev evs IH]; simpl; intros H; [reflexivity|].
  apply andb_prop in H. destruct H as [Hev Hevs].
  unfold disconnect_calls in *. simpl.
  unfold loop_event in Hev.
  destruct (is_disconnect ev); [rewrite andb_false_r in Hev; discriminate|].
  apply IH. assumption.
Qed.

Lemma loop_event_no_connect (evs : list event) :
  forallb loop_event evs = true -> connect_calls evs = 0%nat.
Proof.
  induction evs as [|ev evs IH]; simpl; intros H; [reflexivity|].
  apply andb_prop in H. destruct H as [Hev Hevs].
  unfold connect_calls in *. simpl.
  unfold loop_event in Hev.
  destruct (is_connect ev); [discriminate|].
  apply IH. assumption.
Qed.

Lemma loop_event_no_summary (evs : list event) :
  forallb loop_event evs = true -> filter is_summary evs = [].
Proof.
  induction evs as [|ev evs IH]; simpl; intros H; [reflexivity|].
  apply andb_prop in H. destruct H as [Hev Hevs].
  unfold loop_event in Hev.
  destruct (is_summary ev); [rewrite andb_false_r in Hev; discriminate|].
  apply IH. assumption.
Qed.

(** ** [send_message] *)

Section Publish.
Context {F : FloatOps}.
Variable cfg : config.
Variable W : oracle.

Lemma send_message_run (i : nat) (queue_name : pystr) (message_data : pyval)
  (s : state) :
  send_message W i queue_name message_data s =
  (send_outcome W i message_data,
   {| message_count := message_count s;
      next_obj := S (next_obj s);
      trace := trace s ++ send_events W i (next_obj s) queue_name message_data |}).
Proof.
  unfold send_message, send_outcome, send_events, encode_utf8.
  unfold bind, fresh_obj, extern, bind, emit, ret, raise. simpl.
  destruct (on_Queue W i); simpl; [|reflexivity].
  destruct (str_encode_utf8 (json_dumps 2 message_data)); simpl; [|reflexivity].
  destruct (on_put W i); simpl; [|rewrite <- app_assoc; reflexivity].
  destruct (on_close W i); simpl; rewrite <- !app_assoc; reflexivity.
Qed.

(** [send_message] returns exactly when its [close] has succeeded. *)
Lemma send_events_publishes (i obj : nat) (queue_name : pystr) (message_data : pyval) :
  successful_publishes (send_events W i obj queue_name message_data)
  = if is_returns (send_outcome W i message_data) then 1%nat else 0%nat.
Proof.
  unfold send_events, send_outcome, successful_publishes.
  destruct (on_Queue W i); simpl; [|reflexivity].
  destruct (str_encode_utf8 (json_dumps 2 message_data)); simpl; [|reflexivity].
  destruct (on_put W i); simpl; [|reflexivity].
  destruct (on_close W i); reflexivity.
Qed.

Lemma send_events_loop (i obj : nat) (queue_name : pystr) (message_data : pyval) :
  forallb loop_event (send_events W i obj queue_name message_data) = true.
Proof.
  unfold send_events.
  destruct (on_Queue W i); simpl; [|reflexivity].
  destruct (str_encode_utf8 (json_dumps 2 message_data)); simpl; [|reflexivity].
  destruct (on_put W i); reflexivity.
Qed.

Lemma send_events_created (i obj : nat) (queue_name : pystr) (message_data : pyval) :
  created_objs (send_events W i obj queue_name message_data) = [obj].
Proof.
  unfold send_events.
  destruct (on_Queue W i); simpl; [|reflexivity].
  destruct (str_encode_utf8 (json_dumps 2 message_data)); simpl; [|reflexivity].
  destruct (on_put W i); reflexivity.
Qed.

(** ** The loop *)

Lemma loop_step_refl (s : state) : loop_step s s.
Proof.
  exists []. rewrite app_nil_r, Nat.sub_diag.
  repeat split; try reflexivity. unfold successful_publishes. simpl. lia.
Qed.

Lemma loop_step_trans (s1 s2 s3 : state) :
  loop_step s1 s2 -> loop_step s2 s3 -> loop_step s1 s3.
Proof.
  intros (e1 & Ht1 & Hc1 & Hl1 & Ho1 & Hn1) (e2 & Ht2 & Hc2 & Hl2 & Ho2 & Hn2).
  exists (e1 ++ e2). repeat split.
  - rewrite Ht2, Ht1, app_assoc. reflexivity.
  - rewrite Hc2, Hc1, successful_publishes_app. lia.
  - rewrite forallb_app, Hl1, Hl2. reflexivity.
  - rewrite created_objs_app, Ho1, Ho2.
    replace (next_obj s3 - next_obj s1)%nat
      with ((next_obj s2 - next_obj s1) + (next_obj s3 - next_obj s2))%nat by lia.
    rewrite seq_app. f_equal. f_equal. lia.
  - lia.
Qed.

(** A step that appends one event which is not a [pymqi.Queue] call
    nor a completed close. *)
Lemma loop_step_emit (ev : event) (s : state) :
  loop_event ev = true -> is_close_ok ev = false -> created_objs [ev] = [] ->
  loop_step s (snd (emit ev s)).
Proof.
  intros Hl Hc Ho. exists [ev]. simpl. rewrite Nat.sub_diag.
  repeat split; try lia.
  - unfold successful_publishes. simpl. rewrite Hc. simpl. lia.
  - rewrite Hl. reflexivity.
  - exact Ho.
Qed.

Lemma keeps_print (line : pystr) :
  is_summary (Printed line) = false -> keeps loop_step (print line).
Proof.
  intros H s. apply loop_step_emit; try reflexivity.
  unfold loop_event. rewrite H. reflexivity.
Qed.

Lemma keeps_sleep (secs : Z) (f : fate) :
  keeps loop_step (extern (time_sleep secs) f).
Proof.
  apply keeps_extern; [apply loop_step_refl | apply loop_step_trans|].
  intros s. apply loop_step_emit; reflexivity.
Qed.

Lemma keeps_field (transaction : pyval) (key : string) :
  keeps loop_step (field transaction key).
Proof.
  unfold field. intros s.
  destruct (getitem transaction (lit key)) as [v|]; [|apply loop_step_refl].
  destruct (py_str v); apply loop_step_refl.
Qed.

Ltac keeps_seq :=
  repeat first
    [ apply keeps_bind; [apply loop_step_trans | | intros ?]
    | apply keeps_field
    | apply keeps_get_message_count; apply loop_step_refl
    | apply keeps_print; reflexivity ].

Lemma keeps_report_sent (transaction : pyval) :
  keeps loop_step (report_sent transaction).
Proof. unfold report_sent. keeps_seq. Qed.

End Publish.

Section Loop.
Context {F : FloatOps}.
Variable cfg : config.
Variable W : oracle.

Lemma tame_ret {A} (a : A) : tame (ret a).
Proof. intros s. exact I. Qed.

Lemma tame_bind {A B} (m : M A) (k : A -> M B) :
  tame m -> (forall a, tame (k a)) -> tame (bind m k).
Proof.
  intros Hm Hk s. rewrite bind_run. specialize (Hm s).
  destruct (m s) as [[a|e|] s']; simpl in *; try assumption. apply Hk.
Qed.

Lemma tame_field (transaction : pyval) (key : string) : tame (field transaction key).
Proof.
  intros s. unfold field.
  destruct (getitem transaction (lit key)) as [v|]; [|reflexivity].
  destruct (py_str v); simpl; auto.
Qed.

Lemma tame_report_sent (transaction : pyval) : tame (report_sent transaction).
Proof.
  unfold report_sent.
  repeat first [ apply tame_bind; [|intros ?] | apply tame_field ];
    intros s; exact I.
Qed.

Lemma send_outcome_not_running (i : nat) (t : pyval) : send_outcome W i t <> Running.
Proof.
  unfold send_outcome.
  destruct (on_Queue W i); [|discriminate].
  destruct (str_encode_utf8 (json_dumps 2 t)); [|discriminate].
  destruct (on_put W i); [|discriminate].
  destruct (on_close W i); discriminate.
Qed.

(** The inner [try]: how it ends. *)
Lemma try_send_outcome (i : nat) (t : pyval) (s : state) :
  fst (try_send cfg W i t s) =
  match send_outcome W i t with
  | Raised e => if is_Exception e then Returns tt else Raised e
  | _ => Returns tt
  end.
Proof.
  unfold try_send, try_except. rewrite bind_run, send_message_run.
  pose proof (send_outcome_not_running i t) as Hnr.
  destruct (send_outcome W i t) as [j|e|]; [| |contradiction].
  - rewrite bind_run. unfold get_message_count. rewrite bind_run.
    unfold set_message_count.
    match goal with |- context [report_sent t ?s2] =>
      pose proof (tame_report_sent t s2) as Ht;
      destruct (report_sent t s2) as [[[]|e|] s3]
    end; simpl in *; try reflexivity; try contradiction.
    rewrite Ht. reflexivity.
  - destruct (is_Exception e); reflexivity.
Qed.

(** The inner [try]: what it does to the state. The count grows by one
    exactly when [send_message] has returned. *)
Lemma try_send_step (i : nat) (t : pyval) : keeps loop_step (try_send cfg W i t).
Proof.
  intros s. unfold try_send, try_except. rewrite bind_run, send_message_run.
  pose proof (send_events_publishes W i (next_obj s) (MQ_QUEUE cfg) t) as Hp.
  assert (Hsend : forall c',
    c' = (message_count s + successful_publishes
            (send_events W i (next_obj s) (MQ_QUEUE cfg) t))%nat ->
    loop_step s {| message_count := c'; next_obj := S (next_obj s);
                   trace := trace s ++ send_events W i (next_obj s) (MQ_QUEUE cfg) t |}).
  { intros c' ->. eexists. cbn [trace message_count next_obj].
    repeat split; try reflexivity.
    - apply send_events_loop.
    - rewrite send_events_created.
      replace (S (next_obj s) - next_obj s)%nat with 1%nat by lia. reflexivity.
    - lia. }
  destruct (send_outcome W i t) as [j|e|]; simpl in Hp.
  - rewrite bind_run. unfold get_message_count. rewrite bind_run.
    unfold set_message_count. cbn [message_count next_obj trace].
    match goal with |- context [report_sent t ?s2] =>
      pose proof (keeps_report_sent t s2) as Hk;
      pose proof (Hsend (message_count s + 1)%nat ltac:(lia)) as H2;
      destruct (report_sent t s2) as [[[]|e|] s3]
    end; simpl in *; try (eapply loop_step_trans; eassumption).
    destruct (is_Exception e); simpl; [|eapply loop_step_trans; eassumption].
    eapply loop_step_trans; [eassumption|].
    eapply loop_step_trans; [eassumption|].
    exact (keeps_print (send_failed_line e) eq_refl _).
  - pose proof (Hsend (message_count s) ltac:(lia)) as H2.
    destruct (is_Exception e); [|exact H2].
    eapply loop_step_trans; [exact H2|].
    exact (keeps_print (send_failed_line e) eq_refl _).
  - apply Hsend. lia.
Qed.

Lemma call_generate_transaction_run (i : nat) (s : state) :
  call_generate_transaction W i s =
  (match on_generate W i with
   | Raises e => Raised e
   | Succeeds =>
       match generate_transaction (draw W i) with
       | Some t => Returns t
       | None => Raised (Exception_ (lit "IndexError"))
       end
   end, s).
Proof.
  unfold call_generate_transaction.
  destruct (on_generate W i); [|reflexivity].
  destruct (generate_transaction (draw W i)); reflexivity.
Qed.

Lemma loop_body_step (i : nat) : keeps loop_step (loop_body cfg W i).
Proof.
  unfold loop_body.
  apply keeps_bind; [apply loop_step_trans | |intros t].
  - intros s. rewrite call_generate_transaction_run. apply loop_step_refl.
  - apply keeps_bind; [apply loop_step_trans | apply try_send_step |intros _].
    apply keeps_sleep.
Qed.

Lemma extern_outcome (c : call) (f : fate) (s : state) :
  fst (extern c f s) = match f with Succeeds => Returns tt | Raises e => Raised e end.
Proof. unfold extern. rewrite bind_run, emit_run. destruct f; reflexivity. Qed.

Lemma loop_body_outcome (i : nat) (s : state) :
  fst (loop_body cfg W i s) =
  match iteration_exit W i with
  | Some e => Raised e
  | None => Returns tt
  end.
Proof.
  unfold loop_body, iteration_exit, sleep_exit.
  rewrite bind_run, call_generate_transaction_run.
  destruct (on_generate W i); [|reflexivity].
  destruct (generate_transaction (draw W i)) as [t|]; [|reflexivity].
  rewrite bind_run.
  pose proof (try_send_outcome i t s) as Hts.
  destruct (try_send cfg W i t s) as [r s1]. simpl in Hts. subst r.
  destruct (send_outcome W i t) as [j|e|].
  - rewrite extern_outcome. destruct (on_sleep W i); reflexivity.
  - destruct (is_Exception e); [|reflexivity].
    rewrite extern_outcome. destruct (on_sleep W i); reflexivity.
  - rewrite extern_outcome. destruct (on_sleep W i); reflexivity.
Qed.

Lemma while_true_step (fuel : nat) : forall i, keeps loop_step (while_true cfg W fuel i).
Proof.
  induction fuel as [|fuel IH]; intros i; simpl.
  - intros s. apply loop_step_refl.
  - apply keeps_bind; [apply loop_step_trans | apply loop_body_step | intros _; apply IH].
Qed.

(** [while True] does not return. *)
Lemma while_true_no_return (fuel : nat) : forall i s,
  fst (while_true cfg W fuel i s) <> Returns tt.
Proof.
  induction fuel as [|fuel IH]; intros i s; simpl; [discriminate|].
  rewrite bind_run.
  destruct (loop_body cfg W i s) as [[[]|e|] s1]; simpl; try discriminate.
  apply IH.
Qed.

(** It is still running as long as no iteration lets an exception out. *)
Lemma while_true_running (fuel : nat) : forall i s,
  (forall j, (i <= j < i + fuel)%nat -> iteration_exit W j = None) ->
  fst (while_true cfg W fuel i s) = Running.
Proof.
  induction fuel as [|fuel IH]; intros i s H; simpl; [reflexivity|].
  rewrite bind_run.
  pose proof (loop_body_outcome i s) as Hb.
  rewrite (H i) in Hb by lia.
  destruct (loop_body cfg W i s) as [r s1]. simpl in Hb. subst r.
  apply IH. intros j Hj. apply H. lia.
Qed.

(** It ends with the first exception that an iteration lets out. *)
Lemma while_true_exit (k : nat) : forall fuel i s e,
  (forall j, (i <= j < i + k)%nat -> iteration_exit W j = None) ->
  iteration_exit W (i + k) = Some e ->
  (k < fuel)%nat ->
  fst (while_true cfg W fuel i s) = Raised e.
Proof.
  induction k as [|k IH]; intros fuel i s e Hbefore Hexit Hfuel;
    (destruct fuel as [|fuel]; [lia|]); simpl; rewrite bind_run;
    pose proof (loop_body_outcome i s) as Hb.
  - rewrite Nat.add_0_r in Hexit. rewrite Hexit in Hb.
    destruct (loop_body cfg W i s) as [r s1]. simpl in Hb. subst r. reflexivity.
  - rewrite (Hbefore i) in Hb by lia.
    destruct (loop_body cfg W i s) as [r s1]. simpl in Hb. subst r.
    apply IH; [| |lia].
    + intros j Hj. apply Hbefore. lia.
    + replace (S i + k)%nat with (i + S k)%nat by lia. exact Hexit.
Qed.

(** How the loop ends is read off the oracle. *)
Lemma while_true_outcome (fuel : nat) : forall i s,
  fst (while_true cfg W fuel i s) = loop_outcome W fuel i.
Proof.
  induction fuel as [|fuel IH]; intros i s; cbn [while_true loop_outcome];
    [reflexivity|].
  rewrite bind_run. pose proof (loop_body_outcome i s) as Hb.
  destruct (loop_body cfg W i s) as [r s1]. cbn [fst] in Hb. subst r.
  destruct (iteration_exit W i); [reflexivity | apply IH].
Qed.

End Loop.

(** ** [main] *)

Section Main.
Context {F : FloatOps}.
Variable cfg : config.
Variable W : oracle.

(** The [finally] clause: one disconnect attempt, the summary if it
    succeeded, and a normal end in either case. *)
Lemma shutdown_run (s : state) :
  shutdown W s =
  (Returns tt,
   {| message_count := message_count s;
      next_obj := next_obj s;
      trace := trace s ++ shutdown_events W (message_count s) |}).
Proof.
  unfold shutdown, try_except, shutdown_events, extern.
  rewrite !bind_run, emit_run.
  destruct (on_disconnect W); [|reflexivity].
  unfold ret. rewrite bind_run. unfold get_message_count, print.
  rewrite emit_run. cbn [message_count next_obj trace].
  rewrite <- app_assoc. reflexivity.
Qed.

(** The guarded loop, in terms of how [while True] ends. *)
Lemma producer_run (fuel : nat) (s0 : state) :
  producer cfg W fuel s0 =
  let start := {| message_count := 0; next_obj := next_obj s0; trace := trace s0 |} in
  let sL := snd (while_true cfg W fuel 0 start) in
  match fst (while_true cfg W fuel 0 start) with
  | Running => (Running, sL)
  | Raised e =>
      (exit_outcome e,
       {| message_count := message_count sL;
          next_obj := next_obj sL;
          trace := trace sL ++ handler_events e ++ shutdown_events W (message_count sL) |})
  | Returns _ =>
      (Returns tt,
       {| message_count := message_count sL;
          next_obj := next_obj sL;
          trace := trace sL ++ shutdown_events W (message_count sL) |})
  end.
Proof.
  unfold producer, try_finally, try_except. rewrite bind_run.
  unfold set_message_count. cbv zeta.
  destruct (while_true cfg W fuel 0 _) as [[[]|e|] sL]; cbn [fst snd].
  - rewrite shutdown_run. reflexivity.
  - destruct e; unfold handler_events, exit_outcome.
    + unfold print. rewrite emit_run, shutdown_run.
      cbn [message_count next_obj trace]. rewrite <- app_assoc. reflexivity.
    + unfold print. rewrite emit_run, shutdown_run.
      cbn [message_count next_obj trace]. rewrite <- app_assoc. reflexivity.
    + rewrite shutdown_run. reflexivity.
  - reflexivity.
Qed.

Lemma main_connected (fuel : nat) :
  on_connect W = Succeeds ->
  exists s0, main cfg W fuel initial_state = producer cfg W fuel s0 /\ at_start s0.
Proof.
  intros H.
  unfold main, banner, connect_to_mq, try_except, extern, print. rewrite H.
  cbv [bind emit ret initial_state message_count next_obj trace].
  eexists. split; [reflexivity|].
  repeat split; reflexivity.
Qed.

Lemma main_unconnected (fuel : nat) (e : exn) :
  on_connect W = Raises e ->
  exists s, main cfg W fuel initial_state
            = (if is_Exception e then Returns tt else Raised e, s)
    /\ message_count s = 0%nat
    /\ successful_publishes (trace s) = 0%nat
    /\ filter is_call (trace s)
       = [Called (pymqi_connect (MQ_QUEUE_MANAGER cfg) (MQ_CHANNEL cfg)
                    (MQ_HOST cfg ++ lit "(" ++ MQ_PORT cfg ++ lit ")")
                    (MQ_USER cfg) (MQ_PASSWORD cfg)) (Raises e)]
    /\ (is_Exception e = true ->
        last (trace s) (Printed []) = Printed (connect_failed_line e))
    /\ filter is_summary (trace s) = []
    /\ created_objs (trace s) = [].
Proof.
  intros H.
  unfold main, banner, connect_to_mq, try_except, extern, print. rewrite H.
  destruct e; cbv [bind emit ret raise is_Exception initial_state
                     message_count next_obj trace];
    (eexists; split; [reflexivity|]);
    repeat split; first [ reflexivity | congruence ].
Qed.

End Main.

(** ** What one publish attempt does, exactly *)

Section Attempt.
Context {F : FloatOps}.
Variable cfg : config.
Variable W : oracle.

Lemma prints_only_refl (s : state) : prints_only s s.
Proof. repeat split. exists []. simpl. rewrite app_nil_r. reflexivity. Qed.

Lemma prints_only_trans (s1 s2 s3 : state) :
  prints_only s1 s2 -> prints_only s2 s3 -> prints_only s1 s3.
Proof.
  intros (Hc1 & Hn1 & l1 & Ht1) (Hc2 & Hn2 & l2 & Ht2).
  repeat split; try congruence.
  exists (l1 ++ l2). rewrite Ht2, Ht1, map_app, app_assoc. reflexivity.
Qed.

Lemma prints_only_print (line : pystr) : keeps prints_only (print line).
Proof. intros s. repeat split. exists [line]. reflexivity. Qed.

Lemma prints_only_field (t : pyval) (key : string) : keeps prints_only (field t key).
Proof.
  intros s. unfold field.
  destruct (getitem t (lit key)) as [v|]; [|apply prints_only_refl].
  destruct (py_str v); apply prints_only_refl.
Qed.

Lemma prints_only_report_sent (t : pyval) : keeps prints_only (report_sent t).
Proof.
  unfold report_sent.
  repeat first
    [ apply keeps_bind; [apply prints_only_trans | | intros ?]
    | apply prints_only_field
    | apply keeps_get_message_count; apply prints_only_refl
    | apply prints_only_print ].
Qed.

(** The inner [try] appends the calls of [send_message] and then only
    prints; the count grows by one exactly when [send_message] returned;
    an [Exception] from [send_message] is printed, and nothing else is. *)
Lemma try_send_effect (i : nat) (t : pyval) (s : state) :
  exists lines,
    snd (try_send cfg W i t s) =
    {| message_count :=
         (message_count s + if is_returns (send_outcome W i t) then 1 else 0)%nat;
       next_obj := S (next_obj s);
       trace := trace s ++ send_events W i (next_obj s) (MQ_QUEUE cfg) t
                ++ map Printed lines |}
    /\ (forall e, send_outcome W i t = Raised e -> is_Exception e = true ->
                  lines = [send_failed_line e]).
Proof.
  unfold try_send, try_except. rewrite bind_run, send_message_run.
  destruct (send_outcome W i t) as [j|e|]; cbn [is_returns].
  - rewrite bind_run. unfold get_message_count. rewrite bind_run.
    unfold set_message_count. cbn [message_count next_obj trace].
    match goal with |- context [report_sent t ?s2] =>
      pose proof (prints_only_report_sent t s2) as (Hc & Hn & lines & Ht);
      destruct (report_sent t s2) as [[[]|e|] [c3 n3 t3]]
    end; cbn [fst snd message_count next_obj trace] in *; subst.
    + exists lines. split; [|discriminate]. rewrite <- app_assoc. reflexivity.
    + destruct (is_Exception e).
      * exists (lines ++ [send_failed_line e]). split; [|discriminate].
        unfold print. rewrite emit_run. cbn [fst snd message_count next_obj trace].
        rewrite map_app, <- !app_assoc. reflexivity.
      * exists lines. split; [|discriminate]. rewrite <- app_assoc. reflexivity.
    + exists lines. split; [|discriminate]. rewrite <- app_assoc. reflexivity.
  - destruct (is_Exception e) eqn:He.
    + exists [send_failed_line e]. split.
      * unfold print. rewrite emit_run. cbn [fst snd message_count next_obj trace].
        rewrite Nat.add_0_r, <- app_assoc. reflexivity.
      * intros e' [= <-] _. reflexivity.
    + exists []. split.
      * cbn [fst snd map]. rewrite Nat.add_0_r, app_nil_r. reflexivity.
      * intros e' [= <-] He'. congruence.
  - exists []. split; [|discriminate].
    cbn [fst snd map]. rewrite Nat.add_0_r, app_nil_r. reflexivity.
Qed.

(** One undisturbed pass through the loop body. *)
Lemma loop_body_effect (i : nat) (s : state) :
  on_generate W i = Succeeds -> on_sleep W i = Succeeds ->
  mild (publish_outcome W i) ->
  exists evs,
    loop_body cfg W i s =
    (Returns tt,
     {| message_count :=
          (message_count s + if is_returns (publish_outcome W i) then 1 else 0)%nat;
        next_obj := S (next_obj s);
        trace := trace s ++ evs |})
    /\ successful_publishes evs = (if is_returns (publish_outcome W i) then 1 else 0)%nat
    /\ (forall e, publish_outcome W i = Raised e -> In (Printed (send_failed_line e)) evs).
Proof.
  intros Hg Hs Hm. unfold loop_body, publish_outcome in *.
  rewrite bind_run, call_generate_transaction_run, Hg.
  destruct (generate_transaction_Some (draw W i)) as [t Ht]. rewrite Ht in *.
  rewrite bind_run.
  pose proof (try_send_outcome cfg W i t s) as Ho.
  destruct (try_send_effect i t s) as (lines & Hst & Hl).
  destruct (try_send cfg W i t s) as [r s1]. cbn [fst snd] in *. subst r s1.
  assert (Hret : (match send_outcome W i t with
                  | Raised e => if is_Exception e then Returns tt else Raised e
                  | _ => Returns tt
                  end) = Returns tt).
  { destruct (send_outcome W i t) as [j|e|]; try reflexivity.
    simpl in Hm. rewrite Hm. reflexivity. }
  rewrite Hret. unfold extern. rewrite Hs, bind_run, emit_run.
  cbn [message_count next_obj trace].
  eexists. split; [unfold ret; rewrite <- !app_assoc; reflexivity|]. split.
  - rewrite !successful_publishes_app, send_events_publishes.
    assert (successful_publishes (map Printed lines) = 0%nat) as ->.
    { clear. induction lines; [reflexivity | assumption]. }
    change (successful_publishes [Called (time_sleep (MESSAGE_INTERVAL cfg)) Succeeds])
      with 0%nat.
    lia.
  - intros e He. rewrite (Hl e He) by (rewrite He in Hm; exact Hm).
    apply in_or_app. right. left. reflexivity.
Qed.

End Attempt.

(** ** Every run of [main] *)

Section Runs.
Context {F : FloatOps}.
Variable cfg : config.
Variable W : oracle.

Lemma shutdown_events_publishes (n : nat) :
  successful_publishes (shutdown_events W n) = 0%nat.
Proof. unfold shutdown_events. destruct (on_disconnect W); reflexivity. Qed.

Lemma shutdown_events_disconnects (n : nat) :
  disconnect_calls (shutdown_events W n) = 1%nat.
Proof. unfold shutdown_events. destruct (on_disconnect W); reflexivity. Qed.

Lemma shutdown_events_created (n : nat) : created_objs (shutdown_events W n) = [].
Proof. unfold shutdown_events. destruct (on_disconnect W); reflexivity. Qed.

Lemma shutdown_events_summary (n : nat) :
  filter is_summary (shutdown_events W n) =
  match on_disconnect W with
  | Succeeds => [Printed (summary_line n)]
  | Raises _ => []
  end.
Proof. unfold shutdown_events. destruct (on_disconnect W); reflexivity. Qed.

Lemma closing_events_publishes (r : outcome unit) (n : nat) :
  successful_publishes (closing_events W r n) = 0%nat.
Proof.
  destruct r as [[]|e|]; simpl; try apply shutdown_events_publishes; [|reflexivity].
  rewrite successful_publishes_app, shutdown_events_publishes. destruct e; reflexivity.
Qed.

Lemma closing_events_created (r : outcome unit) (n : nat) :
  created_objs (closing_events W r n) = [].
Proof.
  destruct r as [[]|e|]; simpl; try apply shutdown_events_created; [|reflexivity].
  rewrite created_objs_app, shutdown_events_created. destruct e; reflexivity.
Qed.

Lemma closing_events_disconnects (r : outcome unit) (n : nat) :
  disconnect_calls (closing_events W r n) = match r with Running => 0 | _ => 1 end%nat.
Proof.
  destruct r as [[]|e|]; simpl; try apply shutdown_events_disconnects; [|reflexivity].
  rewrite disconnect_calls_app, shutdown_events_disconnects. destruct e; reflexivity.
Qed.

Lemma closing_events_summary (r : outcome unit) (n : nat) :
  filter is_summary (closing_events W r n) =
  match r, on_disconnect W with
  | Running, _ | _, Raises _ => []
  | _, Succeeds => [Printed (summary_line n)]
  end.
Proof.
  destruct r as [[]|e|]; simpl; try apply shutdown_events_summary.
  - rewrite filter_app, shutdown_events_summary. destruct e; reflexivity.
  - destruct (on_disconnect W); reflexivity.
Qed.

(** The shape of every run that got connected: the start-up, a stretch
    of the loop, the closing events. *)
Lemma producer_shape (fuel : nat) (s0 : state) :
  at_start s0 ->
  exists r evs,
    let s := snd (producer cfg W fuel s0) in
    r <> Returns tt
    /\ fst (producer cfg W fuel s0)
       = match r with Running => Running | Raised e => exit_outcome e | _ => Returns tt end
    /\ r = fst (while_true cfg W fuel 0
                  {| message_count := 0; next_obj := next_obj s0; trace := trace s0 |})
    /\ trace s = trace s0 ++ evs ++ closing_events W r (message_count s)
    /\ message_count s = successful_publishes evs
    /\ forallb loop_event evs = true
    /\ created_objs evs = seq 0 (next_obj s).
Proof.
  intros (Hc & Hn & _).
  rewrite producer_run. cbv zeta.
  set (start := {| message_count := 0; next_obj := next_obj s0; trace := trace s0 |}).
  pose proof (while_true_step cfg W fuel 0 start) as (evs & Ht & Hcnt & Hl & Ho & Hle).
  pose proof (while_true_no_return cfg W fuel 0 start) as Hnr.
  exists (fst (while_true cfg W fuel 0 start)), evs.
  destruct (while_true cfg W fuel 0 start) as [r sL]. subst start.
  cbn [fst snd message_count next_obj trace] in *. rewrite Hn, Nat.sub_0_r in Ho.
  destruct r as [[]|e|]; cbn [fst snd message_count next_obj trace closing_events];
    (split; [assumption|]); (split; [reflexivity|]); (split; [reflexivity|]);
    rewrite Ht, <- ?app_assoc; repeat split; try assumption; try reflexivity.
  rewrite app_nil_r. reflexivity.
Qed.

(** How [main] ends is decided by the connect and by the loop. *)
Lemma main_outcome_run (fuel : nat) :
  fst (main cfg W fuel initial_state) = main_outcome W fuel.
Proof.
  unfold main_outcome. destruct (on_connect W) as [|e] eqn:Hc.
  - destruct (main_connected cfg W fuel Hc) as (s0 & -> & _).
    rewrite producer_run. cbv zeta. rewrite while_true_outcome.
    destruct (loop_outcome W fuel 0) as [[]|e|]; [reflexivity | | reflexivity].
    destruct e; reflexivity.
  - destruct (main_unconnected cfg W fuel e Hc) as (s & -> & _). reflexivity.
Qed.

End Runs.

(** ** Numerals in the log *)

Lemma decimal_value_app (l : pystr) (c : codepoint) : forall acc,
  decimal_value (l ++ [c]) acc =
  match decimal_value l acc with
  | Some v => if (48 <=? c) && (c <=? 57) then Some (10 * v + (c - 48)) else None
  | None => None
  end.
Proof.
  induction l as [|x l IH]; intros acc; cbn [app decimal_value].
  - destruct ((48 <=? c) && (c <=? 57)); reflexivity.
  - destruct ((48 <=? x) && (x <=? 57)); [apply IH | reflexivity].
Qed.

Lemma digit_char_decimal (d : N) :
  d < 10 -> (48 <=? digit_char d) && (digit_char d <=? 57) = true
            /\ digit_char d - 48 = d.
Proof.
  intros H. unfold digit_char. split; [|lia].
  apply andb_true_intro. split; apply N.leb_le; lia.
Qed.

(** What [str] prints for a number denotes the number. *)
Lemma decimal_value_str_N (n : N) : decimal_value (str_N n) 0 = Some n.
Proof.
  induction n as [n IH] using (well_founded_induction N.lt_wf_0).
  destruct (N.lt_ge_cases n 10) as [Hs|Hb].
  - rewrite str_N_small by assumption. cbn [decimal_value].
    destruct (digit_char_decimal n Hs) as [-> ->]. f_equal.
  - rewrite str_N_big, decimal_value_app, IH by (assumption || nlia).
    destruct (digit_char_decimal (n mod 10)) as [-> ->]; [nlia|].
    f_equal. nlia.
Qed.

Lemma str_N_no_leading_zero (n : N) : forall rest, str_N n = 48 :: rest -> rest = [].
Proof.
  induction n as [n IH] using (well_founded_induction N.lt_wf_0). intros rest H.
  destruct (N.lt_ge_cases n 10) as [Hs|Hb].
  - rewrite str_N_small in H by assumption. injection H as _ <-. reflexivity.
  - exfalso. rewrite str_N_big in H by assumption.
    pose proof (decimal_value_str_N (n / 10)) as Hv.
    destruct (str_N (n / 10)) as [|c tl] eqn:E.
    + cbn in Hv. injection Hv as Hv. nlia.
    + cbn [app] in H. injection H as -> _.
      rewrite (IH (n / 10) ltac:(nlia) tl E) in Hv.
      cbn in Hv. injection Hv as Hv. nlia.
Qed.

Lemma str_nat_decimal_numeral (n : nat) : decimal_numeral n (str_nat n).
Proof.
  unfold decimal_numeral, str_nat. split; [|split].
  - intros E. pose proof (decimal_value_str_N (N.of_nat n)) as Hv.
    rewrite E in Hv. cbn in Hv. injection Hv as Hv.
    pose proof (str_N_small (N.of_nat n) ltac:(lia)) as Hs.
    rewrite E in Hs. discriminate.
  - apply decimal_value_str_N.
  - apply str_N_no_leading_zero.
Qed.

(** ** The claims about [main] *)

Section Claims.
Context {F : FloatOps}.
Variable cfg : config.
Variable W : oracle.

(** C5. When [pymqi.connect] raises an [Exception] with message
    [msg], [main] prints the line "Failed to connect to MQ: " (after
    the cross mark) followed by [msg] and returns, whatever the
    iteration budget: that line is the last thing it does, the loop is
    not entered, the count is 0, nothing is published, and the one
    failed connect is the only external call of the run (no publish,
    no disconnect, no second connect). *)
Theorem connection_failure_aborts_startup (fuel : nat) (msg : pystr) :
  on_connect W = Raises (Exception_ msg) ->
  exists s,
    main cfg W fuel initial_state = (Returns tt, s)
    /\ message_count s = 0%nat
    /\ successful_publishes (trace s) = 0%nat
    /\ filter is_call (trace s)
       = [Called (pymqi_connect (MQ_QUEUE_MANAGER cfg) (MQ_CHANNEL cfg)
                    (MQ_HOST cfg ++ lit "(" ++ MQ_PORT cfg ++ lit ")")
                    (MQ_USER cfg) (MQ_PASSWORD cfg)) (Raises (Exception_ msg))]
    /\ last (trace s) (Printed [])
       = Printed ([0x274c] ++ lit " Failed to connect to MQ: " ++ msg).
Proof.
  intros H.
  destruct (main_unconnected cfg W fuel _ H) as (s & Hm & Hc & Hp & Hcalls & Hlast & _).
  exists s. split; [exact Hm|]. split; [exact Hc|]. split; [exact Hp|].
  split; [exact Hcalls | exact (Hlast eq_refl)].
Qed.

(** C6. The shutdown path ends normally whatever [qmgr.disconnect()]
    does, from any state (so also on a connection that is degraded or
    was closed before): it makes one disconnect attempt, prints the
    summary if the attempt succeeded, and lets no exception out. How
    [main] ends is decided by the connect and by the loop alone:
    [main_outcome] does not read what the disconnect does. *)
Theorem shutdown_lets_nothing_escape (s : state) (fuel : nat) :
  fst (shutdown W s) = Returns tt
  /\ trace (snd (shutdown W s)) = trace s ++ shutdown_events W (message_count s)
  /\ disconnect_calls (shutdown_events W (message_count s)) = 1%nat
  /\ fst (shutdown W (snd (shutdown W s))) = Returns tt
  /\ fst (main cfg W fuel initial_state) = main_outcome W fuel.
Proof.
  rewrite !shutdown_run. cbn [fst snd trace].
  repeat split; [apply shutdown_events_disconnects | apply main_outcome_run].
Qed.

(** C8, amended. Every call of [send_message] creates a queue object
    of its own for the target queue; if that succeeds it writes the
    payload to this object; if the write succeeds it closes this object
    before returning, and returns exactly when the close succeeds. A
    call whose open or write fails is left by the exception, with no
    close. No queue object is used by two calls: in every run of [main]
    the objects created are pairwise distinct. *)
Theorem send_message_opens_writes_closes :
  (forall i queue_name message_data s,
      send_message W i queue_name message_data s =
      (send_outcome W i message_data,
       {| message_count := message_count s;
          next_obj := S (next_obj s);
          trace := trace s ++ send_events W i (next_obj s) queue_name message_data |}))
  /\ (forall fuel, NoDup (created_objs (trace (snd (main cfg W fuel initial_state))))).
Proof.
  split; [intros; apply send_message_run|].
  intros fuel. destruct (on_connect W) as [|e] eqn:Hc.
  - destruct (main_connected cfg W fuel Hc) as (s0 & -> & Hs0).
    destruct (producer_shape cfg W fuel s0 Hs0)
      as (r & evs & _ & _ & _ & Ht & _ & _ & Ho).
    cbv zeta in *. rewrite Ht, !created_objs_app, closing_events_created, Ho.
    destruct Hs0 as (_ & _ & _ & _ & _ & _ & ->). rewrite app_nil_r. simpl.
    apply seq_NoDup.
  - destruct (main_unconnected cfg W fuel e Hc) as (s & Hm & _ & _ & _ & _ & _ & Hcr).
    rewrite Hm. cbn [snd]. rewrite Hcr. constructor.
Qed.

(** C10. In every run of [main], for every iteration budget, the
    counter equals the number of publish calls that have completed
    (their [close] has returned); the summary, if printed, is printed
    once, and it reads "Disconnected from MQ. Total messages sent: "
    (after a newline and the check mark) followed by the decimal
    numeral of this number; and every publish attempt, and any
    stretch of the loop, from any state, adds to the counter exactly
    the publishes that completed in it (one for a call of
    [send_message] that returned, none for one that raised). *)
Theorem message_count_counts_successful_publishes (fuel : nat) :
  let s := snd (main cfg W fuel initial_state) in
  message_count s = successful_publishes (trace s)
  /\ (filter is_summary (trace s) = []
      \/ exists digits,
           filter is_summary (trace s)
           = [Printed ([10; 0x2705]
                       ++ lit " Disconnected from MQ. Total messages sent: "
                       ++ digits)]
           /\ decimal_numeral (successful_publishes (trace s)) digits)
  /\ (forall i t s0, loop_step s0 (snd (try_send cfg W i t s0)))
  /\ (forall n i s0, loop_step s0 (snd (while_true cfg W n i s0))).
Proof.
  cbv zeta.
  split; [|split; [|split; [intros; apply try_send_step
                           |intros; apply while_true_step]]].
  - destruct (on_connect W) as [|e] eqn:Hc.
    + destruct (main_connected cfg W fuel Hc) as (s0 & -> & Hs0).
      destruct (producer_shape cfg W fuel s0 Hs0)
        as (r & evs & _ & _ & _ & Ht & Hcnt & _ & _).
      cbv zeta in *. rewrite Ht, !successful_publishes_app, closing_events_publishes.
      destruct Hs0 as (_ & _ & -> & _). lia.
    + destruct (main_unconnected cfg W fuel e Hc) as (s & Hm & Hcnt & Hp & _).
      rewrite Hm. cbn [snd]. rewrite Hcnt, Hp. reflexivity.
  - assert (Hsum : filter is_summary (trace (snd (main cfg W fuel initial_state))) = []
                   \/ filter is_summary (trace (snd (main cfg W fuel initial_state)))
                      = [Printed (summary_line
                                    (successful_publishes
                                       (trace (snd (main cfg W fuel initial_state)))))]).
    { destruct (on_connect W) as [|e] eqn:Hc.
      + destruct (main_connected cfg W fuel Hc) as (s0 & -> & Hs0).
        destruct (producer_shape cfg W fuel s0 Hs0)
          as (r & evs & _ & _ & _ & Ht & Hcnt & Hl & _).
        cbv zeta in *.
        assert (Hp : successful_publishes
                       (trace (snd (producer cfg W fuel s0)))
                     = message_count (snd (producer cfg W fuel s0))).
        { rewrite Ht at 1. rewrite !successful_publishes_app, closing_events_publishes.
          destruct Hs0 as (_ & _ & -> & _). lia. }
        rewrite Hp, Ht, !filter_app, closing_events_summary,
          (loop_event_no_summary evs Hl).
        destruct Hs0 as (_ & _ & _ & _ & _ & -> & _). simpl.
        destruct r as [[]|e|]; destruct (on_disconnect W); auto.
      + destruct (main_unconnected cfg W fuel e Hc)
          as (s & Hm & _ & _ & _ & _ & Hsum & _).
        rewrite Hm. cbn [snd]. left. exact Hsum. }
    destruct Hsum as [Hsum|Hsum]; [left; exact Hsum|].
    right. eexists. split; [exact Hsum | apply str_nat_decimal_numeral].
Qed.

(** C7. If the operator's interrupt surfaces in iteration [k] of the
    loop (in the generator, in a pymqi call or in the sleep) after the
    loop has run undisturbed until then, [main] prints the line
    "Producer stopped by user" (after two newlines and the warning
    sign), goes through the shutdown and returns: the disconnect is
    attempted exactly once, right after that line, and when it
    succeeds the run ends with the one summary line, "Disconnected
    from MQ. Total messages sent: " followed by the decimal numeral of
    the number of publishes that had completed before the stop, which
    is what the counter holds. When the disconnect fails nothing is
    printed after it. *)
Theorem interrupt_leads_to_shutdown (k fuel : nat) :
  on_connect W = Succeeds ->
  runs_until W k ->
  iteration_exit W k = Some KeyboardInterrupt ->
  (k < fuel)%nat ->
  exists s before digits,
    main cfg W fuel initial_state = (Returns tt, s)
    /\ disconnect_calls (trace s) = 1%nat
    /\ message_count s = successful_publishes (trace s)
    /\ successful_publishes before = successful_publishes (trace s)
    /\ decimal_numeral (successful_publishes before) digits
    /\ trace s
       = before
         ++ Printed ([10; 10; 0x26a0; 0xfe0f] ++ lit "  Producer stopped by user")
         :: Called qmgr_disconnect (on_disconnect W)
         :: match on_disconnect W with
            | Succeeds =>
                [Printed ([10; 0x2705]
                          ++ lit " Disconnected from MQ. Total messages sent: "
                          ++ digits)]
            | Raises _ => []
            end
    /\ filter is_summary (trace s)
       = match on_disconnect W with
         | Succeeds =>
             [Printed ([10; 0x2705]
                       ++ lit " Disconnected from MQ. Total messages sent: "
                       ++ digits)]
         | Raises _ => []
         end.
Proof.
  intros Hc Hrun Hexit Hfuel.
  destruct (main_connected cfg W fuel Hc) as (s0 & Hmain & Hs0).
  destruct (producer_shape cfg W fuel s0 Hs0)
    as (r & evs & _ & Hout & Hr & Ht & Hcnt & Hl & _).
  cbv zeta in *.
  rewrite (while_true_exit cfg W k fuel 0 _ KeyboardInterrupt) in Hr;
    [| intros j Hj; apply Hrun; lia | exact Hexit | exact Hfuel].
  subst r. cbn [closing_events handler_events exit_outcome] in *.
  destruct Hs0 as (_ & _ & Hp0 & Hd0 & _ & Hsum0 & _).
  assert (Hp : successful_publishes (trace (snd (producer cfg W fuel s0)))
               = message_count (snd (producer cfg W fuel s0))).
  { rewrite Ht at 1. rewrite !successful_publishes_app, shutdown_events_publishes, Hp0.
    unfold successful_publishes at 2. simpl. lia. }
  assert (Hb : successful_publishes (trace s0 ++ evs)
               = message_count (snd (producer cfg W fuel s0))).
  { rewrite successful_publishes_app, Hp0, Hcnt. reflexivity. }
  exists (snd (producer cfg W fuel s0)), (trace s0 ++ evs),
    (str_nat (message_count (snd (producer cfg W fuel s0)))).
  split; [rewrite Hmain, <- Hout; apply surjective_pairing|].
  split.
  { rewrite Ht, !disconnect_calls_app, shutdown_events_disconnects, Hd0,
      (loop_event_no_disconnect evs Hl). reflexivity. }
  split; [symmetry; exact Hp|].
  split; [rewrite Hb, Hp; reflexivity|].
  split; [rewrite Hb; apply str_nat_decimal_numeral|].
  split.
  - rewrite Ht at 1. rewrite <- app_assoc. unfold shutdown_events.
    destruct (on_disconnect W); reflexivity.
  - rewrite Ht at 1.
    rewrite !filter_app, shutdown_events_summary, Hsum0,
      (loop_event_no_summary evs Hl).
    destruct (on_disconnect W); reflexivity.
Qed.

(** C4. If the connection succeeds, the first publish raises an
    [Exception] with message [msg] and the second publish succeeds
    (the generator and the sleeps being undisturbed), then after the
    first pass the loop is still running with a count of 0 and the
    line "Failed to send message: " (after the cross mark) followed by
    [msg] printed, and after the second pass it is still running with
    a count of 1. *)
Theorem publish_failure_is_skipped (msg : pystr) :
  on_connect W = Succeeds ->
  on_generate W 0 = Succeeds -> on_sleep W 0 = Succeeds ->
  on_generate W 1 = Succeeds -> on_sleep W 1 = Succeeds ->
  publish_outcome W 0 = Raised (Exception_ msg) ->
  is_returns (publish_outcome W 1) = true ->
  exists s1 s2,
    main cfg W 1 initial_state = (Running, s1)
    /\ message_count s1 = 0%nat
    /\ In (Printed ([0x274c] ++ lit " Failed to send message: " ++ msg)) (trace s1)
    /\ main cfg W 2 initial_state = (Running, s2)
    /\ message_count s2 = 1%nat
    /\ successful_publishes (trace s2) = 1%nat
    /\ In (Printed ([0x274c] ++ lit " Failed to send message: " ++ msg)) (trace s2).
Proof.
  intros Hc Hg0 Hs0 Hg1 Hs1 Hp0 Hp1.
  destruct (main_connected cfg W 1 Hc) as (sa & Hma & Ha).
  destruct (main_connected cfg W 2 Hc) as (sb & Hmb & Hb).
  rewrite Hma, Hmb, !producer_run. cbv zeta. cbn [while_true].
  assert (Hm0 : mild (publish_outcome W 0)) by (rewrite Hp0; reflexivity).
  assert (Hm1 : mild (publish_outcome W 1))
    by (destruct (publish_outcome W 1); try discriminate; exact I).
  rewrite !bind_run.
  destruct (loop_body_effect cfg W 0
              {| message_count := 0; next_obj := next_obj sa; trace := trace sa |}
              Hg0 Hs0 Hm0) as (ea & -> & Hpa & Hina).
  destruct (loop_body_effect cfg W 0
              {| message_count := 0; next_obj := next_obj sb; trace := trace sb |}
              Hg0 Hs0 Hm0) as (eb & -> & Hpb & Hinb).
  rewrite bind_run.
  match goal with |- context [loop_body cfg W 1 ?st] =>
    destruct (loop_body_effect cfg W 1 st Hg1 Hs1 Hm1) as (ec & -> & Hpc & _)
  end.
  rewrite Hp0, Hp1 in *. cbn [is_returns fst snd running message_count trace] in *.
  eexists. eexists.
  split; [reflexivity|]. split; [reflexivity|].
  split; [apply in_or_app; right; apply (Hina _ eq_refl)|].
  split; [reflexivity|]. split; [reflexivity|].
  split.
  - cbn [trace]. rewrite !successful_publishes_app, Hpb, Hpc.
    destruct Hb as (_ & _ & -> & _). reflexivity.
  - cbn [trace]. apply in_or_app. left. apply in_or_app. right.
    apply (Hinb _ eq_refl).
Qed.

End Claims.

(** ** The claims at concrete worlds *)

Lemma connection_failure_aborts_startup_witness :
  on_connect unreachable_world
  = Raises (Exception_
              (lit "MQI Error. Comp: 2, Reason 2009: FAILED: MQRC_CONNECTION_BROKEN"))
  /\ exists s,
       main default_config unreachable_world 3 initial_state = (Returns tt, s)
       /\ message_count s = 0%nat
       /\ successful_publishes (trace s) = 0%nat
       /\ filter is_call (trace s)
          = [Called (pymqi_connect (MQ_QUEUE_MANAGER default_config)
                       (MQ_CHANNEL default_config)
                       (MQ_HOST default_config ++ lit "(" ++ MQ_PORT default_config
                        ++ lit ")")
                       (MQ_USER default_config) (MQ_PASSWORD default_config))
                    (Raises (Exception_
                               (lit "MQI Error. Comp: 2, Reason 2009: FAILED: MQRC_CONNECTION_BROKEN")))]
       /\ last (trace s) (Printed [])
          = Printed ([0x274c] ++ lit " Failed to connect to MQ: "
                     ++ lit "MQI Error. Comp: 2, Reason 2009: FAILED: MQRC_CONNECTION_BROKEN").
Proof.
  split; [reflexivity|].
  apply (connection_failure_aborts_startup default_config unreachable_world 3
           (lit "MQI Error. Comp: 2, Reason 2009: FAILED: MQRC_CONNECTION_BROKEN")).
  reflexivity.
Defined.

Lemma rough_world_runs_until_2 : runs_until rough_world 2.
Proof.
  intros i Hi. destruct i as [|[|i]]; [vm_compute; reflexivity .. | lia].
Qed.

Lemma interrupt_leads_to_shutdown_witness :
  on_connect rough_world = Succeeds
  /\ runs_until rough_world 2
  /\ iteration_exit rough_world 2 = Some KeyboardInterrupt
  /\ (2 < 3)%nat
  /\ exists s before digits,
       main default_config rough_world 3 initial_state = (Returns tt, s)
       /\ disconnect_calls (trace s) = 1%nat
       /\ message_count s = successful_publishes (trace s)
       /\ successful_publishes before = successful_publishes (trace s)
       /\ decimal_numeral (successful_publishes before) digits
       /\ trace s
          = before
            ++ Printed ([10; 10; 0x26a0; 0xfe0f] ++ lit "  Producer stopped by user")
            :: Called qmgr_disconnect (on_disconnect rough_world)
            :: match on_disconnect rough_world with
               | Succeeds =>
                   [Printed ([10; 0x2705]
                             ++ lit " Disconnected from MQ. Total messages sent: "
                             ++ digits)]
               | Raises _ => []
               end
       /\ filter is_summary (trace s)
          = match on_disconnect rough_world with
            | Succeeds =>
                [Printed ([10; 0x2705]
                          ++ lit " Disconnected from MQ. Total messages sent: "
                          ++ digits)]
            | Raises _ => []
            end.
Proof.
  split; [reflexivity|]. split; [exact rough_world_runs_until_2|].
  split; [vm_compute; reflexivity|]. split; [lia|].
  apply (interrupt_leads_to_shutdown default_config rough_world 2 3);
    [reflexivity | exact rough_world_runs_until_2 | vm_compute; reflexivity | lia].
Defined.

Lemma publish_failure_is_skipped_witness :
  on_connect rough_world = Succeeds
  /\ publish_outcome rough_world 0
     = Raised (Exception_
                 (lit "MQI Error. Comp: 2, Reason 2009: FAILED: MQRC_CONNECTION_BROKEN"))
  /\ is_returns (publish_outcome rough_world 1) = true
  /\ exists s1 s2,
       main default_config rough_world 1 initial_state = (Running, s1)
       /\ message_count s1 = 0%nat
       /\ In (Printed ([0x274c] ++ lit " Failed to send message: "
                       ++ lit "MQI Error. Comp: 2, Reason 2009: FAILED: MQRC_CONNECTION_BROKEN"))
             (trace s1)
       /\ main default_config rough_world 2 initial_state = (Running, s2)
       /\ message_count s2 = 1%nat
       /\ successful_publishes (trace s2) = 1%nat
       /\ In (Printed ([0x274c] ++ lit " Failed to send message: "
                       ++ lit "MQI Error. Comp: 2, Reason 2009: FAILED: MQRC_CONNECTION_BROKEN"))
             (trace s2).
Proof.
  split; [reflexivity|]. split; [vm_compute; reflexivity|].
  split; [vm_compute; reflexivity|].
  apply (publish_failure_is_skipped default_config rough_world
           (lit "MQI Error. Comp: 2, Reason 2009: FAILED: MQRC_CONNECTION_BROKEN"));
    try reflexivity; vm_compute; reflexivity.
Defined.

(** C8 as stated fails: when the write of the first iteration raises,
    [send_message] is left without a call of [queue.close()]. *)
Lemma failed_write_is_not_closed :
  ~ publish_closes rough_world 0 (MQ_QUEUE default_config) sample_record initial_state.
Proof.
  unfold publish_closes. intros [f H].
  rewrite send_message_run in H. vm_compute in H.
  destruct H as [H|[H|[]]]; discriminate.
Qed.

(** ** Strings through [json]: escaping and scanning *)

Arguments decode_uXXXX : simpl never.
Arguments is_high_surrogate : simpl never.
Arguments is_low_surrogate : simpl never.
Arguments join_surrogates : simpl never.
Arguments hex_char : simpl never.

(** Decide the comparisons of the goal against what is known. *)
Ltac cmp :=
  repeat match goal with
  | |- context [N.eqb ?a ?b] =>
      destruct (N.eqb_spec a b); try lia
  | |- context [N.leb ?a ?b] =>
      destruct (N.leb_spec a b); try lia
  | |- context [N.ltb ?a ?b] =>
      destruct (N.ltb_spec a b); try lia
  end.

Lemma hex_val_hex_char (d : N) : d < 16 -> hex_val (hex_char d) = Some d.
Proof.
  intros H. unfold hex_val, hex_char, is_digit.
  destruct (N.ltb_spec d 10); cmp; cbn [andb]; f_equal; lia.
Qed.

Lemma decode_hex4 (n : N) :
  n < 65536 ->
  decode_uXXXX (hex_char (n / 4096 mod 16)) (hex_char (n / 256 mod 16))
               (hex_char (n / 16 mod 16)) (hex_char (n mod 16)) = Some n.
Proof.
  intros H. unfold decode_uXXXX.
  rewrite !hex_val_hex_char by (apply N.mod_upper_bound; discriminate).
  f_equal. nlia.
Qed.

Lemma land_high_low (a b k : N) : b < 2 ^ k -> N.land (a * 2 ^ k) b = 0.
Proof.
  intros H. apply N.bits_inj. intros i. rewrite N.land_spec, N.bits_0.
  destruct (N.lt_ge_cases i k) as [Hi|Hi].
  - rewrite N.mul_pow2_bits_low by assumption. reflexivity.
  - destruct (N.eq_dec b 0) as [->|Hb]; [rewrite N.bits_0; apply andb_false_r|].
    rewrite (N.bits_above_log2 b i), andb_false_r; [reflexivity|].
    apply N.lt_le_trans with k; [|assumption].
    apply N.log2_lt_pow2; [lia | assumption].
Qed.

Lemma lor_high_low (a b k : N) : b < 2 ^ k -> N.lor (a * 2 ^ k) b = a * 2 ^ k + b.
Proof.
  intros H. pose proof (land_high_low a b k H) as Hl.
  rewrite N.add_nocarry_lxor, N.lxor_lor by assumption. reflexivity.
Qed.

(** The surrogate pair of a code point above the basic plane. *)
Lemma surrogate_pair (c : N) :
  0x10000 <= c < 0x110000 ->
  let n := c - 0x10000 in
  let s1 := N.lor 0xd800 (N.land (N.shiftr n 10) 0x3ff) in
  let s2 := N.lor 0xdc00 (N.land n 0x3ff) in
  0xd800 <= s1 <= 0xdbff /\ 0xdc00 <= s2 <= 0xdfff /\ join_surrogates s1 s2 = c.
Proof.
  intros Hc n s1 s2. unfold join_surrogates.
  assert (E1 : s1 = 0xd800 + n / 1024).
  { subst s1. change 0x3ff with (N.ones 10).
    rewrite N.land_ones, N.shiftr_div_pow2.
    change 0xd800 with (54 * 2 ^ 10). change (2 ^ 10) with 1024.
    rewrite (N.mod_small (n / 1024)) by (subst n; nlia).
    change (54 * 1024) with (54 * 2 ^ 10). rewrite lor_high_low; [reflexivity|].
    change (2 ^ 10) with 1024. subst n. nlia. }
  assert (E2 : s2 = 0xdc00 + n mod 1024).
  { subst s2. change 0x3ff with (N.ones 10). rewrite N.land_ones.
    change 0xdc00 with (55 * 2 ^ 10). rewrite lor_high_low; [reflexivity|].
    apply N.mod_upper_bound. discriminate. }
  assert (Hn : n < 1048576 /\ c = 65536 + n) by (unfold n; lia).
  clearbody s1 s2. subst s1 s2. clearbody n.
  split; [nlia|]. split; [nlia|].
  replace (0xd800 + n / 1024 - 0xd800) with (n / 1024) by nlia.
  replace (0xdc00 + n mod 1024 - 0xdc00) with (n mod 1024) by nlia.
  rewrite N.shiftl_mul_pow2, lor_high_low by (apply N.mod_upper_bound; discriminate).
  change (2 ^ 10) with 1024. nlia.
Qed.

Lemma scanstring_plain (c : codepoint) (tl acc : pystr) :
  c <> ch_quote -> c <> ch_backslash -> 32 <= c ->
  scanstring (c :: tl) acc = scanstring tl (c :: acc).
Proof.
  intros H1 H2 H3. cbn [scanstring].
  apply N.eqb_neq in H1, H2. rewrite H1, H2.
  destruct (N.ltb_spec c 32); [lia | reflexivity].
Qed.

Lemma scanstring_short (esc ch : codepoint) (tl acc : pystr) :
  esc <> 117 -> backslash_dct esc = Some ch ->
  scanstring (ch_backslash :: esc :: tl) acc = scanstring tl (ch :: acc).
Proof.
  intros H1 H2. cbn [scanstring].
  change (ch_backslash =? ch_quote) with false.
  change (ch_backslash =? ch_backslash) with true. cbv iota.
  apply N.eqb_neq in H1. rewrite H1, H2. reflexivity.
Qed.

Lemma scanstring_u (a b c d uni : codepoint) (tl acc : pystr) :
  decode_uXXXX a b c d = Some uni -> is_high_surrogate uni = false ->
  scanstring (ch_backslash :: 117 :: a :: b :: c :: d :: tl) acc
  = scanstring tl (uni :: acc).
Proof.
  intros H1 H2. cbn [scanstring].
  change (ch_backslash =? ch_quote) with false.
  change (ch_backslash =? ch_backslash) with true.
  change (117 =? 117) with true. cbv iota.
  rewrite H1, H2. reflexivity.
Qed.

Lemma scanstring_u_pair (a b c d a2 b2 c2 d2 u1 u2 : codepoint) (tl acc : pystr) :
  decode_uXXXX a b c d = Some u1 -> is_high_surrogate u1 = true ->
  decode_uXXXX a2 b2 c2 d2 = Some u2 -> is_low_surrogate u2 = true ->
  scanstring (ch_backslash :: 117 :: a :: b :: c :: d
              :: ch_backslash :: 117 :: a2 :: b2 :: c2 :: d2 :: tl) acc
  = scanstring tl (join_surrogates u1 u2 :: acc).
Proof.
  intros H1 H2 H3 H4. cbn [scanstring].
  change (ch_backslash =? ch_quote) with false.
  change (ch_backslash =? ch_backslash) with true.
  change (117 =? 117) with true. cbv iota. cbn [andb].
  rewrite H1, H2, H3, H4. reflexivity.
Qed.

(** Scanning undoes the escape of one character of text. *)
Lemma scanstring_escape_char (c : codepoint) (tl acc : pystr) :
  is_scalar c = true ->
  scanstring (escape_char c ++ tl) acc = scanstring tl (c :: acc).
Proof.
  intros Hc. unfold is_scalar in Hc.
  destruct (N.eqb_spec c ch_backslash) as [->|Hbs]; [reflexivity|].
  destruct (N.eqb_spec c ch_quote) as [->|Hq]; [reflexivity|].
  destruct (N.eqb_spec c 8) as [->|H8]; [reflexivity|].
  destruct (N.eqb_spec c 12) as [->|H12]; [reflexivity|].
  destruct (N.eqb_spec c 10) as [->|H10]; [reflexivity|].
  destruct (N.eqb_spec c 13) as [->|H13]; [reflexivity|].
  destruct (N.eqb_spec c 9) as [->|H9]; [reflexivity|].
  unfold escape_char, needs_escape, escape_dct.
  apply N.eqb_neq in Hbs as Ebs. apply N.eqb_neq in Hq as Eq.
  apply N.eqb_neq in H8 as E8. apply N.eqb_neq in H12 as E12.
  apply N.eqb_neq in H10 as E10. apply N.eqb_neq in H13 as E13.
  apply N.eqb_neq in H9 as E9.
  rewrite Ebs, Eq, E8, E12, E10, E13, E9. cbn [orb].
  destruct ((32 <=? c) && (c <=? 126)) eqn:Hp; cbn [negb].
  - apply andb_prop in Hp. destruct Hp as [Hlo _]. apply N.leb_le in Hlo.
    apply scanstring_plain; assumption.
  - destruct (N.ltb_spec c 0x10000) as [Hbmp|Hsup].
    + unfold u_escape, hex4. cbn [app].
      apply scanstring_u; [apply decode_hex4; assumption|].
      unfold is_high_surrogate.
      destruct (N.ltb_spec c 0xD800); [cmp; reflexivity|].
      destruct (N.ltb_spec 0xDFFF c); [|discriminate Hc]. cmp; reflexivity.
    + assert (Hr : 0x10000 <= c < 0x110000).
      { destruct (N.ltb_spec c 0xD800); [lia|].
        destruct (N.ltb_spec 0xDFFF c); [|discriminate Hc].
        destruct (N.ltb_spec c 0x110000); [lia | discriminate Hc]. }
      destruct (surrogate_pair c Hr) as (Hs1 & Hs2 & Hj). cbv zeta in *.
      remember (N.lor 0xd800 (N.land (N.shiftr (c - 0x10000) 10) 0x3ff)) as s1.
      remember (N.lor 0xdc00 (N.land (c - 0x10000) 0x3ff)) as s2.
      unfold u_escape, hex4. cbn [app]. rewrite <- Hj.
      apply scanstring_u_pair.
      * apply decode_hex4. lia.
      * unfold is_high_surrogate. cmp; reflexivity.
      * apply decode_hex4. lia.
      * unfold is_low_surrogate. cmp; reflexivity.
Qed.

Lemma scanstring_escaped (s : pystr) : forall (tl acc : pystr),
  scalar_text s ->
  scanstring (flat_map escape_char s ++ ch_quote :: tl) acc = Some (rev acc ++ s, tl).
Proof.
  induction s as [|c s IH]; intros tl acc Hs.
  - simpl. rewrite app_nil_r. reflexivity.
  - inversion Hs as [|? ? Hc Hs']; subst.
    cbn [flat_map]. rewrite <- app_assoc, scanstring_escape_char by assumption.
    rewrite IH by assumption. cbn [rev]. rewrite <- app_assoc. reflexivity.
Qed.

(** ** Numbers through [json] *)

Lemma str_N_0 : str_N 0 = [ch_zero].
Proof. reflexivity. Qed.

(** A positive number is printed without a leading zero. *)
Lemma str_N_head (n : N) :
  n <> 0 -> exists c tl, str_N n = c :: tl /\ is_digit c = true /\ c <> ch_zero.
Proof.
  induction n as [n IH] using (well_founded_induction N.lt_wf_0). intros Hn.
  destruct (N.lt_ge_cases n 10) as [Hs|Hb].
  - rewrite str_N_small by assumption. exists (digit_char n), []. repeat split.
    + unfold is_digit, digit_char. cmp; reflexivity.
    + unfold digit_char, ch_zero. lia.
  - rewrite str_N_big by assumption.
    destruct (IH (n / 10)) as (c & tl & -> & Hc & Hz); [nlia | nlia |].
    exists c, (tl ++ [digit_char (n mod 10)]). repeat split; assumption.
Qed.

Lemma str_N_nonempty (n : N) : str_N n <> [].
Proof.
  rewrite str_N_unfold. destruct (n / 10 =? 0); [discriminate|].
  intros H. apply app_eq_nil in H. destruct H as [_ H]. discriminate.
Qed.

Lemma digits_val_app (l : pystr) (c : codepoint) :
  digits_val (l ++ [c]) = 10 * digits_val l + (c - 48).
Proof. unfold digits_val. rewrite fold_left_app. reflexivity. Qed.

Lemma digits_val_str_N (n : N) : digits_val (str_N n) = n.
Proof.
  induction n as [n IH] using (well_founded_induction N.lt_wf_0).
  destruct (N.lt_ge_cases n 10) as [Hs|Hb].
  - rewrite str_N_small by assumption. unfold digits_val, digit_char.
    cbn [fold_left]. lia.
  - rewrite str_N_big, digits_val_app, IH by (assumption || nlia).
    unfold digit_char. nlia.
Qed.

Lemma int_of_str_str_int (z : Z) : int_of_str (str_int z) = z.
Proof.
  unfold str_int. destruct (z <? 0)%Z eqn:E.
  - apply Z.ltb_lt in E. cbn [int_of_str].
    change (ch_minus =? ch_minus) with true. cbv iota.
    rewrite digits_val_str_N. lia.
  - apply Z.ltb_ge in E. unfold int_of_str.
    destruct (str_N (Z.abs_N z)) as [|c tl] eqn:Es; [elim (str_N_nonempty _ Es)|].
    assert (Hd : is_digit c = true).
    { pose proof (str_N_digits (Z.abs_N z)) as Hf. rewrite Es in Hf.
      inversion Hf; assumption. }
    destruct (N.eqb_spec c ch_minus) as [->|_]; [discriminate Hd|].
    rewrite <- Es, digits_val_str_N. lia.
Qed.

Lemma take_digits_app (s rest : pystr) :
  no_digit_ahead rest ->
  take_digits (s ++ rest) = (fst (take_digits s), snd (take_digits s) ++ rest).
Proof.
  intros Hr. induction s as [|c s IH]; cbn [app take_digits].
  - destruct rest as [|c rest]; [reflexivity|].
    simpl in Hr. cbn [take_digits]. rewrite Hr. reflexivity.
  - destruct (is_digit c); [|reflexivity].
    rewrite IH. destruct (take_digits s). reflexivity.
Qed.

Lemma take_digits_all (ds : pystr) :
  Forall (fun c => is_digit c = true) ds -> take_digits ds = (ds, []).
Proof.
  induction ds as [|c ds IH]; intros H; [reflexivity|].
  inversion H as [|? ? Hc Hds]; subst. cbn [take_digits].
  rewrite Hc, (IH Hds). reflexivity.
Qed.

Lemma take_digits_spec (s : pystr) :
  s = fst (take_digits s) ++ snd (take_digits s)
  /\ Forall (fun c => is_digit c = true) (fst (take_digits s)).
Proof.
  induction s as [|c s [IH1 IH2]]; cbn [take_digits]; [split; [reflexivity | constructor]|].
  destruct (is_digit c) eqn:Hc; [|split; [reflexivity | constructor]].
  destruct (take_digits s) as [ds r]. cbn [fst snd] in *.
  split; [cbn [app]; f_equal; exact IH1 | constructor; assumption].
Qed.

Lemma ends_number_no_digit (rest : pystr) :
  ends_number rest = true -> no_digit_ahead rest.
Proof.
  destruct rest as [|c rest]; [intros _; exact I|]. simpl.
  destruct (is_digit c); [discriminate | reflexivity].
Qed.

Lemma ends_number_head (c : codepoint) (rest : pystr) :
  ends_number (c :: rest) = true ->
  is_digit c = false /\ c <> 46 /\ c <> 101 /\ c <> 69 /\ c <> 43 /\ c <> 45.
Proof.
  cbn [ends_number]. intros H. apply negb_true_iff in H.
  repeat (apply orb_false_elim in H; destruct H as [H ?]).
  repeat split; try assumption; apply N.eqb_neq; assumption.
Qed.

Lemma match_integer_app (s rest i r : pystr) :
  no_digit_ahead rest ->
  match_integer s = Some (i, r) -> match_integer (s ++ rest) = Some (i, r ++ rest).
Proof.
  intros Hnd. unfold match_integer.
  assert (Hcore : forall sign s1,
    match s1 with
    | c :: s2 =>
        if c =? ch_zero then Some (sign ++ [c], s2)
        else if is_digit c then let (ds, r) := take_digits s2 in Some (sign ++ c :: ds, r)
        else None
    | [] => None
    end = Some (i, r) ->
    match s1 ++ rest with
    | c :: s2 =>
        if c =? ch_zero then Some (sign ++ [c], s2)
        else if is_digit c then let (ds, r) := take_digits s2 in Some (sign ++ c :: ds, r)
        else None
    | [] => None
    end = Some (i, r ++ rest)).
  { intros sign [|c s2]; [discriminate|]. cbn [app].
    destruct (c =? ch_zero); [intros [= <- <-]; reflexivity|].
    destruct (is_digit c); [|discriminate].
    rewrite take_digits_app by assumption.
    destruct (take_digits s2). intros [= <- <-]. reflexivity. }
  destruct s as [|c s']; [discriminate|]. cbn [app].
  destruct (c =? ch_minus).
  - exact (Hcore [ch_minus] s').
  - exact (Hcore [] (c :: s')).
Qed.

Lemma match_frac_app (s rest : pystr) :
  ends_number rest = true ->
  match_frac (s ++ rest) = (fst (match_frac s), snd (match_frac s) ++ rest).
Proof.
  intros Hr. apply ends_number_no_digit in Hr as Hnd. unfold match_frac.
  destruct s as [|c s1]; cbn [app].
  - destruct rest as [|c rest]; [reflexivity|].
    apply ends_number_head in Hr. destruct Hr as (_ & H46 & _).
    apply N.eqb_neq in H46. rewrite H46. reflexivity.
  - destruct (c =? 46); [|reflexivity].
    rewrite take_digits_app by assumption.
    destruct (take_digits s1) as [[|d ds] r]; reflexivity.
Qed.

Lemma match_exp_app (s rest : pystr) :
  ends_number rest = true ->
  match_exp (s ++ rest) = (fst (match_exp s), snd (match_exp s) ++ rest).
Proof.
  intros Hr. apply ends_number_no_digit in Hr as Hnd. unfold match_exp.
  destruct s as [|c s1]; cbn [app].
  - destruct rest as [|c rest]; [reflexivity|].
    apply ends_number_head in Hr. destruct Hr as (_ & _ & H101 & H69 & _).
    apply N.eqb_neq in H101, H69. rewrite H101, H69. reflexivity.
  - destruct ((c =? 101) || (c =? 69)); [|reflexivity].
    destruct s1 as [|g s']; cbn [app].
    + destruct rest as [|g rest]; [reflexivity|].
      apply ends_number_head in Hr as Hh. destruct Hh as (Hd & _ & _ & _ & H43 & H45).
      apply N.eqb_neq in H43, H45. rewrite H43, H45. cbn [orb take_digits].
      rewrite Hd. reflexivity.
    + destruct ((g =? 45) || (g =? 43)).
      * rewrite take_digits_app by assumption.
        destruct (take_digits s') as [[|d ds] r]; reflexivity.
      * change (g :: s' ++ rest) with ((g :: s') ++ rest).
        rewrite (take_digits_app (g :: s')) by assumption.
        destruct (take_digits (g :: s')) as [[|d ds] r]; reflexivity.
Qed.

Lemma match_number_app (s rest i f e r : pystr) :
  ends_number rest = true ->
  match_number s = Some (i, f, e, r) ->
  match_number (s ++ rest) = Some (i, f, e, r ++ rest).
Proof.
  intros Hr. unfold match_number.
  destruct (match_integer s) as [[i0 r1]|] eqn:Hi; [|discriminate].
  rewrite (match_integer_app s rest i0 r1 (ends_number_no_digit rest Hr) Hi).
  rewrite (match_frac_app r1 rest Hr).
  destruct (match_frac r1) as [f0 r2]. cbn [fst snd].
  rewrite (match_exp_app r2 rest Hr).
  destruct (match_exp r2) as [e0 r3]. cbn [fst snd].
  intros [= <- <- <- <-]. reflexivity.
Qed.

Lemma digit_ascii (c : codepoint) : is_digit c = true -> c < 128.
Proof.
  unfold is_digit. intros H. apply andb_prop in H. destruct H as [_ H].
  apply N.leb_le in H. lia.
Qed.

Lemma digits_ascii (ds : pystr) :
  Forall (fun c => is_digit c = true) ds -> ascii_text ds.
Proof. apply Forall_impl. exact digit_ascii. Qed.

Lemma match_integer_sound (s i r : pystr) :
  match_integer s = Some (i, r) ->
  s = i ++ r /\ ascii_text i /\ starts_number s.
Proof.
  unfold match_integer.
  assert (Hcore : forall sign s1,
    ascii_text sign ->
    match s1 with
    | c :: s2 =>
        if c =? ch_zero then Some (sign ++ [c], s2)
        else if is_digit c then let (ds, r) := take_digits s2 in Some (sign ++ c :: ds, r)
        else None
    | [] => None
    end = Some (i, r) ->
    sign ++ s1 = i ++ r /\ ascii_text i
    /\ match s1 with c :: _ => is_digit c = true | [] => False end).
  { intros sign [|c s2] Hsign; [discriminate|].
    destruct (N.eqb_spec c ch_zero) as [->|_].
    - intros [= <- <-]. rewrite <- app_assoc. repeat split.
      apply Forall_app. split; [assumption|]. repeat constructor.
    - destruct (is_digit c) eqn:Hc; [|discriminate].
      destruct (take_digits_spec s2) as [Hs2 Hds].
      destruct (take_digits s2) as [ds r']. cbn [fst snd] in *.
      intros [= <- <-]. rewrite <- app_assoc. cbn [app]. repeat split.
      + rewrite Hs2 at 1. reflexivity.
      + apply Forall_app. split; [assumption|].
        constructor; [apply digit_ascii; assumption | apply digits_ascii; assumption]. }
  destruct s as [|c s']; [discriminate|].
  destruct (N.eqb_spec c ch_minus) as [->|_]; intros H.
  - destruct (Hcore [ch_minus] s' ltac:(repeat constructor) H) as (H1 & H2 & _).
    repeat split; [exact H1 | exact H2 | right; reflexivity].
  - destruct (Hcore [] (c :: s') ltac:(constructor) H) as (H1 & H2 & H3).
    repeat split; [exact H1 | exact H2 | left; exact H3].
Qed.

Lemma match_frac_sound (s : pystr) :
  s = fst (match_frac s) ++ snd (match_frac s) /\ ascii_text (fst (match_frac s)).
Proof.
  unfold match_frac. destruct s as [|c s1]; [split; [reflexivity | constructor]|].
  destruct (N.eqb_spec c 46) as [->|_]; [|split; [reflexivity | constructor]].
  destruct (take_digits_spec s1) as [Hs Hd].
  destruct (take_digits s1) as [[|d ds] r]; cbn [fst snd] in *;
    [split; [reflexivity | constructor]|].
  split; [cbn [app]; f_equal; exact Hs|].
  constructor; [reflexivity | apply digits_ascii; assumption].
Qed.

Lemma match_exp_sound (s : pystr) :
  s = fst (match_exp s) ++ snd (match_exp s) /\ ascii_text (fst (match_exp s)).
Proof.
  unfold match_exp. destruct s as [|c s1]; [split; [reflexivity | constructor]|].
  destruct ((c =? 101) || (c =? 69)) eqn:Hc; [|split; [reflexivity | constructor]].
  assert (Hca : c < 128).
  { apply orb_prop in Hc. destruct Hc as [Hc|Hc]; apply N.eqb_eq in Hc; subst c;
      reflexivity. }
  assert (Hcore : forall sign s2,
    ascii_text sign -> s1 = sign ++ s2 ->
    c :: s1 = fst (match take_digits s2 with
                   | ([], _) => ([], c :: s1)
                   | (ds, r) => (c :: sign ++ ds, r)
                   end)
              ++ snd (match take_digits s2 with
                      | ([], _) => ([], c :: s1)
                      | (ds, r) => (c :: sign ++ ds, r)
                      end)
    /\ ascii_text (fst (match take_digits s2 with
                        | ([], _) => ([], c :: s1)
                        | (ds, r) => (c :: sign ++ ds, r)
                        end))).
  { intros sign s2 Hsign Hs1.
    destruct (take_digits_spec s2) as [Hs Hd].
    destruct (take_digits s2) as [[|d ds] r]; cbn [fst snd] in *;
      [split; [reflexivity | constructor]|].
    split.
    - cbn [app]. f_equal. rewrite Hs1, <- app_assoc. f_equal. exact Hs.
    - constructor; [exact Hca|]. apply Forall_app. split; [assumption|].
      apply digits_ascii. assumption. }
  destruct s1 as [|g s'].
  - apply (Hcore [] []); [constructor | reflexivity].
  - destruct ((g =? 45) || (g =? 43)) eqn:Hg.
    + apply (Hcore [g] s'); [|reflexivity].
      constructor; [|constructor].
      apply orb_prop in Hg. destruct Hg as [Hg|Hg]; apply N.eqb_eq in Hg; subst g;
        reflexivity.
    + apply (Hcore [] (g :: s')); [constructor | reflexivity].
Qed.

Lemma match_number_sound (s i f e r : pystr) :
  match_number s = Some (i, f, e, r) ->
  s = i ++ f ++ e ++ r /\ ascii_text (i ++ f ++ e) /\ starts_number s.
Proof.
  unfold match_number.
  destruct (match_integer s) as [[i0 r1]|] eqn:Hi; [|discriminate].
  destruct (match_integer_sound s i0 r1 Hi) as (Hs & Hai & Hst).
  destruct (match_frac_sound r1) as [Hr1 Haf].
  destruct (match_frac r1) as [f0 r2]. cbn [fst snd] in *.
  destruct (match_exp_sound r2) as [Hr2 Hae].
  destruct (match_exp r2) as [e0 r3]. cbn [fst snd] in *.
  intros [= <- <- <- <-]. repeat split.
  - rewrite Hs, Hr1 at 1. rewrite Hr2 at 1. reflexivity.
  - apply Forall_app. split; [assumption|]. apply Forall_app. split; assumption.
  - exact Hst.
Qed.

(** [str(int)] is an integer token. *)
Lemma match_integer_str_N (n : N) (sign : pystr) :
  sign = [] \/ sign = [ch_minus] ->
  match_integer (sign ++ str_N n) = Some (sign ++ str_N n, []).
Proof.
  intros Hsign. unfold match_integer.
  assert (Hcore : match str_N n with
                  | c :: s2 =>
                      if c =? ch_zero then Some (sign ++ [c], s2)
                      else if is_digit c
                           then let (ds, r) := take_digits s2 in
                                Some (sign ++ c :: ds, r)
                           else None
                  | [] => None
                  end = Some (sign ++ str_N n, [])).
  { destruct (N.eq_dec n 0) as [->|Hn]; [reflexivity|].
    destruct (str_N_head n Hn) as (c & tl & E & Hc & Hz).
    pose proof (str_N_digits n) as Hd. rewrite E in *.
    inversion Hd as [|? ? _ Htl]; subst.
    apply N.eqb_neq in Hz. rewrite Hz, Hc, (take_digits_all tl Htl). reflexivity. }
  destruct Hsign as [->| ->]; cbn [app].
  - destruct (str_N n) as [|c tl] eqn:E; [discriminate Hcore|].
    pose proof (str_N_digits n) as Hd. rewrite E in Hd.
    inversion Hd as [|? ? Hc _]; subst.
    destruct (N.eqb_spec c ch_minus) as [->|_]; [discriminate Hc|].
    exact Hcore.
  - change (ch_minus =? ch_minus) with true. cbv iota. exact Hcore.
Qed.

Lemma match_number_str_N (n : N) (sign : pystr) :
  sign = [] \/ sign = [ch_minus] ->
  match_number (sign ++ str_N n) = Some (sign ++ str_N n, [], [], []).
Proof.
  intros Hsign. unfold match_number.
  rewrite (match_integer_str_N n sign Hsign). reflexivity.
Qed.

Lemma match_number_str_int (z : Z) :
  match_number (str_int z) = Some (str_int z, [], [], []).
Proof.
  unfold str_int. destruct (z <? 0)%Z.
  - apply (match_number_str_N _ [ch_minus]). right. reflexivity.
  - apply (match_number_str_N _ []). left. reflexivity.
Qed.

(** ** Values through [json] *)

Section RoundTrip.
Context {F : FloatOps} {L : FloatLaws F}.

(** Induction on values, with the items of lists and dicts. *)
Lemma pyval_induction (P : pyval -> Prop) :
  P PNone -> (forall b, P (PBool b)) -> (forall z, P (PInt z)) ->
  (forall x, P (PFloat x)) -> (forall s, P (PStr s)) ->
  (forall l, Forall P l -> P (PList l)) ->
  (forall items, Forall (fun kv => P (snd kv)) items -> P (PDict items)) ->
  forall v, P v.
Proof.
  intros HNone HBool HInt HFloat HStr HList HDict.
  fix IH 1. intros [|b|z|x|s|l|items].
  - exact HNone.
  - apply HBool.
  - apply HInt.
  - apply HFloat.
  - apply HStr.
  - apply HList. induction l as [|x l IHl]; constructor; [apply IH | exact IHl].
  - apply HDict. induction items as [|[k x] items IHi]; constructor;
      [apply IH | exact IHi].
Qed.

Lemma iterencode_list (ind lvl : nat) (x : pyval) (l : list pyval) :
  iterencode ind lvl (PList (x :: l)) =
  lit "[" ++ newline_indent ind (S lvl) ++ iterencode ind (S lvl) x
  ++ elems_tail ind (S lvl) l ++ newline_indent ind lvl ++ lit "]".
Proof.
  cbn [iterencode]. f_equal. f_equal. cbn [app]. rewrite <- app_assoc.
  f_equal. f_equal.
  induction l as [|y l IHl]; [reflexivity|].
  cbn [elems_tail flat_map]. rewrite <- !app_assoc. f_equal. f_equal. f_equal.
  exact IHl.
Qed.

Lemma iterencode_dict (ind lvl : nat) (kv : pystr * pyval) (l : list (pystr * pyval)) :
  iterencode ind lvl (PDict (kv :: l)) =
  lit "{" ++ newline_indent ind (S lvl) ++ item_text ind (S lvl) kv
  ++ items_tail ind (S lvl) l ++ newline_indent ind lvl ++ lit "}".
Proof.
  destruct kv as [k x].
  cbn [iterencode]. f_equal. f_equal. cbn [app]. unfold item_text. cbn [fst snd].
  rewrite <- !app_assoc. f_equal. f_equal. f_equal. f_equal.
  induction l as [|[k' y] l IHl]; [reflexivity|].
  cbn [items_tail flat_map]. unfold item_text at 1. cbn [fst snd].
  rewrite <- !app_assoc. f_equal. f_equal. f_equal. f_equal. f_equal.
  exact IHl.
Qed.

Lemma size_list (l : list pyval) : size (PList l) = S (elems_size l).
Proof. reflexivity. Qed.

Lemma size_dict (l : list (pystr * pyval)) : size (PDict l) = S (items_size l).
Proof.
  cbn [size]. f_equal. induction l as [|[k x] l IHl]; [reflexivity|].
  cbn [items_size fold_right snd]. f_equal. f_equal. exact IHl.
Qed.

Lemma well_formed_list (l : list pyval) :
  well_formed (PList l) <-> Forall well_formed l.
Proof.
  cbn [well_formed]. induction l as [|x l IHl]; [split; constructor|].
  split.
  - intros [Hx Hl]. constructor; [exact Hx | apply IHl; exact Hl].
  - intros H. inversion H; subst. split; [assumption | apply IHl; assumption].
Qed.

Lemma well_formed_dict (l : list (pystr * pyval)) :
  well_formed (PDict l) <->
  nodupb (map fst l) = true
  /\ Forall (fun kv => scalar_text (fst kv) /\ well_formed (snd kv)) l.
Proof.
  cbn [well_formed]. apply and_iff_compat_l.
  induction l as [|[k x] l IHl]; [split; constructor|].
  split.
  - intros (Hk & Hx & Hl). constructor; [split; assumption | apply IHl; exact Hl].
  - intros H. inversion H as [|? ? [Hk Hx] Hl]; subst.
    repeat split; [assumption | assumption | apply IHl; assumption].
Qed.

(** *** White space and first characters *)

Lemma skip_ws_keep (c : codepoint) (tl : pystr) :
  is_ws c = false -> skip_ws (c :: tl) = c :: tl.
Proof. intros H. cbn [skip_ws]. rewrite H. reflexivity. Qed.

Lemma skip_ws_indent (ind lvl : nat) (c : codepoint) (tl : pystr) :
  is_ws c = false -> skip_ws (newline_indent ind lvl ++ c :: tl) = c :: tl.
Proof.
  intros H. unfold newline_indent. cbn [app skip_ws].
  change (is_ws ch_newline) with true. cbv iota.
  induction (ind * lvl)%nat as [|k IH]; cbn [repeat app skip_ws].
  - rewrite H. reflexivity.
  - change (is_ws ch_space) with true. cbv iota. exact IH.
Qed.

Lemma starts_number_opens (s : pystr) : starts_number s -> opens_value s.
Proof.
  destruct s as [|c tl]; [contradiction|]. intros [Hd| ->].
  - exists c, tl. split; [reflexivity|].
    unfold is_digit in Hd. apply andb_prop in Hd. destruct Hd as [H1 H2].
    apply N.leb_le in H1, H2. unfold is_ws. split; [cmp; reflexivity | lia].
  - exists ch_minus, tl. split; [reflexivity | split; [reflexivity | discriminate]].
Qed.

Lemma float_repr_token (x : pyfloat) :
  exists i f e,
    match_number (float_repr x) = Some (i, f, e, [])
    /\ f ++ e <> [] /\ float_repr x = i ++ f ++ e
    /\ ascii_text (float_repr x) /\ starts_number (float_repr x).
Proof.
  pose proof (float_repr_literal x) as H. unfold is_float_literal in H.
  destruct (match_number (float_repr x)) as [[[[i f] e] r]|] eqn:Hm; [|discriminate].
  destruct r; [|discriminate].
  destruct (match_number_sound _ _ _ _ _ Hm) as (Hs & Ha & Hst).
  rewrite !app_nil_r in Hs.
  exists i, f, e. repeat split; try assumption.
  - intros Hfe. rewrite Hfe in H. discriminate.
  - rewrite Hs. exact Ha.
Qed.

Lemma str_int_starts_number (z : Z) : starts_number (str_int z).
Proof.
  destruct (match_number_sound _ _ _ _ _ (match_number_str_int z)) as (_ & _ & H).
  exact H.
Qed.

Lemma iterencode_opens (ind lvl : nat) (v : pyval) : opens_value (iterencode ind lvl v).
Proof.
  destruct v as [|[|]|z|x|s|[|y l]|[|kv l]].
  - eexists _, _; split; [reflexivity | split; [reflexivity | discriminate]].
  - eexists _, _; split; [reflexivity | split; [reflexivity | discriminate]].
  - eexists _, _; split; [reflexivity | split; [reflexivity | discriminate]].
  - apply starts_number_opens, str_int_starts_number.
  - destruct (float_repr_token x) as (i & f & e & _ & _ & _ & _ & H).
    apply starts_number_opens, H.
  - eexists _, _; split; [reflexivity | split; [reflexivity | discriminate]].
  - eexists _, _; split; [reflexivity | split; [reflexivity | discriminate]].
  - rewrite iterencode_list. eexists _, _; split; [reflexivity | split; [reflexivity | discriminate]].
  - eexists _, _; split; [reflexivity | split; [reflexivity | discriminate]].
  - rewrite iterencode_dict. eexists _, _; split; [reflexivity | split; [reflexivity | discriminate]].
Qed.

(** *** The branches of [scan_once] *)

Lemma scan_once_quote (fuel : nat) (s1 : pystr) :
  scan_once (S fuel) (ch_quote :: s1) =
  match scanstring s1 [] with
  | Some (str, r) => Some (PStr str, r)
  | None => None
  end.
Proof. reflexivity. Qed.

Lemma scan_once_number (fuel : nat) (s : pystr) :
  starts_number s ->
  scan_once (S fuel) s =
  match match_number s with
  | Some (integer, frac, exp, r) =>
      match frac ++ exp with
      | [] => Some (PInt (int_of_str integer), r)
      | _ =>
          match float_of_str (integer ++ frac ++ exp) with
          | Some x => Some (PFloat x, r)
          | None => None
          end
      end
  | None => None
  end.
Proof.
  destruct s as [|c s1]; [contradiction|]. intros Hc.
  assert (H : (c =? ch_quote) = false /\ (c =? 123) = false /\ (c =? 91) = false
              /\ (110 =? c) = false /\ (116 =? c) = false /\ (102 =? c) = false).
  { destruct Hc as [Hd| ->]; [|repeat split; reflexivity].
    unfold is_digit in Hd. apply andb_prop in Hd. destruct Hd as [H1 H2].
    apply N.leb_le in H1, H2. repeat split; apply N.eqb_neq; unfold ch_quote; lia. }
  destruct H as (H1 & H2 & H3 & H4 & H5 & H6).
  cbn [scan_once]. rewrite H1, H2, H3.
  change (lit "null") with [110; 117; 108; 108].
  change (lit "true") with [116; 114; 117; 101].
  change (lit "false") with [102; 97; 108; 115; 101].
  cbn [starts_with]. rewrite H4, H5, H6. reflexivity.
Qed.

Lemma scan_once_array (fuel : nat) (c1 : codepoint) (s1 s2 : pystr) :
  skip_ws s1 = c1 :: s2 -> c1 <> 93 ->
  scan_once (S fuel) (91 :: s1) =
  match array_elements fuel (c1 :: s2) with
  | Some (values, r) => Some (PList values, r)
  | None => None
  end.
Proof.
  intros Hs Hc. cbn [scan_once].
  change (91 =? ch_quote) with false. change (91 =? 123) with false.
  change (91 =? 91) with true. cbv iota. rewrite Hs.
  apply N.eqb_neq in Hc. rewrite Hc. reflexivity.
Qed.

Lemma scan_once_object (fuel : nat) (s1 s2 : pystr) :
  skip_ws s1 = ch_quote :: s2 ->
  scan_once (S fuel) (123 :: s1) =
  match object_members fuel s2 with
  | Some (pairs, r) => Some (PDict (dict_of_pairs pairs), r)
  | None => None
  end.
Proof.
  intros Hs. cbn [scan_once].
  change (123 =? ch_quote) with false. change (123 =? 123) with true.
  cbv iota. rewrite Hs. reflexivity.
Qed.

Lemma array_elements_step (fuel : nat) (s : pystr) :
  array_elements (S fuel) s =
  match scan_once fuel s with
  | None => None
  | Some (value, s1) =>
      match skip_ws s1 with
      | c :: s2 =>
          if c =? 93 then Some ([value], s2)
          else if c =? 44 then
            match array_elements fuel (skip_ws s2) with
            | Some (values, r) => Some (value :: values, r)
            | None => None
            end
          else None
      | [] => None
      end
  end.
Proof. reflexivity. Qed.

Lemma object_members_step (fuel : nat) (s : pystr) :
  object_members (S fuel) s =
  match scanstring s [] with
  | None => None
  | Some (key, s1) =>
      match skip_ws s1 with
      | c :: s2 =>
          if c =? 58 then
            match scan_once fuel (skip_ws s2) with
            | None => None
            | Some (value, s3) =>
                match skip_ws s3 with
                | c' :: s4 =>
                    if c' =? 125 then Some ([(key, value)], s4)
                    else if c' =? 44 then
                      match skip_ws s4 with
                      | q :: s5 =>
                          if q =? ch_quote then
                            match object_members fuel s5 with
                            | Some (pairs, r) => Some ((key, value) :: pairs, r)
                            | None => None
                            end
                          else None
                      | [] => None
                      end
                    else None
                | [] => None
                end
            end
          else None
      | [] => None
      end
  end.
Proof. reflexivity. Qed.

(** *** [dict(pairs)] on distinct keys *)

Lemma existsb_str_eqb (k : pystr) (keys : list pystr) :
  existsb (str_eqb k) keys = false -> ~ In k keys.
Proof.
  intros H Hin. assert (existsb (str_eqb k) keys = true); [|congruence].
  apply existsb_exists. exists k. split; [assumption | apply str_eqb_refl].
Qed.

Lemma nodupb_NoDup (keys : list pystr) : nodupb keys = true -> NoDup keys.
Proof.
  induction keys as [|k keys IH]; intros H; [constructor|].
  cbn [nodupb] in H. apply andb_prop in H. destruct H as [Hk Hr].
  apply negb_true_iff in Hk.
  constructor; [apply existsb_str_eqb; assumption | apply IH; assumption].
Qed.

Lemma dict_set_new (items : list (pystr * pyval)) (k : pystr) (v : pyval) :
  ~ In k (map fst items) -> dict_set items k v = items ++ [(k, v)].
Proof.
  induction items as [|[k' v'] items IH]; intros H; [reflexivity|].
  cbn [dict_set map fst In] in *.
  destruct (str_eqb k' k) eqn:E.
  - apply str_eqb_eq in E. elim H. left. exact E.
  - cbn [app]. f_equal. apply IH. intros Hin. apply H. right. exact Hin.
Qed.

Lemma dict_of_pairs_fold (pairs acc : list (pystr * pyval)) :
  NoDup (map fst (acc ++ pairs)) ->
  fold_left (fun d kv => dict_set d (fst kv) (snd kv)) pairs acc = acc ++ pairs.
Proof.
  revert acc. induction pairs as [|[k v] pairs IH]; intros acc H.
  - rewrite app_nil_r. reflexivity.
  - cbn [fold_left fst snd]. rewrite dict_set_new.
    + rewrite IH; rewrite <- app_assoc; [reflexivity | exact H].
    + rewrite map_app in H. cbn [map fst] in H.
      apply NoDup_remove_2 in H. intros Hin. apply H.
      apply in_or_app. left. exact Hin.
Qed.

Lemma dict_of_pairs_distinct (pairs : list (pystr * pyval)) :
  nodupb (map fst pairs) = true -> dict_of_pairs pairs = pairs.
Proof.
  intros H. unfold dict_of_pairs. apply (dict_of_pairs_fold pairs []).
  apply nodupb_NoDup. exact H.
Qed.

(** *** Reading back the items of a list and of a dict *)

Lemma ends_number_tail (ind lvl k : nat) (l : list pyval) (closing rest : pystr) :
  ends_number (elems_tail ind lvl l ++ newline_indent ind k ++ closing ++ rest) = true.
Proof. destruct l; reflexivity. Qed.

Lemma ends_number_items (ind lvl k : nat) (l : list (pystr * pyval))
  (closing rest : pystr) :
  ends_number (items_tail ind lvl l ++ newline_indent ind k ++ closing ++ rest) = true.
Proof. destruct l; reflexivity. Qed.

Lemma elems_tail_cons (ind lvl : nat) (y : pyval) (l : list pyval) :
  elems_tail ind lvl (y :: l) =
  44 :: newline_indent ind lvl ++ iterencode ind lvl y ++ elems_tail ind lvl l.
Proof. unfold elems_tail. cbn [flat_map]. rewrite <- !app_assoc. reflexivity. Qed.

Lemma items_tail_cons (ind lvl : nat) (key : pystr) (y : pyval)
  (l : list (pystr * pyval)) :
  items_tail ind lvl ((key, y) :: l) =
  44 :: newline_indent ind lvl ++ ch_quote :: flat_map escape_char key ++ [ch_quote]
  ++ lit ": " ++ iterencode ind lvl y ++ items_tail ind lvl l.
Proof.
  unfold items_tail. cbn [flat_map]. unfold item_text at 1, encode_basestring_ascii.
  cbn [fst snd]. rewrite <- !app_assoc. cbn [app]. rewrite <- !app_assoc. reflexivity.
Qed.

Lemma elems_size_cons (y : pyval) (l : list pyval) :
  elems_size (y :: l) = S (size y + elems_size l).
Proof. reflexivity. Qed.

Lemma items_size_cons (kv : pystr * pyval) (l : list (pystr * pyval)) :
  items_size (kv :: l) = S (size (snd kv) + items_size l).
Proof. reflexivity. Qed.

Lemma array_elements_reads (ind lvl k : nat) (l : list pyval) :
  Forall (reads_back ind) l -> Forall well_formed l ->
  forall x fuel rest,
    reads_back ind x -> well_formed x ->
    (S (size x + elems_size l) <= fuel)%nat ->
    array_elements fuel
      (iterencode ind lvl x ++ elems_tail ind lvl l
       ++ newline_indent ind k ++ lit "]" ++ rest)
    = Some (x :: l, rest).
Proof.
  induction l as [|y l IH]; intros Hr Hw x fuel rest Hx Hwx Hfuel;
    (destruct fuel as [|fuel]; [lia|]); rewrite array_elements_step.
  - rewrite (Hx lvl fuel _ Hwx ltac:(lia) (ends_number_tail ind lvl k [] _ rest)).
    cbn [elems_tail flat_map app].
    change (lit "]" ++ rest) with (93 :: rest).
    rewrite skip_ws_indent by reflexivity.
    change (93 =? 93) with true. reflexivity.
  - inversion Hr as [|? ? Hy Hr']; subst. inversion Hw as [|? ? Hwy Hw']; subst.
    rewrite elems_size_cons in Hfuel.
    rewrite (Hx lvl fuel _ Hwx ltac:(lia) (ends_number_tail ind lvl k (y :: l) _ rest)).
    rewrite elems_tail_cons. cbn [app].
    rewrite skip_ws_keep by reflexivity.
    change (44 =? 93) with false. change (44 =? 44) with true. cbv iota.
    destruct (iterencode_opens ind lvl y) as (c & tl & Ec & Hc & _).
    rewrite <- !app_assoc.
    assert (Hskip : forall s, skip_ws (newline_indent ind lvl ++ iterencode ind lvl y ++ s)
                              = iterencode ind lvl y ++ s).
    { intros s. rewrite Ec. cbn [app]. apply skip_ws_indent. exact Hc. }
    rewrite Hskip.
    rewrite (IH Hr' Hw' y fuel rest Hy Hwy ltac:(lia)).
    reflexivity.
Qed.

Lemma object_members_reads (ind lvl k : nat) (l : list (pystr * pyval)) :
  Forall (fun kv => reads_back ind (snd kv)) l ->
  Forall (fun kv => scalar_text (fst kv) /\ well_formed (snd kv)) l ->
  forall key x fuel rest,
    reads_back ind x -> scalar_text key -> well_formed x ->
    (S (size x + items_size l) <= fuel)%nat ->
    object_members fuel
      (flat_map escape_char key ++ ch_quote :: lit ": " ++ iterencode ind lvl x
       ++ items_tail ind lvl l ++ newline_indent ind k ++ lit "}" ++ rest)
    = Some ((key, x) :: l, rest).
Proof.
  induction l as [|[key' y] l IH]; intros Hr Hw key x fuel rest Hx Hkey Hwx Hfuel;
    (destruct fuel as [|fuel]; [lia|]); rewrite object_members_step;
    rewrite scanstring_escaped by assumption; cbn [rev app];
    change (lit ": " ++ ?s) with (58 :: 32 :: s);
    rewrite skip_ws_keep by reflexivity;
    change (58 =? 58) with true; cbv iota;
    (assert (Hskip : forall s, skip_ws (32 :: iterencode ind lvl x ++ s)
                               = iterencode ind lvl x ++ s);
     [ intros s; destruct (iterencode_opens ind lvl x) as (c & tl & Ec & Hc & _);
       rewrite Ec; cbn [app skip_ws]; change (is_ws 32) with true; cbv iota;
       rewrite Hc; reflexivity |]);
    rewrite Hskip.
  - rewrite (Hx lvl fuel _ Hwx ltac:(lia) (ends_number_items ind lvl k [] _ rest)).
    cbn [items_tail flat_map app].
    change (lit "}" ++ rest) with (125 :: rest).
    rewrite skip_ws_indent by reflexivity.
    change (125 =? 125) with true. reflexivity.
  - inversion Hr as [|? ? Hy Hr']; subst. inversion Hw as [|? ? [Hk' Hwy] Hw']; subst.
    cbn [fst snd] in *. rewrite items_size_cons in Hfuel. cbn [snd] in Hfuel.
    rewrite (Hx lvl fuel _ Hwx ltac:(lia)
               (ends_number_items ind lvl k ((key', y) :: l) _ rest)).
    rewrite items_tail_cons. cbn [app].
    rewrite skip_ws_keep by reflexivity.
    change (44 =? 125) with false. change (44 =? 44) with true. cbv iota.
    rewrite <- !app_assoc. cbn [app].
    rewrite skip_ws_indent by reflexivity.
    change (ch_quote =? ch_quote) with true. cbv iota.
    rewrite <- !app_assoc. cbn [app]. rewrite <- !app_assoc.
    rewrite (IH Hr' Hw' key' y fuel rest Hy Hk' Hwy ltac:(lia)).
    reflexivity.
Qed.

(** *** Every well-formed value is read back *)

Lemma reads_back_all (ind : nat) (v : pyval) : reads_back ind v.
Proof.
  induction v as [|b|z|x|s|l IHl|items IHi] using pyval_induction;
    intros lvl fuel rest Hw Hfuel Hrest;
    (destruct fuel as [|fuel]; [cbn [size] in Hfuel; lia|]).
  - reflexivity.
  - destruct b; reflexivity.
  - cbn [iterencode].
    rewrite scan_once_number.
    + rewrite (match_number_app _ rest _ _ _ _ Hrest (match_number_str_int z)).
      cbn [app]. rewrite int_of_str_str_int. reflexivity.
    + pose proof (str_int_starts_number z) as H.
      destruct (str_int z); [contradiction | exact H].
  - cbn [iterencode].
    destruct (float_repr_token x) as (i & f & e & Hm & Hfe & Heq & _ & Hst).
    rewrite scan_once_number.
    + rewrite (match_number_app _ rest _ _ _ _ Hrest Hm). cbn [app].
      destruct (f ++ e) eqn:Efe; [contradiction|]. rewrite <- Heq.
      rewrite float_repr_roundtrip. reflexivity.
    + destruct (float_repr x); [contradiction | exact Hst].
  - cbn [iterencode]. unfold encode_basestring_ascii. cbn [app].
    rewrite scan_once_quote, <- app_assoc. cbn [app].
    rewrite scanstring_escaped by exact Hw. reflexivity.
  - destruct l as [|x l]; [reflexivity|].
    rewrite iterencode_list. rewrite size_list, elems_size_cons in Hfuel.
    apply well_formed_list in Hw.
    inversion IHl as [|? ? Hx Hl]; subst. inversion Hw as [|? ? Hwx Hwl]; subst.
    change (lit "[" ++ ?s) with (91 :: s). cbn [app].
    destruct (iterencode_opens ind (S lvl) x) as (c & tl & Ec & Hc & Hc93).
    rewrite <- !app_assoc.
    rewrite (scan_once_array fuel c
               (newline_indent ind (S lvl) ++ iterencode ind (S lvl) x
                ++ elems_tail ind (S lvl) l ++ newline_indent ind lvl ++ lit "]" ++ rest)
               (tl ++ elems_tail ind (S lvl) l ++ newline_indent ind lvl
                ++ lit "]" ++ rest));
      [| rewrite Ec; cbn [app]; apply skip_ws_indent; exact Hc | exact Hc93 ].
    change (c :: tl ++ ?s) with ((c :: tl) ++ s). rewrite <- Ec.
    rewrite (array_elements_reads ind (S lvl) lvl l Hl Hwl x fuel rest Hx Hwx
               ltac:(lia)).
    reflexivity.
  - destruct items as [|[key x] items]; [reflexivity|].
    rewrite iterencode_dict. rewrite size_dict, items_size_cons in Hfuel.
    cbn [snd] in Hfuel.
    apply well_formed_dict in Hw. destruct Hw as [Hnd Hw].
    inversion IHi as [|? ? Hx Hl]; subst.
    inversion Hw as [|? ? [Hk Hwx] Hwl]; subst. cbn [fst snd] in *.
    change (lit "{" ++ ?s) with (123 :: s). cbn [app].
    unfold item_text, encode_basestring_ascii. cbn [fst snd app].
    repeat (progress (repeat rewrite <- app_assoc; cbn [app])).
    rewrite (scan_once_object fuel _
               (flat_map escape_char key ++ ch_quote :: lit ": "
                ++ iterencode ind (S lvl) x ++ items_tail ind (S lvl) items
                ++ newline_indent ind lvl ++ lit "}" ++ rest));
      [| apply skip_ws_indent; reflexivity ].
    rewrite (object_members_reads ind (S lvl) lvl items Hl Hwl key x fuel rest
               Hx Hk Hwx ltac:(lia)).
    rewrite dict_of_pairs_distinct by exact Hnd. reflexivity.
Qed.

End RoundTrip.

(** ** The encoded text is ASCII, and UTF-8 carries ASCII unchanged *)

Lemma ascii_check (s : pystr) : forallb (fun c => c <? 128) s = true -> ascii_text s.
Proof.
  intros H. apply Forall_forall. intros c Hc.
  rewrite forallb_forall in H. apply N.ltb_lt. apply H. exact Hc.
Qed.

Lemma ascii_scalar (s : pystr) : ascii_text s -> scalar_text s.
Proof.
  apply Forall_impl. intros c Hc. unfold is_scalar.
  destruct (N.ltb_spec c 0xD800); [reflexivity | lia].
Qed.

Lemma ascii_app (a b : pystr) : ascii_text a -> ascii_text b -> ascii_text (a ++ b).
Proof. intros Ha Hb. apply Forall_app. split; assumption. Qed.

Lemma str_N_ascii (n : N) : ascii_text (str_N n).
Proof. apply digits_ascii, str_N_digits. Qed.

Lemma str_int_ascii (z : Z) : ascii_text (str_int z).
Proof.
  unfold str_int. destruct (z <? 0)%Z; [constructor; [reflexivity|]|]; apply str_N_ascii.
Qed.

Lemma pad0_ascii (w : nat) (n : N) : ascii_text (pad0 w n).
Proof.
  unfold pad0, zfill. apply ascii_app; [|apply str_N_ascii].
  apply Forall_forall. intros c Hc. apply repeat_spec in Hc. subst c. reflexivity.
Qed.

Lemma isoformat_ascii (t : datetime) : ascii_text (isoformat t).
Proof.
  unfold isoformat, format_time.
  repeat first [ apply pad0_ascii | apply ascii_check; reflexivity | apply ascii_app ].
  destruct (microsecond t =? 0); [constructor|].
  apply ascii_app; [apply ascii_check; reflexivity | apply pad0_ascii].
Qed.

Lemma newline_indent_ascii (ind lvl : nat) : ascii_text (newline_indent ind lvl).
Proof.
  unfold newline_indent. constructor; [reflexivity|].
  apply Forall_forall. intros c Hc. apply repeat_spec in Hc. subst c. reflexivity.
Qed.

Lemma hex_char_ascii (d : N) : d < 16 -> hex_char d < 128.
Proof. intros H. unfold hex_char. destruct (d <? 10); lia. Qed.

Lemma u_escape_ascii (n : N) : ascii_text (u_escape n).
Proof.
  unfold u_escape, hex4.
  repeat (constructor;
          [first [reflexivity
                 | apply hex_char_ascii, N.mod_upper_bound; discriminate]|]).
  constructor.
Qed.

Lemma escape_char_ascii (c : codepoint) : ascii_text (escape_char c).
Proof.
  unfold escape_char. destruct (needs_escape c) eqn:Hn.
  - unfold escape_dct.
    repeat match goal with
           | |- context [if ?b then _ else _] =>
               destruct b; [apply ascii_check; reflexivity|]
           end.
    destruct (c <? 65536); [apply u_escape_ascii|].
    apply ascii_app; apply u_escape_ascii.
  - unfold needs_escape in Hn. apply orb_false_elim in Hn. destruct Hn as [_ Hn].
    apply negb_false_iff, andb_prop in Hn. destruct Hn as [_ Hn].
    apply N.leb_le in Hn. constructor; [lia | constructor].
Qed.

Lemma flat_map_escape_ascii (s : pystr) : ascii_text (flat_map escape_char s).
Proof.
  induction s as [|c s IH]; [constructor|].
  cbn [flat_map]. apply ascii_app; [apply escape_char_ascii | exact IH].
Qed.

Lemma encode_basestring_ascii_ascii (s : pystr) : ascii_text (encode_basestring_ascii s).
Proof.
  unfold encode_basestring_ascii. constructor; [reflexivity|].
  apply ascii_app; [apply flat_map_escape_ascii | apply ascii_check; reflexivity].
Qed.

Section Payload.
Context {F : FloatOps} {L : FloatLaws F}.

Lemma iterencode_ascii (ind : nat) (v : pyval) :
  forall lvl, ascii_text (iterencode ind lvl v).
Proof.
  induction v as [|b|z|x|s|l IHl|items IHi] using pyval_induction; intros lvl.
  - apply ascii_check. reflexivity.
  - destruct b; apply ascii_check; reflexivity.
  - apply str_int_ascii.
  - destruct (float_repr_token x) as (i & f & e & _ & _ & _ & H & _). exact H.
  - apply encode_basestring_ascii_ascii.
  - destruct l as [|x l]; [apply ascii_check; reflexivity|].
    rewrite iterencode_list. inversion IHl as [|? ? Hx Hl]; subst.
    repeat first [ apply ascii_app | apply newline_indent_ascii | apply Hx
                 | apply ascii_check; reflexivity ].
    clear Hx IHl. induction Hl as [|y l Hy Hl IH]; [constructor|].
    rewrite elems_tail_cons. constructor; [reflexivity|].
    repeat first [ apply ascii_app | apply newline_indent_ascii | apply Hy | exact IH ].
  - destruct items as [|[key x] items]; [apply ascii_check; reflexivity|].
    rewrite iterencode_dict. inversion IHi as [|? ? Hx Hl]; subst.
    unfold item_text. cbn [fst snd] in *.
    repeat first [ apply ascii_app | apply newline_indent_ascii | apply Hx
                 | apply encode_basestring_ascii_ascii
                 | apply ascii_check; reflexivity ].
    clear Hx IHi. induction Hl as [|[key' y] l Hy Hl IH]; [constructor|].
    rewrite items_tail_cons. cbn [snd] in Hy. constructor; [reflexivity|].
    apply ascii_app; [apply newline_indent_ascii|].
    constructor; [reflexivity|].
    repeat first [ apply flat_map_escape_ascii | apply Hy | exact IH
                 | apply ascii_check; reflexivity | apply ascii_app ].
Qed.

(** ASCII text is its own UTF-8 encoding. *)
Lemma utf8_ascii (s : pystr) :
  ascii_text s ->
  exists bs, str_encode_utf8 s = Some bs /\ bytes_decode_utf8 bs = Some s.
Proof.
  induction s as [|c s IH]; intros H; [exists []; split; reflexivity|].
  inversion H as [|? ? Hc Hs]; subst. destruct (IH Hs) as (bs & He & Hd).
  destruct (Byte.of_N c) as [b|] eqn:Eb;
    [|apply Byte.of_N_None_iff in Eb; lia].
  exists (b :: bs). cbn [str_encode_utf8]. unfold utf8_units.
  destruct (N.ltb_spec c 0x80) as [_|?]; [|lia].
  cbn [to_bytes]. rewrite Eb, He. split; [reflexivity|].
  cbn [bytes_decode_utf8]. rewrite (Byte.to_of_N c Eb).
  destruct (N.ltb_spec c 0x80) as [_|?]; [|lia].
  rewrite Hd. reflexivity.
Qed.

Lemma size_le_length (ind : nat) (v : pyval) :
  forall lvl, (size v <= length (iterencode ind lvl v))%nat.
Proof.
  induction v as [|b|z|x|s|l IHl|items IHi] using pyval_induction; intros lvl.
  - cbv. lia.
  - destruct b; cbv; lia.
  - cbn [size iterencode]. pose proof (str_int_starts_number z) as H.
    destruct (str_int z); [contradiction | cbn [length]; lia].
  - cbn [size iterencode].
    destruct (float_repr_token x) as (i & f & e & _ & _ & _ & _ & H).
    destruct (float_repr x); [contradiction | cbn [length]; lia].
  - cbn [size iterencode]. unfold encode_basestring_ascii. cbn [length]. lia.
  - destruct l as [|x l]; [cbv; lia|].
    rewrite iterencode_list, size_list, elems_size_cons. inversion IHl as [|? ? Hx Hl]; subst.
    rewrite !length_app. unfold newline_indent at 1 2. cbn [length].
    change (length (lit "[")) with 1%nat. specialize (Hx (S lvl)).
    assert (elems_size l <= length (elems_tail ind (S lvl) l))%nat; [|lia].
    clear Hx IHl. induction Hl as [|y l Hy Hl IH]; [cbv; lia|].
    rewrite elems_tail_cons, elems_size_cons. cbn [length]. rewrite !length_app.
    specialize (Hy (S lvl)). lia.
  - destruct items as [|[key x] items]; [cbv; lia|].
    rewrite iterencode_dict, size_dict, items_size_cons. inversion IHi as [|? ? Hx Hl]; subst.
    cbn [snd] in *. unfold item_text. cbn [fst snd].
    rewrite !length_app. unfold newline_indent at 1 2. cbn [length].
    change (length (lit "{")) with 1%nat. specialize (Hx (S lvl)).
    assert (items_size items <= length (items_tail ind (S lvl) items))%nat; [|lia].
    clear Hx IHi. induction Hl as [|[key' y] l Hy Hl IH]; [cbv; lia|].
    rewrite items_tail_cons, items_size_cons. cbn [length snd] in *. rewrite !length_app.
    cbn [length]. rewrite !length_app. specialize (Hy (S lvl)). lia.
Qed.

(** What [json.dumps] wrote, [json.loads] reads back. *)
Lemma json_decode_dumps (ind : nat) (v : pyval) :
  well_formed v -> json_decode (json_dumps ind v) = Some v.
Proof.
  intros Hw. unfold json_decode, json_dumps.
  destruct (iterencode_opens ind 0 v) as (c & tl & Ec & Hc & _).
  assert (Hskip : skip_ws (iterencode ind 0 v) = iterencode ind 0 v).
  { rewrite Ec. apply skip_ws_keep. exact Hc. }
  rewrite Hskip.
  pose proof (reads_back_all ind v 0%nat (S (length (iterencode ind 0 v))) []
                Hw ltac:(pose proof (size_le_length ind v 0%nat); lia) eq_refl) as H.
  rewrite app_nil_r in H. rewrite H. reflexivity.
Qed.

Lemma json_loads_dumps (ind : nat) (v : pyval) :
  well_formed v ->
  exists payload,
    str_encode_utf8 (json_dumps ind v) = Some payload
    /\ json_loads payload = Some v.
Proof.
  intros Hw.
  destruct (utf8_ascii (json_dumps ind v) (iterencode_ascii ind v 0%nat))
    as (bs & He & Hd).
  exists bs. split; [exact He|].
  unfold json_loads. rewrite Hd. apply json_decode_dumps. exact Hw.
Qed.

End Payload.

(** ** The published payload *)

Lemma enum_scalar (names : list pystr) (x : pystr) :
  forallb (forallb (fun c => c <? 128)) names = true -> In x names -> scalar_text x.
Proof.
  intros H Hin. rewrite forallb_forall in H.
  apply ascii_scalar, ascii_check, H, Hin.
Qed.

Section Record.
Context {F : FloatOps}.

Ltac text_field :=
  first
    [ exact I
    | assumption
    | apply ascii_scalar, ascii_check; reflexivity
    | apply ascii_scalar, ascii_app; [apply isoformat_ascii | apply ascii_check; reflexivity]
    | apply ascii_scalar, ascii_app; [apply ascii_check; reflexivity | apply str_int_ascii]
    | eapply enum_scalar; [|eassumption]; reflexivity ].

(** A generated record is a dict of distinct keys whose strings are
    text, provided the strings that Faker supplied are. *)
Lemma generate_transaction_shape (d : draws) (r : pyval) :
  faker_text d -> generate_transaction d = Some r ->
  well_formed r /\ exists items, r = PDict items.
Proof.
  intros (T1 & T2 & T3 & T4 & T5 & T6 & T7 & T8 & T9 & T10).
  unfold generate_transaction.
  destruct (choice_In transaction_types (d_transaction_type d)) as (x1 & -> & H1);
    [discriminate|].
  destruct (choice_In categories (d_category d)) as (x2 & -> & H2); [discriminate|].
  destruct (choice_In currencies (d_currency d)) as (x3 & -> & H3); [discriminate|].
  destruct (choice_In statuses (d_status d)) as (x4 & -> & H4); [discriminate|].
  destruct (choice_In payment_methods (d_payment_method d)) as (x5 & -> & H5);
    [discriminate|].
  destruct (choice_In device_types (d_device_type d)) as (x6 & -> & H6); [discriminate|].
  intros Hr.
  apply (f_equal (fun o => match o with Some v => v | None => PNone end)) in Hr.
  cbv beta iota in Hr. subst r. split; [|eexists; reflexivity].
  cbn [well_formed map fst].
  repeat match goal with |- _ /\ _ => split end; try reflexivity; text_field.
Qed.

End Record.

Section PayloadClaim.
Context {F : FloatOps} {L : FloatLaws F}.

(** C3. For every generated record (the strings supplied by Faker
    being text), the payload that [send_message] puts on the queue is
    the UTF-8 encoding of [json.dumps(record, indent=2)], the record
    being a JSON object, and [json.loads] of that payload is the record
    itself: the same keys, in the same order, with the same values. *)
Theorem published_payload_round_trip (d : draws) :
  faker_text d ->
  exists r payload,
    generate_transaction d = Some r
    /\ (exists items, r = PDict items)
    /\ str_encode_utf8 (json_dumps 2 r) = Some payload
    /\ (forall (W : oracle) i queue_name s,
          send_events W i (next_obj s) queue_name r
          = Called (pymqi_Queue (next_obj s) queue_name) (on_Queue W i)
            :: match on_Queue W i with
               | Succeeds =>
                   Called (queue_put (next_obj s) payload) (on_put W i)
                   :: match on_put W i with
                      | Succeeds => [Called (queue_close (next_obj s)) (on_close W i)]
                      | Raises _ => []
                      end
               | Raises _ => []
               end
          /\ trace (snd (send_message W i queue_name r s))
             = trace s ++ send_events W i (next_obj s) queue_name r)
    /\ json_loads payload = Some r.
Proof.
  intros Ht. destruct (generate_transaction_Some d) as [r Hr].
  destruct (generate_transaction_shape d r Ht Hr) as [Hw Hobj].
  destruct (json_loads_dumps 2 r Hw) as (payload & He & Hl).
  exists r, payload. repeat split; try assumption.
  - unfold send_events. rewrite He. destruct (on_Queue W i); reflexivity.
  - rewrite send_message_run. reflexivity.
Qed.

End PayloadClaim.

(** The stand-in floats obey the laws of [repr]. *)
Lemma whole_float_repr_roundtrip (x : N) :
  @float_of_str whole_float (@float_repr whole_float x) = Some x.
Proof.
  cbn [float_of_str float_repr whole_float].
  rewrite take_digits_app by reflexivity.
  rewrite (take_digits_all _ (str_N_digits x)). cbn [fst snd app].
  destruct (str_N x) eqn:E; [elim (str_N_nonempty x E)|].
  rewrite <- E, digits_val_str_N. reflexivity.
Qed.

Lemma whole_float_repr_literal (x : N) :
  @is_float_literal (@float_repr whole_float x) = true.
Proof.
  unfold is_float_literal, match_number. cbn [float_repr whole_float].
  rewrite (match_integer_app (str_N x) (lit ".0") (str_N x) []);
    [reflexivity | reflexivity |].
  apply (match_integer_str_N x []). left. reflexivity.
Qed.

Lemma whole_float_laws : FloatLaws whole_float.
Proof.
  split; [exact whole_float_repr_roundtrip | exact whole_float_repr_literal].
Qed.

Lemma sample_draws_text : faker_text sample_draws.
Proof.
  unfold faker_text, scalar_text.
  repeat split; apply Forall_forall; intros c Hc;
    match goal with
    | H : In c ?l |- _ =>
        assert (Hall : forallb is_scalar l = true) by (vm_compute; reflexivity);
        rewrite forallb_forall in Hall; apply Hall; exact H
    end.
Qed.

Lemma published_payload_round_trip_witness :
  faker_text sample_draws
  /\ exists r payload,
       generate_transaction sample_draws = Some r
       /\ (exists items, r = PDict items)
       /\ str_encode_utf8 (json_dumps 2 r) = Some payload
       /\ (forall (W : oracle) i queue_name s,
             send_events W i (next_obj s) queue_name r
             = Called (pymqi_Queue (next_obj s) queue_name) (on_Queue W i)
               :: match on_Queue W i with
                  | Succeeds =>
                      Called (queue_put (next_obj s) payload) (on_put W i)
                      :: match on_put W i with
                         | Succeeds => [Called (queue_close (next_obj s)) (on_close W i)]
                         | Raises _ => []
                         end
                  | Raises _ => []
                  end
             /\ trace (snd (send_message W i queue_name r s))
                = trace s ++ send_events W i (next_obj s) queue_name r)
       /\ json_loads payload = Some r.
Proof.
  split; [exact sample_draws_text|].
  apply (@published_payload_round_trip whole_float whole_float_laws sample_draws).
  exact sample_draws_text.
Defined.

(** ** The model run on concrete inputs *)

Example isoformat_sample :
  isoformat sample_time = lit "2024-03-07T09:05:00.123456".
Proof. vm_compute. reflexivity. Qed.

Example json_dumps_nested :
  @json_dumps whole_float 2
    (PDict [(lit "a", PList [PInt (-5); PNone]); (lit "b", PStr [233; 10])])
  = [123; 10; 32; 32; 34; 97; 34; 58; 32; 91; 10; 32; 32; 32; 32; 45; 53; 44;
     10; 32; 32; 32; 32; 110; 117; 108; 108; 10; 32; 32; 93; 44; 10; 32; 32;
     34; 98; 34; 58; 32; 34; 92; 117; 48; 48; 101; 57; 92; 110; 34; 10; 125].
Proof. vm_compute. reflexivity. Qed.

Example json_loads_nested :
  option_map (@json_dumps whole_float 2)
    (json_loads
       (map (fun c => match Byte.of_N c with Some b => b | None => x00 end)
          [123; 34; 107; 34; 58; 91; 49; 44; 32; 116; 114; 117; 101; 44; 34;
           92; 117; 100; 56; 51; 100; 92; 117; 100; 99; 101; 52; 34; 93; 125]))
  = Some ([123; 10; 32; 32; 34; 107; 34; 58; 32; 91; 10; 32; 32; 32; 32; 49;
           44; 10; 32; 32; 32; 32; 116; 114; 117; 101; 44; 10; 32; 32; 32; 32;
           34; 92; 117; 100; 56; 51; 100; 92; 117; 100; 99; 101; 52; 34; 10;
           32; 32; 93; 10; 125]).
Proof. vm_compute. reflexivity. Qed.

Example rough_world_run :
  let r := main default_config rough_world 3 initial_state in
  fst r = Returns tt
  /\ message_count (snd r) = 2%nat
  /\ successful_publishes (trace (snd r)) = 2%nat
  /\ disconnect_calls (trace (snd r)) = 1%nat.
Proof. vm_compute. repeat split. Qed.

Example unreachable_world_run :
  let r := main default_config unreachable_world 3 initial_state in
  fst r = Returns tt
  /\ message_count (snd r) = 0%nat
  /\ connect_calls (trace (snd r)) = 1%nat
  /\ successful_publishes (trace (snd r)) = 0%nat
  /\ disconnect_calls (trace (snd r)) = 0%nat.
Proof. vm_compute. repeat split. Qed.

(* ================================================================== *)
(** * Part III. Further properties of the code                          *)
(* ================================================================== *)

(** ** The report of a publish *)

Section Report.
Context {F : FloatOps}.

Lemma field_shown (r : pyval) (key : string) (v : pyval) (text : pystr) (s : state) :
  getitem r (lit key) = Some v -> py_str v = Some text ->
  field r key s = (Returns text, s) /\ shown r key = text.
Proof.
  intros Hg Hp. unfold field, shown. rewrite Hg, Hp. split; reflexivity.
Qed.

(** The fields the report quotes are scalars of the generated record. *)
Lemma generate_transaction_shown (d : draws) :
  exists r ty cur st,
    generate_transaction d = Some r
    /\ In ty transaction_types /\ In cur currencies /\ In st statuses
    /\ getitem r (lit "timestamp") = Some (PStr (isoformat (d_now d) ++ lit "Z"))
    /\ getitem r (lit "transaction_id") = Some (PStr (d_transaction_id d))
    /\ getitem r (lit "transaction_type") = Some (PStr ty)
    /\ getitem r (lit "currency") = Some (PStr cur)
    /\ getitem r (lit "amount")
       = Some (PFloat (py_round (random_uniform (float_of_int 10) (float_of_int 5000)
                                   (d_amount d)) 2))
    /\ getitem r (lit "customer_name") = Some (PStr (d_customer_name d))
    /\ getitem r (lit "customer_id")
       = Some (PStr (lit "CUST-" ++ str_int (randint 10000 99999 (d_customer d))))
    /\ getitem r (lit "status") = Some (PStr st).
Proof.
  unfold generate_transaction.
  destruct (choice_In transaction_types (d_transaction_type d)) as (x1 & -> & H1);
    [discriminate|].
  destruct (choice_In categories (d_category d)) as (x2 & -> & H2); [discriminate|].
  destruct (choice_In currencies (d_currency d)) as (x3 & -> & H3); [discriminate|].
  destruct (choice_In statuses (d_status d)) as (x4 & -> & H4); [discriminate|].
  destruct (choice_In payment_methods (d_payment_method d)) as (x5 & -> & H5);
    [discriminate|].
  destruct (choice_In device_types (d_device_type d)) as (x6 & -> & H6); [discriminate|].
  eexists. exists x1, x3, x4.
  split; [reflexivity|]. repeat (split; [assumption|]).
  repeat split; reflexivity.
Qed.

Lemma report_sent_generated (d : draws) (r : pyval) (s : state) :
  generate_transaction d = Some r ->
  report_sent r s =
  (Returns tt,
   {| message_count := message_count s;
      next_obj := next_obj s;
      trace := trace s ++ map Printed (sent_lines (message_count s) r) |}).
Proof.
  intros Hr.
  destruct (generate_transaction_shown d)
    as (r' & ty & cur & st & Hr' & _ & _ & _ & Hts & Hid & Hty & Hcur & Hamt
        & Hname & Hcid & Hst).
  rewrite Hr in Hr'. injection Hr' as <-.
  assert (E : forall key v text, getitem r (lit key) = Some v -> py_str v = Some text ->
                field r key = ret (shown r key)).
  { intros key v text Hg Hp. unfold field, shown. rewrite Hg, Hp. reflexivity. }
  unfold report_sent.
  rewrite (E _ _ _ Hts eq_refl), (E _ _ _ Hid eq_refl), (E _ _ _ Hty eq_refl),
    (E _ _ _ Hcur eq_refl), (E _ _ _ Hamt eq_refl), (E _ _ _ Hname eq_refl),
    (E _ _ _ Hcid eq_refl), (E _ _ _ Hst eq_refl).
  cbv [bind ret get_message_count print emit message_count next_obj trace].
  unfold sent_lines, sent_header. cbn [map]. rewrite <- !app_assoc. reflexivity.
Qed.

End Report.

(** ** One pass through the loop, event by event *)

Section Iteration.
Context {F : FloatOps}.
Variable cfg : config.
Variable W : oracle.

(** The inner [try] on a generated record. *)
Lemma try_send_trace (i : nat) (d : draws) (t : pyval) (s : state) :
  generate_transaction d = Some t ->
  try_send cfg W i t s =
  (match send_outcome W i t with
   | Raised e => if is_Exception e then Returns tt else Raised e
   | _ => Returns tt
   end,
   {| message_count :=
        (message_count s + if is_returns (send_outcome W i t) then 1 else 0)%nat;
      next_obj := S (next_obj s);
      trace := trace s ++ send_events W i (next_obj s) (MQ_QUEUE cfg) t
               ++ map Printed (attempt_lines W i (message_count s) t) |}).
Proof.
  intros Ht. unfold try_send, try_except, attempt_lines.
  rewrite bind_run, send_message_run.
  pose proof (send_outcome_not_running W i t) as Hnr.
  destruct (send_outcome W i t) as [j|e|]; [| |contradiction]; cbn [is_returns].
  - rewrite bind_run. unfold get_message_count. rewrite bind_run.
    unfold set_message_count. cbn [message_count next_obj trace].
    rewrite (report_sent_generated d t _ Ht). cbn [message_count next_obj trace].
    rewrite Nat.add_1_r, <- app_assoc. reflexivity.
  - destruct (is_Exception e).
    + unfold print. rewrite emit_run. cbn [message_count next_obj trace map].
      rewrite Nat.add_0_r, <- app_assoc. reflexivity.
    + cbn [map]. rewrite Nat.add_0_r, app_nil_r. reflexivity.
Qed.

(** One pass through the body of [while True]. *)
Lemma loop_body_trace (i : nat) (s : state) :
  loop_body cfg W i s =
  (match iteration_exit W i with
   | Some e => Raised e
   | None => Returns tt
   end,
   {| message_count :=
        match on_generate W i with
        | Succeeds =>
            (message_count s + if is_returns (publish_outcome W i) then 1 else 0)%nat
        | Raises _ => message_count s
        end;
      next_obj :=
        match on_generate W i with
        | Succeeds => S (next_obj s)
        | Raises _ => next_obj s
        end;
      trace := trace s ++ iteration_events cfg W i (next_obj s) (message_count s) |}).
Proof.
  unfold loop_body, iteration_exit, iteration_events, publish_outcome, sleep_exit,
    sleep_events.
  rewrite bind_run, call_generate_transaction_run.
  destruct (on_generate W i) as [|e].
  2:{ rewrite app_nil_r. destruct s; reflexivity. }
  destruct (generate_transaction_Some (draw W i)) as [t Ht]. rewrite Ht.
  rewrite bind_run, (try_send_trace i (draw W i) t s Ht).
  pose proof (send_outcome_not_running W i t) as Hnr.
  destruct (send_outcome W i t) as [j|e|]; [| |contradiction]; cbn [is_returns].
  - unfold extern. rewrite bind_run, emit_run. cbn [message_count next_obj trace].
    rewrite <- !app_assoc. destruct (on_sleep W i); reflexivity.
  - destruct (is_Exception e).
    + unfold extern. rewrite bind_run, emit_run. cbn [message_count next_obj trace].
      rewrite <- !app_assoc. destruct (on_sleep W i); reflexivity.
    + rewrite app_nil_r. reflexivity.
Qed.

(** The lines of the loop start with the outbox sign, a blank, a
    dash or the cross mark, never with a newline. *)
Lemma iteration_events_lines (i obj count : nat) :
  filter starts_with_newline (iteration_events cfg W i obj count) = [].
Proof.
  unfold iteration_events.
  destruct (on_generate W i); [|reflexivity].
  destruct (generate_transaction (draw W i)) as [t|]; [|reflexivity].
  rewrite !filter_app.
  assert (Hs : filter starts_with_newline
                 (send_events W i obj (MQ_QUEUE cfg) t) = []).
  { unfold send_events. destruct (on_Queue W i); [|reflexivity].
    destruct (str_encode_utf8 (json_dumps 2 t)); [|reflexivity].
    destruct (on_put W i); reflexivity. }
  rewrite Hs. unfold attempt_lines, sleep_events.
  destruct (send_outcome W i t) as [j|e|]; [reflexivity | | reflexivity].
  destruct (is_Exception e); reflexivity.
Qed.

Lemma while_true_lines (fuel : nat) : forall i s,
  exists evs,
    trace (snd (while_true cfg W fuel i s)) = trace s ++ evs
    /\ filter starts_with_newline evs = [].
Proof.
  induction fuel as [|fuel IH]; intros i s; cbn [while_true].
  - exists []. split; [symmetry; apply app_nil_r | reflexivity].
  - rewrite bind_run, loop_body_trace.
    destruct (iteration_exit W i) as [e|].
    + eexists. split; [reflexivity | apply iteration_events_lines].
    + match goal with |- context [while_true cfg W fuel (S i) ?st] =>
        destruct (IH (S i) st) as (evs & Ht & Hl)
      end.
      cbn [trace] in Ht. rewrite Ht, <- app_assoc.
      eexists. split; [reflexivity|].
      rewrite filter_app, iteration_events_lines, Hl. reflexivity.
Qed.

End Iteration.

(** ** How [main] starts and ends *)

Section Exits.
Context {F : FloatOps}.
Variable cfg : config.
Variable W : oracle.

Lemma main_started (fuel : nat) :
  on_connect W = Succeeds ->
  exists s0,
    main cfg W fuel initial_state = producer cfg W fuel s0
    /\ at_start s0
    /\ trace s0 = startup_events cfg W
                  ++ [Printed ([0x2705] ++ lit " Connected to Queue Manager: "
                               ++ MQ_QUEUE_MANAGER cfg)].
Proof.
  intros H.
  unfold main, banner, connect_to_mq, try_except, extern, print, startup_events.
  rewrite H.
  cbv [bind emit ret initial_state message_count next_obj trace].
  eexists. split; [reflexivity|]. split; [repeat split; reflexivity | reflexivity].
Qed.

Lemma main_not_started (fuel : nat) (e : exn) :
  on_connect W = Raises e ->
  main cfg W fuel initial_state =
  (if is_Exception e then Returns tt else Raised e,
   {| message_count := 0;
      next_obj := 0;
      trace := startup_events cfg W
               ++ if is_Exception e then [Printed (connect_failed_line e)] else [] |}).
Proof.
  intros H.
  unfold main, banner, connect_to_mq, try_except, extern, print, startup_events.
  rewrite H.
  destruct e; cbv [bind emit ret raise is_Exception initial_state
                     message_count next_obj trace]; reflexivity.
Qed.

Lemma startup_events_calls :
  connect_calls (startup_events cfg W) = 1%nat
  /\ disconnect_calls (startup_events cfg W) = 0%nat.
Proof. split; reflexivity. Qed.

Lemma closing_events_connects (r : outcome unit) (n : nat) :
  connect_calls (closing_events W r n) = 0%nat.
Proof.
  destruct r as [[]|e|]; cbn [closing_events]; unfold shutdown_events;
    [| destruct e |]; destruct (on_disconnect W); reflexivity.
Qed.

Lemma closing_events_calls (r : outcome unit) (n : nat) :
  filter is_call (closing_events W r n) =
  match r with
  | Running => []
  | _ => [Called qmgr_disconnect (on_disconnect W)]
  end.
Proof.
  destruct r as [[]|e|]; cbn [closing_events]; unfold shutdown_events;
    [| destruct e |]; destruct (on_disconnect W); reflexivity.
Qed.

(** The run of [main] when the loop is left in iteration [k]. *)
Lemma main_exit (k fuel : nat) (e : exn) :
  on_connect W = Succeeds ->
  runs_until W k ->
  iteration_exit W k = Some e ->
  (k < fuel)%nat ->
  exists s before,
    main cfg W fuel initial_state = (exit_outcome e, s)
    /\ trace s = before ++ handler_events e
                 ++ shutdown_events W (successful_publishes before)
    /\ message_count s = successful_publishes before
    /\ disconnect_calls before = 0%nat
    /\ filter is_summary before = []
    /\ filter starts_with_newline before = [].
Proof.
  intros Hc Hrun Hexit Hfuel.
  destruct (main_started fuel Hc) as (s0 & Hmain & Hs0 & Ht0).
  rewrite producer_run in Hmain. cbv zeta in Hmain.
  set (start := {| message_count := 0; next_obj := next_obj s0; trace := trace s0 |})
    in *.
  pose proof (while_true_exit cfg W k fuel 0 start e) as Hr.
  rewrite Hr in Hmain;
    [| intros j Hj; apply Hrun; lia | exact Hexit | exact Hfuel].
  pose proof (while_true_step cfg W fuel 0 start) as (evs & Ht & Hcnt & Hl & _).
  destruct (while_true_lines cfg W fuel 0 start) as (evs' & Ht' & Hlines).
  rewrite Ht in Ht'. apply app_inv_head in Ht'. subst evs'.
  subst start. cbn [message_count trace] in *.
  destruct Hs0 as (_ & _ & Hp0 & Hd0 & _ & Hsum0 & _).
  assert (Hb : successful_publishes (trace s0 ++ evs)
               = message_count (snd (while_true cfg W fuel 0
                    {| message_count := 0; next_obj := next_obj s0;
                       trace := trace s0 |}))).
  { rewrite successful_publishes_app, Hp0, Hcnt. reflexivity. }
  eexists. exists (trace s0 ++ evs).
  split; [exact Hmain|]. cbn [trace message_count].
  split; [rewrite Hb, Ht, <- app_assoc; reflexivity|].
  split; [symmetry; exact Hb|].
  split.
  { rewrite disconnect_calls_app, Hd0, (loop_event_no_disconnect evs Hl). reflexivity. }
  split.
  { rewrite filter_app, Hsum0, (loop_event_no_summary evs Hl). reflexivity. }
  rewrite filter_app, Hlines, Ht0. reflexivity.
Qed.

(** Nothing that starts with a newline is among events without such
    a line. *)
Lemma no_newline_line (evs : list event) (text : pystr) :
  filter starts_with_newline evs = [] -> ~ In (Printed (10 :: text)) evs.
Proof.
  intros H Hin.
  assert (Hf : In (Printed (10 :: text)) (filter starts_with_newline evs))
    by (apply filter_In; split; [exact Hin | reflexivity]).
  rewrite H in Hf. exact Hf.
Qed.

End Exits.

Section Lifecycle.
Context {F : FloatOps}.
Variable cfg : config.
Variable W : oracle.

(** X1. An [Exception] with message [msg] that leaves the loop body
    in iteration [k] (raised by the generator or by the sleep: one
    raised by [send_message] is taken by the inner handler) ends the
    loop: [main] prints the line "Error in producer loop: " (after a
    newline and the cross mark) followed by [msg], attempts the
    disconnect once, right after that line, and returns normally. The
    counter holds the number of completed publishes, and when the
    disconnect succeeds the run ends with the one summary line,
    "Disconnected from MQ. Total messages sent: " followed by the
    decimal numeral of that number. *)
Theorem unexpected_error_leads_to_shutdown (k fuel : nat) (msg : pystr) :
  on_connect W = Succeeds ->
  runs_until W k ->
  iteration_exit W k = Some (Exception_ msg) ->
  (k < fuel)%nat ->
  exists s before digits,
    main cfg W fuel initial_state = (Returns tt, s)
    /\ disconnect_calls (trace s) = 1%nat
    /\ message_count s = successful_publishes (trace s)
    /\ successful_publishes before = successful_publishes (trace s)
    /\ decimal_numeral (successful_publishes before) digits
    /\ trace s
       = before
         ++ Printed ([10; 0x274c] ++ lit " Error in producer loop: " ++ msg)
         :: Called qmgr_disconnect (on_disconnect W)
         :: match on_disconnect W with
            | Succeeds =>
                [Printed ([10; 0x2705]
                          ++ lit " Disconnected from MQ. Total messages sent: "
                          ++ digits)]
            | Raises _ => []
            end
    /\ filter is_summary (trace s)
       = match on_disconnect W with
         | Succeeds =>
             [Printed ([10; 0x2705]
                       ++ lit " Disconnected from MQ. Total messages sent: "
                       ++ digits)]
         | Raises _ => []
         end.
Proof.
  intros Hc Hrun Hexit Hfuel.
  destruct (main_exit cfg W k fuel _ Hc Hrun Hexit Hfuel)
    as (s & before & Hm & Ht & Hcnt & Hd & Hsum & _).
  cbn [exit_outcome handler_events] in *.
  assert (Hp : successful_publishes (trace s) = successful_publishes before).
  { rewrite Ht, !successful_publishes_app, shutdown_events_publishes.
    change (successful_publishes [Printed (loop_error_line (Exception_ msg))])
      with 0%nat. lia. }
  exists s, before, (str_nat (successful_publishes before)).
  split; [exact Hm|]. split.
  { rewrite Ht, !disconnect_calls_app, shutdown_events_disconnects, Hd. reflexivity. }
  split; [rewrite Hp; exact Hcnt|]. split; [symmetry; exact Hp|].
  split; [apply str_nat_decimal_numeral|]. split.
  - rewrite Ht. unfold shutdown_events. destruct (on_disconnect W); reflexivity.
  - rewrite Ht, !filter_app, shutdown_events_summary, Hsum.
    destruct (on_disconnect W); reflexivity.
Qed.

(** X2. An exception that is neither an [Exception] nor the operator's
    interrupt ([SystemExit], [GeneratorExit]) and leaves the loop body
    in iteration [k] is taken by no handler: the [finally] clause still
    attempts the disconnect once (and prints the summary if it
    succeeded), and the exception leaves [main]. Nothing is printed
    about the exception: the run holds neither the line "Producer
    stopped by user" nor a line "Error in producer loop: ...", and
    before the disconnect no line starts with a newline at all. *)
Theorem base_exception_escapes_after_shutdown (k fuel : nat) (msg : pystr) :
  on_connect W = Succeeds ->
  runs_until W k ->
  iteration_exit W k = Some (BaseException_ msg) ->
  (k < fuel)%nat ->
  exists s before digits,
    main cfg W fuel initial_state = (Raised (BaseException_ msg), s)
    /\ disconnect_calls before = 0%nat
    /\ disconnect_calls (trace s) = 1%nat
    /\ message_count s = successful_publishes (trace s)
    /\ successful_publishes before = successful_publishes (trace s)
    /\ decimal_numeral (successful_publishes before) digits
    /\ trace s
       = before
         ++ Called qmgr_disconnect (on_disconnect W)
         :: match on_disconnect W with
            | Succeeds =>
                [Printed ([10; 0x2705]
                          ++ lit " Disconnected from MQ. Total messages sent: "
                          ++ digits)]
            | Raises _ => []
            end
    /\ filter starts_with_newline before = []
    /\ ~ In (Printed ([10; 10; 0x26a0; 0xfe0f] ++ lit "  Producer stopped by user"))
            (trace s)
    /\ forall text,
         ~ In (Printed ([10; 0x274c] ++ lit " Error in producer loop: " ++ text))
              (trace s).
Proof.
  intros Hc Hrun Hexit Hfuel.
  destruct (main_exit cfg W k fuel _ Hc Hrun Hexit Hfuel)
    as (s & before & Hm & Ht & Hcnt & Hd & Hsum & Hlines).
  cbn [exit_outcome handler_events app] in *.
  assert (Hp : successful_publishes (trace s) = successful_publishes before).
  { rewrite Ht, !successful_publishes_app, shutdown_events_publishes. lia. }
  assert (Hshape : trace s
                   = before
                     ++ Called qmgr_disconnect (on_disconnect W)
                     :: match on_disconnect W with
                        | Succeeds =>
                            [Printed ([10; 0x2705]
                                      ++ lit " Disconnected from MQ. Total messages sent: "
                                      ++ str_nat (successful_publishes before))]
                        | Raises _ => []
                        end).
  { rewrite Ht. unfold shutdown_events. destruct (on_disconnect W); reflexivity. }
  exists s, before, (str_nat (successful_publishes before)).
  split; [exact Hm|]. split; [exact Hd|]. split.
  { rewrite Ht, !disconnect_calls_app, shutdown_events_disconnects, Hd. reflexivity. }
  split; [rewrite Hp; exact Hcnt|]. split; [symmetry; exact Hp|].
  split; [apply str_nat_decimal_numeral|]. split; [exact Hshape|].
  split; [exact Hlines|].
  split; [|intros text]; rewrite Hshape; intros Hin;
    apply in_app_or in Hin; destruct Hin as [Hin|Hin];
    try (revert Hin; apply no_newline_line; exact Hlines);
    (destruct Hin as [Hin|Hin]; [discriminate|]);
    destruct (on_disconnect W); cbn [In] in Hin;
    try contradiction; destruct Hin as [Hin|[]]; discriminate.
Qed.

(** X3. When [pymqi.connect] is left by something that is not an
    [Exception] (the operator's interrupt during the connect), the
    handler of the first [try] does not take it: it leaves [main] at
    once. Nothing is printed after the connect call, the loop is not
    entered and no disconnect is attempted. *)
Theorem interrupt_during_connect_escapes (fuel : nat) (e : exn) :
  on_connect W = Raises e -> is_Exception e = false ->
  exists s,
    main cfg W fuel initial_state = (Raised e, s)
    /\ trace s = startup_events cfg W
    /\ last (trace s) (Printed [])
       = Called (pymqi_connect (MQ_QUEUE_MANAGER cfg) (MQ_CHANNEL cfg)
                   (MQ_HOST cfg ++ lit "(" ++ MQ_PORT cfg ++ lit ")")
                   (MQ_USER cfg) (MQ_PASSWORD cfg)) (Raises e)
    /\ message_count s = 0%nat
    /\ disconnect_calls (trace s) = 0%nat.
Proof.
  intros Hc He. rewrite (main_not_started cfg W fuel e Hc), He.
  eexists. split; [reflexivity|]. cbn [trace message_count]. rewrite app_nil_r.
  split; [reflexivity|]. split; [|split; reflexivity].
  unfold startup_events. rewrite Hc. reflexivity.
Qed.

(** X4. Every run of [main], whatever the world does and however long it
    is observed, starts with the banner and one connect call and makes
    no second one. A run that was connected and has ended, normally or
    by an exception, has attempted the disconnect exactly once, as its
    last external call; a run that is still in the loop, or that never
    got connected, has attempted none. *)
Theorem connection_released_on_every_exit (fuel : nat) :
  let r := main cfg W fuel initial_state in
  (exists rest, trace (snd r) = startup_events cfg W ++ rest)
  /\ connect_calls (trace (snd r)) = 1%nat
  /\ match on_connect W, fst r with
     | Raises _, _ => disconnect_calls (trace (snd r)) = 0%nat
     | Succeeds, Running => disconnect_calls (trace (snd r)) = 0%nat
     | Succeeds, _ =>
         disconnect_calls (trace (snd r)) = 1%nat
         /\ last (filter is_call (trace (snd r))) (Printed [])
            = Called qmgr_disconnect (on_disconnect W)
     end.
Proof.
  cbv zeta. destruct (on_connect W) as [|e] eqn:Hc.
  - destruct (main_started cfg W fuel Hc) as (s0 & -> & Hs0 & Ht0).
    destruct (producer_shape cfg W fuel s0 Hs0)
      as (r & evs & Hnr & Hout & _ & Ht & _ & Hl & _).
    cbv zeta in *.
    destruct Hs0 as (_ & _ & _ & Hd0 & Hc0 & _).
    split; [|split].
    + rewrite Ht, Ht0, <- !app_assoc. eexists. reflexivity.
    + rewrite Ht, !connect_calls_app, Hc0, (loop_event_no_connect evs Hl),
        closing_events_connects. reflexivity.
    + rewrite Hout, Ht, !disconnect_calls_app, Hd0, (loop_event_no_disconnect evs Hl),
        closing_events_disconnects.
      rewrite !app_assoc, filter_app, closing_events_calls.
      destruct r as [[]|e|]; [contradiction| |reflexivity].
      destruct e; cbn [exit_outcome]; (split; [reflexivity | apply last_last]).
  - rewrite (main_not_started cfg W fuel e Hc). cbn [fst snd trace].
    split; [eexists; reflexivity|].
    rewrite connect_calls_app, disconnect_calls_app.
    destruct (startup_events_calls cfg W) as [-> ->].
    destruct (is_Exception e); split; reflexivity.
Qed.

(** X5. [while True] has no exit of its own: after [fuel] passes [main]
    is still in the loop exactly when the connect succeeded and none
    of these passes let an exception out. *)
Theorem main_runs_until_an_exception (fuel : nat) :
  fst (main cfg W fuel initial_state) = Running
  <-> on_connect W = Succeeds /\ runs_until W fuel.
Proof.
  rewrite main_outcome_run. unfold main_outcome, runs_until.
  assert (Hloop : forall n i,
            loop_outcome W n i = Running
            <-> forall j, (i <= j < i + n)%nat -> iteration_exit W j = None).
  { induction n as [|n IH]; intros i; cbn [loop_outcome].
    - split; [intros _ j Hj; lia | reflexivity].
    - destruct (iteration_exit W i) as [e|] eqn:Hi.
      + split; [discriminate|]. intros H. specialize (H i ltac:(lia)). congruence.
      + rewrite IH. split; intros H j Hj.
        * destruct (Nat.eq_dec j i) as [->|]; [exact Hi | apply H; lia].
        * apply H. lia. }
  assert (Hnr : forall n i, loop_outcome W n i <> Returns tt).
  { induction n as [|n IH]; intros i; cbn [loop_outcome]; [discriminate|].
    destruct (iteration_exit W i); [discriminate | apply IH]. }
  destruct (on_connect W) as [|e].
  - specialize (Hloop fuel 0%nat). specialize (Hnr fuel 0%nat).
    destruct (loop_outcome W fuel 0) as [[]|e|].
    + contradiction.
    + split; [destruct e; discriminate|]. intros [_ H].
      assert (@Raised unit e = Running); [|discriminate].
      apply Hloop. intros j Hj. apply H. lia.
    + split; [|reflexivity]. intros _. split; [reflexivity|].
      intros i Hi. apply Hloop; [reflexivity | lia].
  - split; [destruct (is_Exception e); discriminate | intros [H _]; discriminate].
Qed.

End Lifecycle.

(** ** What one iteration does *)

Lemma filter_Printed (f : event -> bool) (lines : list pystr) :
  (forall line, f (Printed line) = false) -> filter f (map Printed lines) = [].
Proof.
  intros H. induction lines as [|l lines IH]; [reflexivity|].
  cbn [map filter]. rewrite H. exact IH.
Qed.

Section Attempts.
Context {F : FloatOps}.
Variable cfg : config.
Variable W : oracle.

Lemma send_events_sleeps (i obj : nat) (queue_name : pystr) (t : pyval) :
  filter is_sleep (send_events W i obj queue_name t) = [].
Proof.
  unfold send_events. destruct (on_Queue W i); [|reflexivity].
  destruct (str_encode_utf8 (json_dumps 2 t)); [|reflexivity].
  destruct (on_put W i); reflexivity.
Qed.

Lemma send_events_disconnects (i obj : nat) (queue_name : pystr) (t : pyval) :
  disconnect_calls (send_events W i obj queue_name t) = 0%nat.
Proof.
  unfold send_events. destruct (on_Queue W i); [|reflexivity].
  destruct (str_encode_utf8 (json_dumps 2 t)); [|reflexivity].
  destruct (on_put W i); reflexivity.
Qed.

(** X6. After every publish attempt that the loop survives, whether
    [send_message] returned or raised an [Exception], the iteration
    sleeps once, for [MESSAGE_INTERVAL] seconds, as its last step, and
    ends as the sleep ends. *)
Theorem sleep_follows_every_attempt (i : nat) (s : state) :
  on_generate W i = Succeeds ->
  mild (publish_outcome W i) ->
  exists before,
    trace (snd (loop_body cfg W i s))
    = trace s ++ before ++ [Called (time_sleep (MESSAGE_INTERVAL cfg)) (on_sleep W i)]
    /\ filter is_sleep before = []
    /\ fst (loop_body cfg W i s)
       = match on_sleep W i with
         | Succeeds => Returns tt
         | Raises e => Raised e
         end.
Proof.
  intros Hg Hm. rewrite loop_body_trace. cbn [fst snd trace].
  unfold iteration_events, iteration_exit, sleep_exit, sleep_events, publish_outcome in *.
  rewrite Hg. destruct (generate_transaction_Some (draw W i)) as [t Ht].
  rewrite Ht in *.
  exists (send_events W i (next_obj s) (MQ_QUEUE cfg) t
          ++ map Printed (attempt_lines W i (message_count s) t)).
  assert (Hs : filter is_sleep
                 (send_events W i (next_obj s) (MQ_QUEUE cfg) t
                  ++ map Printed (attempt_lines W i (message_count s) t)) = []).
  { rewrite filter_app, send_events_sleeps, filter_Printed by reflexivity. reflexivity. }
  destruct (send_outcome W i t) as [j|e|]; cbn [mild] in Hm.
  - rewrite <- !app_assoc. repeat split; [exact Hs|].
    destruct (on_sleep W i); reflexivity.
  - rewrite Hm, <- !app_assoc. repeat split; [exact Hs|].
    destruct (on_sleep W i); reflexivity.
  - contradiction.
Qed.

(** X7. No retry: an iteration creates at most one queue object and
    attempts at most one write, and what it writes is the encoding of
    the record generated in this very iteration. A record whose
    publish failed is not written again. *)
Theorem one_write_per_iteration (i : nat) (s : state) :
  exists evs,
    trace (snd (loop_body cfg W i s)) = trace s ++ evs
    /\ (length (filter is_Queue evs) <= 1)%nat
    /\ (filter is_put evs = []
        \/ exists t payload,
             generate_transaction (draw W i) = Some t
             /\ str_encode_utf8 (json_dumps 2 t) = Some payload
             /\ filter is_put evs = [Called (queue_put (next_obj s) payload) (on_put W i)]).
Proof.
  rewrite loop_body_trace. cbn [snd trace]. eexists. split; [reflexivity|].
  unfold iteration_events.
  destruct (on_generate W i); [|split; [cbn; lia | left; reflexivity]].
  destruct (generate_transaction (draw W i)) as [t|] eqn:Ht;
    [|split; [cbn; lia | left; reflexivity]].
  assert (Hq : forall f, (forall line, f (Printed line) = false) ->
                         (forall secs r, f (Called (time_sleep secs) r) = false) ->
                         filter f (send_events W i (next_obj s) (MQ_QUEUE cfg) t
                                   ++ map Printed (attempt_lines W i (message_count s) t)
                                   ++ sleep_events cfg W i t)
                         = filter f (send_events W i (next_obj s) (MQ_QUEUE cfg) t)).
  { intros f Hp Hsl. rewrite !filter_app, filter_Printed by exact Hp.
    unfold sleep_events. destruct (send_outcome W i t) as [j|e|];
      [| destruct (is_Exception e) |]; cbn [filter app]; rewrite ?Hsl, app_nil_r;
      reflexivity. }
  rewrite !Hq by reflexivity.
  unfold send_events. destruct (on_Queue W i); [|split; [cbn; lia | left; reflexivity]].
  destruct (str_encode_utf8 (json_dumps 2 t)) as [payload|] eqn:He;
    [|split; [cbn; lia | left; reflexivity]].
  split.
  - destruct (on_put W i); cbn; lia.
  - right. exists t, payload. split; [reflexivity|]. split; [exact He|].
    destruct (on_put W i) as [|e]; [destruct (on_close W i)|]; reflexivity.
Qed.

(** [n] undisturbed passes from any state. *)
Lemma while_true_steady (n : nat) : forall i s,
  (forall j, (i <= j < i + n)%nat ->
     on_generate W j = Succeeds /\ is_returns (publish_outcome W j) = true
     /\ on_sleep W j = Succeeds) ->
  exists evs,
    while_true cfg W n i s =
    (Running, {| message_count := (message_count s + n)%nat;
                 next_obj := (next_obj s + n)%nat;
                 trace := trace s ++ evs |})
    /\ filter is_sleep evs
       = repeat (Called (time_sleep (MESSAGE_INTERVAL cfg)) Succeeds) n
    /\ (forall j, (i <= j < i + n)%nat ->
          exists t, generate_transaction (draw W j) = Some t
                    /\ In (Printed (sent_header (S (message_count s + (j - i))) t)) evs).
Proof.
  induction n as [|n IH]; intros i s H.
  - exists []. cbn [while_true running]. rewrite !Nat.add_0_r, app_nil_r.
    split; [destruct s; reflexivity|]. split; [reflexivity|]. intros j Hj. lia.
  - cbn [while_true]. rewrite bind_run, loop_body_trace.
    destruct (H i ltac:(lia)) as (Hg & Hp & Hsl).
    unfold iteration_exit, iteration_events, sleep_exit, sleep_events, attempt_lines.
    unfold publish_outcome in *. rewrite Hg, Hsl.
    destruct (generate_transaction (draw W i)) as [t|] eqn:Ht; [|discriminate].
    destruct (send_outcome W i t) as [js|e|] eqn:Hso; try discriminate.
    cbn [is_returns].
    match goal with |- context [while_true cfg W n (S i) ?st] =>
      destruct (IH (S i) st) as (evs & -> & Hsleep & Hin)
    end.
    { intros j Hj. apply H. lia. }
    cbn [message_count next_obj trace] in *.
    exists (send_events W i (next_obj s) (MQ_QUEUE cfg) t
            ++ map Printed (sent_lines (S (message_count s)) t)
            ++ [Called (time_sleep (MESSAGE_INTERVAL cfg)) Succeeds] ++ evs).
    split; [|split].
    + replace (message_count s + 1 + n)%nat with (message_count s + S n)%nat by lia.
      replace (S (next_obj s) + n)%nat with (next_obj s + S n)%nat by lia.
      rewrite <- !app_assoc. reflexivity.
    + rewrite !filter_app, send_events_sleeps, filter_Printed, Hsleep by reflexivity.
      reflexivity.
    + intros j Hj. destruct (Nat.eq_dec j i) as [->|Hne].
      * exists t. split; [exact Ht|].
        apply in_or_app. right. apply in_or_app. left.
        rewrite Nat.sub_diag, Nat.add_0_r. left. reflexivity.
      * destruct (Hin j ltac:(lia)) as (t' & Ht' & Hin').
        exists t'. split; [exact Ht'|].
        do 3 (apply in_or_app; right).
        replace (S (message_count s + (j - i)))
          with (S (message_count s + 1 + (j - S i))) by lia.
        exact Hin'.
Qed.

(** X8. As long as nothing fails, [main] keeps publishing: after [n]
    undisturbed passes it is still in the loop, the counter is [n], [n]
    publishes have completed on [n] queue objects of their own, the
    [k]-th report is numbered [k], every pass has slept once for
    [MESSAGE_INTERVAL] seconds, and no disconnect was attempted. *)
Theorem undisturbed_loop_keeps_publishing (n : nat) :
  on_connect W = Succeeds ->
  (forall i, (i < n)%nat ->
     on_generate W i = Succeeds /\ is_returns (publish_outcome W i) = true
     /\ on_sleep W i = Succeeds) ->
  exists s,
    main cfg W n initial_state = (Running, s)
    /\ message_count s = n
    /\ successful_publishes (trace s) = n
    /\ created_objs (trace s) = seq 0 n
    /\ filter is_sleep (trace s)
       = repeat (Called (time_sleep (MESSAGE_INTERVAL cfg)) Succeeds) n
    /\ disconnect_calls (trace s) = 0%nat
    /\ (forall i, (i < n)%nat ->
          exists t, generate_transaction (draw W i) = Some t
                    /\ In (Printed (sent_header (S i) t)) (trace s)).
Proof.
  intros Hc H.
  destruct (main_started cfg W n Hc) as (s0 & Hm & Hs0 & Ht0).
  rewrite producer_run in Hm. cbv zeta in Hm.
  set (start := {| message_count := 0; next_obj := next_obj s0; trace := trace s0 |})
    in *.
  destruct (while_true_steady n 0 start) as (evs & Hw & Hsleep & Hin).
  { intros j Hj. apply H. lia. }
  pose proof (while_true_step cfg W n 0 start) as (evs0 & Ht & Hcnt & Hl & Ho & _).
  rewrite Hw in Hm, Ht, Hcnt, Ho. subst start.
  cbn [fst snd message_count next_obj trace] in *.
  apply app_inv_head in Ht. subst evs0.
  pose proof Hs0 as (_ & Hn0 & Hp0 & Hd0 & _ & _ & Hcr0).
  eexists. split; [exact Hm|].
  cbn [message_count trace].
  split; [reflexivity|]. split; [|split; [|split; [|split]]].
  - rewrite successful_publishes_app, Hp0. lia.
  - rewrite created_objs_app, Hcr0, Ho, Hn0. cbn [app]. f_equal. lia.
  - rewrite filter_app, Hsleep, Ht0. reflexivity.
  - rewrite disconnect_calls_app, Hd0, (loop_event_no_disconnect evs Hl). reflexivity.
  - intros i Hi. destruct (Hin i ltac:(lia)) as (t & Hgt & Hint).
    exists t. split; [exact Hgt|]. apply in_or_app. right.
    rewrite Nat.sub_0_r in Hint. exact Hint.
Qed.

End Attempts.

(** ** What is written to the queue *)

(** ASCII text is encoded one byte per character. *)
Lemma utf8_ascii_bytes (s : pystr) :
  ascii_text s ->
  exists bs, str_encode_utf8 s = Some bs /\ map Byte.to_N bs = s.
Proof.
  induction s as [|c s IH]; intros H; [exists []; split; reflexivity|].
  inversion H as [|? ? Hc Hs]; subst. destruct (IH Hs) as (bs & He & Hm).
  destruct (Byte.of_N c) as [b|] eqn:Eb;
    [|apply Byte.of_N_None_iff in Eb; lia].
  exists (b :: bs). cbn [str_encode_utf8]. unfold utf8_units.
  destruct (N.ltb_spec c 0x80) as [_|?]; [|lia].
  cbn [to_bytes]. rewrite Eb, He. split; [reflexivity|].
  cbn [map]. rewrite (Byte.to_of_N c Eb), Hm. reflexivity.
Qed.

Section Written.
Context {F : FloatOps} {L : FloatLaws F}.

(** X9. Whatever [message_data] holds (names with accents, emoji, even
    lone surrogates), [json.dumps] escapes everything outside ASCII,
    so the payload has one byte below 128 for every character of the
    JSON text and [encode('utf-8')] cannot fail: how [send_message]
    ends is decided by its three pymqi calls alone. *)
Theorem payload_is_ascii (message_data : pyval) :
  exists payload,
    str_encode_utf8 (json_dumps 2 message_data) = Some payload
    /\ map Byte.to_N payload = json_dumps 2 message_data
    /\ Forall (fun b => Byte.to_N b < 128) payload
    /\ forall (W : oracle) (i : nat),
         send_outcome W i message_data
         = match on_Queue W i, on_put W i, on_close W i with
           | Raises e, _, _ => Raised e
           | Succeeds, Raises e, _ => Raised e
           | Succeeds, Succeeds, Raises e => Raised e
           | Succeeds, Succeeds, Succeeds => Returns (json_dumps 2 message_data)
           end.
Proof.
  pose proof (iterencode_ascii 2 message_data 0%nat) as Ha.
  destruct (utf8_ascii_bytes (json_dumps 2 message_data) Ha) as (bs & He & Hm).
  exists bs. split; [exact He|]. split; [exact Hm|]. split.
  - unfold json_dumps in Hm. unfold ascii_text in Ha. rewrite <- Hm in Ha.
    apply Forall_map in Ha. exact Ha.
  - intros W i. unfold send_outcome. rewrite He.
    destruct (on_Queue W i), (on_put W i), (on_close W i); reflexivity.
Qed.

(** X10. [send_message] takes any JSON-like value, not only generated
    records: if its strings are text and no dict has a key twice, the
    bytes written to the queue are read back by [json.loads] as the
    value itself. *)
Theorem written_payload_reads_back (W : oracle) (i : nat) (queue_name : pystr)
  (message_data : pyval) (s : state) :
  well_formed message_data ->
  on_Queue W i = Succeeds ->
  exists payload,
    In (Called (queue_put (next_obj s) payload) (on_put W i))
       (trace (snd (send_message W i queue_name message_data s)))
    /\ json_loads payload = Some message_data.
Proof.
  intros Hw Hq. destruct (json_loads_dumps 2 message_data Hw) as (payload & He & Hl).
  exists payload. split; [|exact Hl].
  rewrite send_message_run. cbn [snd trace]. unfold send_events. rewrite Hq, He.
  apply in_or_app. right. right. left. reflexivity.
Qed.

Variable cfg : config.
Variable W : oracle.

(** X11. A write that succeeded is not counted when the close after
    it fails: the payload is on the queue, but [send_message] is left
    by the exception of [queue.close()], so the counter stays, no
    report is printed, and the iteration prints the line "Failed to
    send message: " (after the cross mark) followed by the message of
    the exception instead, and goes on to the sleep. *)
Theorem close_failure_is_not_counted (i : nat) (s : state) (msg : pystr) :
  on_generate W i = Succeeds -> on_Queue W i = Succeeds -> on_put W i = Succeeds ->
  on_close W i = Raises (Exception_ msg) ->
  exists t payload,
    generate_transaction (draw W i) = Some t
    /\ str_encode_utf8 (json_dumps 2 t) = Some payload
    /\ loop_body cfg W i s =
       (match on_sleep W i with
        | Succeeds => Returns tt
        | Raises e' => Raised e'
        end,
        {| message_count := message_count s;
           next_obj := S (next_obj s);
           trace := trace s
                    ++ [Called (pymqi_Queue (next_obj s) (MQ_QUEUE cfg)) Succeeds;
                        Called (queue_put (next_obj s) payload) Succeeds;
                        Called (queue_close (next_obj s)) (Raises (Exception_ msg));
                        Printed ([0x274c] ++ lit " Failed to send message: " ++ msg);
                        Called (time_sleep (MESSAGE_INTERVAL cfg)) (on_sleep W i)] |}).
Proof.
  intros Hg Hq Hp Hc.
  destruct (generate_transaction_Some (draw W i)) as [t Ht].
  destruct (utf8_ascii_bytes (json_dumps 2 t) (iterencode_ascii 2 t 0%nat))
    as (payload & Hpl & _).
  exists t, payload. split; [exact Ht|]. split; [exact Hpl|].
  rewrite loop_body_trace.
  unfold iteration_exit, iteration_events, publish_outcome, sleep_exit, sleep_events,
    attempt_lines, send_events, send_outcome.
  rewrite Hg, Ht, Hq, Hp, Hc, Hpl. cbn [is_Exception is_returns map app].
  rewrite Nat.add_0_r. destruct (on_sleep W i); reflexivity.
Qed.

End Written.

(** ** More on generated records *)

Section Generated.
Context {F : FloatOps}.

(** X12. The numbers in [customer_id], [merchant_id] and
    [metadata.campaign_id] are the ones [random.randint] drew: they lie
    within its bounds (so the digits never start with a zero), and the
    digits printed read back as the number. *)
Theorem identifiers_within_randint_bounds (d : draws) :
  exists r meta c m k,
    generate_transaction d = Some r
    /\ getitem r (lit "customer_id") = Some (PStr (lit "CUST-" ++ str_int c))
    /\ (10000 <= c <= 99999)%Z
    /\ getitem r (lit "merchant_id") = Some (PStr (lit "MERCH-" ++ str_int m))
    /\ (1000 <= m <= 9999)%Z
    /\ getitem r (lit "metadata") = Some meta
    /\ getitem meta (lit "campaign_id") = Some (PStr (lit "CAMP-" ++ str_int k))
    /\ (100 <= k <= 999)%Z
    /\ int_of_str (str_int c) = c /\ int_of_str (str_int m) = m
    /\ int_of_str (str_int k) = k.
Proof.
  unfold generate_transaction.
  destruct (choice_In transaction_types (d_transaction_type d)) as (x1 & -> & H1);
    [discriminate|].
  destruct (choice_In categories (d_category d)) as (x2 & -> & H2); [discriminate|].
  destruct (choice_In currencies (d_currency d)) as (x3 & -> & H3); [discriminate|].
  destruct (choice_In statuses (d_status d)) as (x4 & -> & H4); [discriminate|].
  destruct (choice_In payment_methods (d_payment_method d)) as (x5 & -> & H5);
    [discriminate|].
  destruct (choice_In device_types (d_device_type d)) as (x6 & -> & H6); [discriminate|].
  eexists. eexists.
  exists (randint 10000 99999 (d_customer d)), (randint 1000 9999 (d_merchant d)),
    (randint 100 999 (d_campaign d)).
  split; [reflexivity|].
  split; [reflexivity|]. split; [apply randint_range; lia|].
  split; [reflexivity|]. split; [apply randint_range; lia|].
  split; [reflexivity|].
  split; [reflexivity|]. split; [apply randint_range; lia|].
  repeat split; apply int_of_str_str_int.
Qed.

(** X13. The report of a successful publish cannot fail on a generated
    record: every field it quotes is there and is a scalar, so it
    prints its six lines (the first with the new count, the last a
    rule of 80 dashes) and returns; and what the lines quote is what
    was drawn for the record. *)
Theorem report_quotes_the_record (d : draws) :
  exists r,
    generate_transaction d = Some r
    /\ (forall s,
          report_sent r s =
          (Returns tt,
           {| message_count := message_count s;
              next_obj := next_obj s;
              trace := trace s ++ map Printed (sent_lines (message_count s) r) |}))
    /\ shown r "timestamp" = isoformat (d_now d) ++ lit "Z"
    /\ shown r "transaction_id" = d_transaction_id d
    /\ In (shown r "transaction_type") transaction_types
    /\ In (shown r "currency") currencies
    /\ shown r "amount"
       = float_repr (py_round (random_uniform (float_of_int 10) (float_of_int 5000)
                                 (d_amount d)) 2)
    /\ shown r "customer_name" = d_customer_name d
    /\ shown r "customer_id" = lit "CUST-" ++ str_int (randint 10000 99999 (d_customer d))
    /\ In (shown r "status") statuses.
Proof.
  destruct (generate_transaction_shown d)
    as (r & ty & cur & st & Hr & Hty' & Hcur' & Hst' & Hts & Hid & Hty & Hcur & Hamt
        & Hname & Hcid & Hst).
  exists r. split; [exact Hr|].
  split; [intros s; apply (report_sent_generated d r s Hr)|].
  unfold shown. rewrite Hts, Hid, Hty, Hcur, Hamt, Hname, Hcid, Hst. cbn [py_str].
  repeat split; assumption.
Qed.

End Generated.

(** ** What leaves [main] *)

Section Escapes.
Context {F : FloatOps}.
Variable cfg : config.
Variable W : oracle.

Lemma loop_outcome_raised (n : nat) : forall i e,
  loop_outcome W n i = Raised e ->
  exists k, (i <= k < i + n)%nat /\ iteration_exit W k = Some e
            /\ forall j, (i <= j < k)%nat -> iteration_exit W j = None.
Proof.
  induction n as [|n IH]; intros i e H; cbn [loop_outcome] in H; [discriminate|].
  destruct (iteration_exit W i) as [e'|] eqn:Hi.
  - injection H as ->. exists i. split; [lia|]. split; [exact Hi|]. intros j Hj. lia.
  - destruct (IH _ _ H) as (k & Hk & He & Hbefore).
    exists k. split; [lia|]. split; [exact He|]. intros j Hj.
    destruct (Nat.eq_dec j i) as [->|]; [exact Hi | apply Hbefore; lia].
Qed.

(** X14. No [Exception] leaves [main] (a [print] being taken not to
    fail): every one is taken by a handler and printed. What can leave it is the operator's interrupt or another
    [BaseException] raised while connecting, or a [BaseException]
    other than the interrupt that left the loop before. *)
Theorem no_exception_leaves_main (fuel : nat) (e : exn) :
  fst (main cfg W fuel initial_state) = Raised e ->
  is_Exception e = false
  /\ (on_connect W = Raises e
      \/ on_connect W = Succeeds
         /\ e <> KeyboardInterrupt
         /\ exists k, (k < fuel)%nat /\ runs_until W k /\ iteration_exit W k = Some e).
Proof.
  rewrite main_outcome_run. unfold main_outcome.
  destruct (on_connect W) as [|e0].
  - destruct (loop_outcome W fuel 0) as [[]|e1|] eqn:Hl; try discriminate.
    destruct e1 as [msg| |msg]; try discriminate. intros [= <-].
    split; [reflexivity|]. right. split; [reflexivity|]. split; [discriminate|].
    destruct (loop_outcome_raised _ _ _ Hl) as (k & Hk & He & Hbefore).
    exists k. split; [lia|]. split; [|exact He].
    intros j Hj. apply Hbefore. lia.
  - destruct (is_Exception e0) eqn:He0; [discriminate|]. intros [= <-].
    split; [exact He0 | left; reflexivity].
Qed.

End Escapes.

(** ** The properties at concrete worlds *)

Lemma negative_sleep_world_runs_until_1 : runs_until negative_sleep_world 1.
Proof. intros i Hi. destruct i as [|i]; [vm_compute; reflexivity | lia]. Qed.

Lemma exiting_world_runs_until_1 : runs_until exiting_world 1.
Proof. intros i Hi. destruct i as [|i]; [vm_compute; reflexivity | lia]. Qed.

Lemma unexpected_error_leads_to_shutdown_witness :
  on_connect negative_sleep_world = Succeeds
  /\ runs_until negative_sleep_world 1
  /\ iteration_exit negative_sleep_world 1
     = Some (Exception_ (lit "sleep length must be non-negative"))
  /\ (1 < 2)%nat
  /\ exists s before digits,
       main default_config negative_sleep_world 2 initial_state = (Returns tt, s)
       /\ disconnect_calls (trace s) = 1%nat
       /\ message_count s = successful_publishes (trace s)
       /\ successful_publishes before = successful_publishes (trace s)
       /\ decimal_numeral (successful_publishes before) digits
       /\ trace s
          = before
            ++ Printed ([10; 0x274c] ++ lit " Error in producer loop: "
                        ++ lit "sleep length must be non-negative")
            :: Called qmgr_disconnect (on_disconnect negative_sleep_world)
            :: match on_disconnect negative_sleep_world with
               | Succeeds =>
                   [Printed ([10; 0x2705]
                             ++ lit " Disconnected from MQ. Total messages sent: "
                             ++ digits)]
               | Raises _ => []
               end
       /\ filter is_summary (trace s)
          = match on_disconnect negative_sleep_world with
            | Succeeds =>
                [Printed ([10; 0x2705]
                          ++ lit " Disconnected from MQ. Total messages sent: "
                          ++ digits)]
            | Raises _ => []
            end.
Proof.
  split; [reflexivity|]. split; [exact negative_sleep_world_runs_until_1|].
  split; [vm_compute; reflexivity|]. split; [lia|].
  apply (unexpected_error_leads_to_shutdown default_config negative_sleep_world 1 2);
    [reflexivity | exact negative_sleep_world_runs_until_1 | vm_compute; reflexivity
    | lia].
Defined.

Lemma base_exception_escapes_after_shutdown_witness :
  on_connect exiting_world = Succeeds
  /\ runs_until exiting_world 1
  /\ iteration_exit exiting_world 1 = Some (BaseException_ (lit "SystemExit"))
  /\ (1 < 3)%nat
  /\ exists s before digits,
       main default_config exiting_world 3 initial_state
       = (Raised (BaseException_ (lit "SystemExit")), s)
       /\ disconnect_calls before = 0%nat
       /\ disconnect_calls (trace s) = 1%nat
       /\ message_count s = successful_publishes (trace s)
       /\ successful_publishes before = successful_publishes (trace s)
       /\ decimal_numeral (successful_publishes before) digits
       /\ trace s
          = before
            ++ Called qmgr_disconnect (on_disconnect exiting_world)
            :: match on_disconnect exiting_world with
               | Succeeds =>
                   [Printed ([10; 0x2705]
                             ++ lit " Disconnected from MQ. Total messages sent: "
                             ++ digits)]
               | Raises _ => []
               end
       /\ filter starts_with_newline before = []
       /\ ~ In (Printed ([10; 10; 0x26a0; 0xfe0f] ++ lit "  Producer stopped by user"))
               (trace s)
       /\ forall text,
            ~ In (Printed ([10; 0x274c] ++ lit " Error in producer loop: " ++ text))
                 (trace s).
Proof.
  split; [reflexivity|]. split; [exact exiting_world_runs_until_1|].
  split; [vm_compute; reflexivity|]. split; [lia|].
  apply (base_exception_escapes_after_shutdown default_config exiting_world 1 3);
    [reflexivity | exact exiting_world_runs_until_1 | vm_compute; reflexivity | lia].
Defined.

Lemma interrupt_during_connect_escapes_witness :
  on_connect interrupted_connect_world = Raises KeyboardInterrupt
  /\ is_Exception KeyboardInterrupt = false
  /\ exists s,
       main default_config interrupted_connect_world 3 initial_state
       = (Raised KeyboardInterrupt, s)
       /\ trace s = startup_events default_config interrupted_connect_world
       /\ last (trace s) (Printed [])
          = Called (pymqi_connect (MQ_QUEUE_MANAGER default_config)
                      (MQ_CHANNEL default_config)
                      (MQ_HOST default_config ++ lit "(" ++ MQ_PORT default_config
                       ++ lit ")")
                      (MQ_USER default_config) (MQ_PASSWORD default_config))
                   (Raises KeyboardInterrupt)
       /\ message_count s = 0%nat
       /\ disconnect_calls (trace s) = 0%nat.
Proof.
  split; [reflexivity|]. split; [reflexivity|].
  apply (interrupt_during_connect_escapes default_config interrupted_connect_world 3
           KeyboardInterrupt); reflexivity.
Defined.

Lemma sleep_follows_every_attempt_witness :
  on_generate rough_world 0 = Succeeds
  /\ mild (publish_outcome rough_world 0)
  /\ exists before,
       trace (snd (loop_body default_config rough_world 0 initial_state))
       = trace initial_state ++ before
         ++ [Called (time_sleep (MESSAGE_INTERVAL default_config))
               (on_sleep rough_world 0)]
       /\ filter is_sleep before = []
       /\ fst (loop_body default_config rough_world 0 initial_state)
          = match on_sleep rough_world 0 with
            | Succeeds => Returns tt
            | Raises e => Raised e
            end.
Proof.
  split; [reflexivity|]. split; [vm_compute; reflexivity|].
  apply (sleep_follows_every_attempt default_config rough_world 0 initial_state);
    [reflexivity | vm_compute; reflexivity].
Defined.

Lemma steady_world_undisturbed (i : nat) :
  on_generate steady_world i = Succeeds
  /\ is_returns (publish_outcome steady_world i) = true
  /\ on_sleep steady_world i = Succeeds.
Proof. split; [reflexivity|]. split; [vm_compute; reflexivity | reflexivity]. Qed.

Lemma undisturbed_loop_keeps_publishing_witness :
  on_connect steady_world = Succeeds
  /\ (forall i, (i < 2)%nat ->
        on_generate steady_world i = Succeeds
        /\ is_returns (publish_outcome steady_world i) = true
        /\ on_sleep steady_world i = Succeeds)
  /\ exists s,
       main default_config steady_world 2 initial_state = (Running, s)
       /\ message_count s = 2%nat
       /\ successful_publishes (trace s) = 2%nat
       /\ created_objs (trace s) = seq 0 2
       /\ filter is_sleep (trace s)
          = repeat (Called (time_sleep (MESSAGE_INTERVAL default_config)) Succeeds) 2
       /\ disconnect_calls (trace s) = 0%nat
       /\ (forall i, (i < 2)%nat ->
             exists t, generate_transaction (draw steady_world i) = Some t
                       /\ In (Printed (sent_header (S i) t)) (trace s)).
Proof.
  split; [reflexivity|].
  split; [intros i _; apply steady_world_undisturbed|].
  apply (undisturbed_loop_keeps_publishing default_config steady_world 2);
    [reflexivity | intros i _; apply steady_world_undisturbed].
Defined.

Lemma payload_is_ascii_witness :
  exists payload,
    str_encode_utf8 (json_dumps 2 odd_value) = Some payload
    /\ map Byte.to_N payload = json_dumps 2 odd_value
    /\ Forall (fun b => Byte.to_N b < 128) payload
    /\ forall (W : oracle) (i : nat),
         send_outcome W i odd_value
         = match on_Queue W i, on_put W i, on_close W i with
           | Raises e, _, _ => Raised e
           | Succeeds, Raises e, _ => Raised e
           | Succeeds, Succeeds, Raises e => Raised e
           | Succeeds, Succeeds, Succeeds => Returns (json_dumps 2 odd_value)
           end.
Proof. apply (@payload_is_ascii whole_float whole_float_laws odd_value). Defined.

Lemma nested_value_well_formed : well_formed nested_value.
Proof.
  cbn. repeat split; try reflexivity; repeat constructor.
Qed.

Lemma written_payload_reads_back_witness :
  well_formed nested_value
  /\ on_Queue rough_world 0 = Succeeds
  /\ exists payload,
       In (Called (queue_put (next_obj initial_state) payload) (on_put rough_world 0))
          (trace (snd (send_message rough_world 0 (MQ_QUEUE default_config)
                         nested_value initial_state)))
       /\ json_loads payload = Some nested_value.
Proof.
  split; [exact nested_value_well_formed|]. split; [reflexivity|].
  apply (@written_payload_reads_back whole_float whole_float_laws rough_world 0
           (MQ_QUEUE default_config) nested_value initial_state);
    [exact nested_value_well_formed | reflexivity].
Defined.

Lemma close_failure_is_not_counted_witness :
  on_generate close_fails_world 0 = Succeeds
  /\ on_Queue close_fails_world 0 = Succeeds
  /\ on_put close_fails_world 0 = Succeeds
  /\ on_close close_fails_world 0
     = Raises (Exception_
                 (lit "MQI Error. Comp: 2, Reason 2009: FAILED: MQRC_CONNECTION_BROKEN"))
  /\ exists t payload,
       generate_transaction (draw close_fails_world 0) = Some t
       /\ str_encode_utf8 (json_dumps 2 t) = Some payload
       /\ loop_body default_config close_fails_world 0 initial_state =
          (match on_sleep close_fails_world 0 with
           | Succeeds => Returns tt
           | Raises e' => Raised e'
           end,
           {| message_count := message_count initial_state;
              next_obj := S (next_obj initial_state);
              trace := trace initial_state
                       ++ [Called (pymqi_Queue (next_obj initial_state)
                                     (MQ_QUEUE default_config)) Succeeds;
                           Called (queue_put (next_obj initial_state) payload) Succeeds;
                           Called (queue_close (next_obj initial_state))
                             (Raises (Exception_
                                        (lit "MQI Error. Comp: 2, Reason 2009: FAILED: MQRC_CONNECTION_BROKEN")));
                           Printed ([0x274c] ++ lit " Failed to send message: "
                                    ++ lit "MQI Error. Comp: 2, Reason 2009: FAILED: MQRC_CONNECTION_BROKEN");
                           Called (time_sleep (MESSAGE_INTERVAL default_config))
                             (on_sleep close_fails_world 0)] |}).
Proof.
  repeat (split; [reflexivity|]).
  apply (@close_failure_is_not_counted whole_float whole_float_laws default_config
           close_fails_world 0 initial_state
           (lit "MQI Error. Comp: 2, Reason 2009: FAILED: MQRC_CONNECTION_BROKEN"));
    reflexivity.
Defined.

(** ** The configuration read from the environment *)

Lemma skip_spaces_split (s : pystr) :
  exists pre, s = pre ++ skip_spaces s /\ forallb Py_ISSPACE pre = true.
Proof.
  induction s as [|c s IH]; [exists []; split; reflexivity|].
  cbn [skip_spaces]. destruct (Py_ISSPACE c) eqn:E.
  - destruct IH as (pre & Hs & Hp). exists (c :: pre). split.
    + cbn [app]. f_equal. exact Hs.
    + cbn [forallb]. rewrite E, Hp. reflexivity.
  - exists []. split; reflexivity.
Qed.

Lemma skip_spaces_nil (s : pystr) : skip_spaces s = [] -> forallb Py_ISSPACE s = true.
Proof.
  intros H. destruct (skip_spaces_split s) as (pre & Hs & Hp).
  rewrite H, app_nil_r in Hs. subst pre. exact Hp.
Qed.

(** What [scan_digits] consumed is digits and underscores, and the
    digits among them are what it returns. *)
Lemma scan_digits_split (s : pystr) : forall prev acc digits rest,
  scan_digits s prev acc = Some (digits, rest) ->
  exists mid,
    s = mid ++ rest
    /\ forallb (fun c => is_digit c || (c =? 95)) mid = true
    /\ digits = acc ++ filter is_digit mid.
Proof.
  induction s as [|c s IH]; intros prev acc digits rest H; cbn [scan_digits] in H.
  - destruct (prev =? 95); [discriminate|]. injection H as <- <-.
    exists []. cbn [app filter forallb]. rewrite app_nil_r. repeat split.
  - destruct (c =? 95) eqn:Eu.
    + destruct (prev =? 95); [discriminate|].
      destruct (IH _ _ _ _ H) as (mid & -> & Hm & ->).
      exists (c :: mid). cbn [app forallb filter]. rewrite Eu, Hm, orb_true_r.
      apply N.eqb_eq in Eu. subst c. repeat split.
    + destruct (is_digit c) eqn:Ed.
      * destruct (IH _ _ _ _ H) as (mid & -> & Hm & ->).
        exists (c :: mid). cbn [app forallb filter]. rewrite Ed, Hm, <- app_assoc.
        repeat split.
      * destruct (prev =? 95); [discriminate|]. injection H as <- <-.
        exists []. cbn [app filter forallb]. rewrite app_nil_r. repeat split.
Qed.

Lemma scan_digits_all (ds : pystr) :
  Forall (fun c => is_digit c = true) ds ->
  forall prev acc, (ds = [] -> prev <> 95) ->
  scan_digits ds prev acc = Some (acc ++ ds, []).
Proof.
  induction 1 as [|c ds Hc Hds IH]; intros prev acc Hp; cbn [scan_digits].
  - destruct (N.eqb_spec prev 95) as [E|_]; [exfalso; apply Hp; auto|].
    rewrite app_nil_r. reflexivity.
  - assert (Hne : c <> 95).
    { unfold is_digit in Hc. apply andb_prop in Hc. destruct Hc as [_ H2].
      apply N.leb_le in H2. lia. }
    destruct (N.eqb_spec c 95) as [E|_]; [contradiction|]. rewrite Hc.
    rewrite IH by (intros _; exact Hne). rewrite <- app_assoc. reflexivity.
Qed.

Section Configuration.
Context {U : IntOps}.

Lemma spaces_numeral (l : pystr) :
  forallb Py_ISSPACE l = true -> forallb numeral_char l = true.
Proof.
  intros Hl. rewrite forallb_forall in *. intros c Hc.
  unfold numeral_char. rewrite (Hl c Hc). apply orb_true_r.
Qed.

Lemma numeral_value_unfold (negative : bool) (s : pystr) (z : Z) :
  numeral_value negative s = Some z ->
  exists d0 digits rest,
    scan_digits s 0 [] = Some (d0 :: digits, rest)
    /\ skip_spaces rest = [].
Proof.
  unfold numeral_value. intros H.
  assert (H' : match scan_digits s 0 [] with
               | None => None
               | Some (digits, rest) =>
                   if too_many_digits digits then None
                   else
                     match digits, skip_spaces rest with
                     | _ :: _, [] =>
                         Some (if negative then (- Z.of_N (digits_val digits))%Z
                               else Z.of_N (digits_val digits))
                     | _, _ => None
                     end
               end = Some z).
  { destruct s as [|c tl]; [exact H|].
    destruct c as [|p]; [exact H|].
    do 7 (destruct p as [p|p|]; try exact H). discriminate. }
  clear H. destruct (scan_digits s 0 []) as [[digits rest]|]; [|discriminate].
  destruct (too_many_digits digits); [discriminate|].
  destruct digits as [|d0 digits]; [discriminate|].
  destruct (skip_spaces rest) eqn:Er; [|discriminate].
  exists d0, digits, rest. split; [reflexivity | exact Er].
Qed.

Lemma numeral_value_chars (negative : bool) (s : pystr) (z : Z) :
  numeral_value negative s = Some z ->
  forallb numeral_char s = true /\ existsb is_digit s = true.
Proof.
  intros H. destruct (numeral_value_unfold _ _ _ H) as (d0 & digits & rest & Esc & Er).
  apply skip_spaces_nil in Er.
  destruct (scan_digits_split _ _ _ _ _ Esc) as (mid & -> & Hmid & Hd).
  cbn [app] in Hd. split.
  - rewrite forallb_app, (spaces_numeral rest Er), andb_true_r.
    rewrite forallb_forall in *. intros c Hc. specialize (Hmid c Hc).
    unfold numeral_char. destruct (is_digit c); [reflexivity|].
    cbn [orb] in *. rewrite Hmid. reflexivity.
  - rewrite existsb_app. apply orb_true_iff. left.
    apply existsb_exists. exists d0.
    assert (Hin : In d0 (filter is_digit mid)) by (rewrite <- Hd; left; reflexivity).
    apply filter_In in Hin. exact Hin.
Qed.

(** A numeral that [PyLong_FromString] accepts is made of numeral
    characters and has a digit. *)
Lemma PyLong_FromString_chars (s : pystr) (z : Z) :
  PyLong_FromString s = Some z ->
  forallb numeral_char s = true /\ existsb is_digit s = true.
Proof.
  unfold PyLong_FromString.
  destruct (skip_spaces_split s) as (pre & Hs & Hpre).
  set (s1 := skip_spaces s) in *. clearbody s1. subst s.
  intros H. rewrite forallb_app, existsb_app, (spaces_numeral pre Hpre). cbn [andb].
  destruct s1 as [|c tl].
  - destruct (numeral_value_chars _ _ _ H) as [_ Hd]. discriminate.
  - destruct (c =? 43) eqn:Ep; [|destruct (c =? 45) eqn:Em].
    + destruct (numeral_value_chars _ _ _ H) as [Hc Hd]. cbn [forallb existsb].
      unfold numeral_char at 1. rewrite Ep, Hc, Hd, !orb_true_r. split; reflexivity.
    + destruct (numeral_value_chars _ _ _ H) as [Hc Hd]. cbn [forallb existsb].
      unfold numeral_char at 1. rewrite Em, Hc, Hd, !orb_true_r. split; reflexivity.
    + destruct (numeral_value_chars _ _ _ H) as [Hc Hd]. rewrite Hc, Hd, orb_true_r.
      split; reflexivity.
Qed.

Lemma numeral_value_str_N (negative : bool) (n : N) :
  (length (str_N n) <= 640)%nat ->
  numeral_value negative (str_N n)
  = Some (if negative then (- Z.of_N n)%Z else Z.of_N n).
Proof.
  intros Hlen. unfold numeral_value.
  pose proof (str_N_digits n) as Hd. pose proof (str_N_nonempty n) as Hne.
  rewrite (scan_digits_all (str_N n) Hd 0 []) by (intros E; contradiction).
  cbn [app]. unfold too_many_digits.
  destruct (Nat.ltb_spec 640 (length (str_N n))) as [?|_]; [lia|]. cbn [andb].
  rewrite digits_val_str_N.
  destruct (str_N n) as [|c tl] eqn:Es; [contradiction|].
  inversion Hd as [|? ? Hc _]; subst.
  assert (c <> 95).
  { unfold is_digit in Hc. apply andb_prop in Hc. destruct Hc as [_ H2].
    apply N.leb_le in H2. lia. }
  destruct c as [|p]; [reflexivity|].
  do 7 (destruct p as [p|p|]; try reflexivity). contradiction.
Qed.

End Configuration.

Section Settings.
Context {U : IntOps}.

Lemma transform_keeps (c : codepoint) (s : pystr) :
  In c s -> c < 127 ->
  In c (transform_decimal_and_space s) \/ In 63 (transform_decimal_and_space s).
Proof.
  intros Hin Hc. induction s as [|x s IH]; [contradiction|].
  cbn [transform_decimal_and_space].
  destruct (x <? 127) eqn:Ex.
  - destruct Hin as [->|Hin]; [left; left; reflexivity|].
    destruct (IH Hin); [left | right]; right; assumption.
  - assert (Hin' : In c s).
    { destruct Hin as [->|Hin]; [|exact Hin]. apply N.ltb_ge in Ex. lia. }
    destruct (Py_UNICODE_ISSPACE x).
    + destruct (IH Hin'); [left | right]; right; assumption.
    + destruct (Py_UNICODE_TODECIMAL x).
      * destruct (IH Hin'); [left | right]; right; assumption.
      * right. left. reflexivity.
Qed.

Lemma py_int_rejects (text : pystr) :
  (exists c, In c text /\ c < 127 /\ numeral_char c = false)
  \/ forallb (fun c => (c <? 127) && negb (is_digit c)) text = true ->
  py_int text = None.
Proof.
  intros H. destruct (py_int text) as [z|] eqn:E; [exfalso | reflexivity].
  unfold py_int, to_ascii in E. apply PyLong_FromString_chars in E.
  destruct E as [Hall Hdig]. rewrite forallb_forall in Hall.
  destruct H as [(c & Hin & Hc & Hn)|H].
  - destruct (forallb (fun c => c <? 128) text).
    + rewrite (Hall c Hin) in Hn. discriminate.
    + destruct (transform_keeps c text Hin Hc) as [H1|H1].
      * rewrite (Hall c H1) in Hn. discriminate.
      * specialize (Hall 63 H1). discriminate.
  - rewrite forallb_forall in H.
    assert (Ha : forallb (fun c => c <? 128) text = true).
    { apply forallb_forall. intros c Hc. specialize (H c Hc).
      apply andb_prop in H. destruct H as [H _].
      apply N.ltb_lt in H. apply N.ltb_lt. lia. }
    rewrite Ha in Hdig. apply existsb_exists in Hdig. destruct Hdig as (c & Hc & Hd).
    specialize (H c Hc). rewrite Hd, andb_false_r in H. discriminate.
Qed.

Lemma py_int_str_int (z : Z) :
  (length (str_N (Z.abs_N z)) <= 640)%nat -> py_int (str_int z) = Some z.
Proof.
  intros Hlen. unfold py_int, to_ascii.
  assert (Ha : forallb (fun c => c <? 128) (str_int z) = true).
  { apply forallb_forall. intros c Hc.
    pose proof (str_int_ascii z) as Hz. unfold ascii_text in Hz.
    rewrite Forall_forall in Hz. apply N.ltb_lt. apply Hz. exact Hc. }
  rewrite Ha. clear Ha.
  unfold str_int, PyLong_FromString. set (n := Z.abs_N z) in *.
  destruct (z <? 0)%Z eqn:Ez.
  - cbn [skip_spaces]. change (Py_ISSPACE ch_minus) with false. cbv iota.
    change (ch_minus =? 43) with false. change (ch_minus =? 45) with true. cbv iota.
    rewrite (numeral_value_str_N true n Hlen). f_equal. apply Z.ltb_lt in Ez.
    subst n. lia.
  - pose proof (str_N_digits n) as Hd. pose proof (str_N_nonempty n) as Hne.
    pose proof (numeral_value_str_N false n Hlen) as Hv.
    destruct (str_N n) as [|c tl] eqn:Es; [contradiction|].
    inversion Hd as [|? ? Hc _]; subst.
    unfold is_digit in Hc. apply andb_prop in Hc. destruct Hc as [H1 H2].
    apply N.leb_le in H1. apply N.leb_le in H2.
    assert (Hs : Py_ISSPACE c = false).
    { unfold Py_ISSPACE. destruct (N.leb_spec 9 c), (N.leb_spec c 13), (N.eqb_spec c 32);
        cbn; try reflexivity; lia. }
    cbn [skip_spaces]. rewrite Hs.
    destruct (N.eqb_spec c 43); [lia|]. destruct (N.eqb_spec c 45); [lia|].
    rewrite Hv. f_equal. apply Z.ltb_ge in Ez. subst n. lia.
Qed.

(** X15. With none of the eight variables set, the configuration is the
    defaults: the cluster-local host, port 1414, queue manager [QM1],
    channel [DEV.APP.SVRCONN], queue [KAFKA.IN], user [app] with the
    placeholder password, and an interval of 5 seconds. Setting
    [MQ_QUEUE] on top of that replaces the queue and nothing else. *)
Theorem unset_environment_gives_defaults (environ : list (pystr * pystr)) :
  Forall (fun key => environ_get environ (lit key) = None)
    ["MQ_HOST"; "MQ_PORT"; "MQ_QUEUE_MANAGER"; "MQ_CHANNEL"; "MQ_QUEUE"; "MQ_USER";
     "MQ_PASSWORD"; "MESSAGE_INTERVAL"]%string ->
  load_config environ = Some default_config
  /\ forall queue,
       load_config ((lit "MQ_QUEUE", queue) :: environ)
       = Some {| MQ_HOST := MQ_HOST default_config;
                 MQ_PORT := MQ_PORT default_config;
                 MQ_QUEUE_MANAGER := MQ_QUEUE_MANAGER default_config;
                 MQ_CHANNEL := MQ_CHANNEL default_config;
                 MQ_QUEUE := queue;
                 MQ_USER := MQ_USER default_config;
                 MQ_PASSWORD := MQ_PASSWORD default_config;
                 MESSAGE_INTERVAL := MESSAGE_INTERVAL default_config |}.
Proof.
  intros H.
  repeat match goal with
  | H : Forall _ (_ :: _) |- _ =>
      let E := fresh "E" in
      apply Forall_cons_iff in H; destruct H as [E H]
  end.
  split; [|intros queue]; unfold load_config, getenv; cbn [environ_get];
    repeat match goal with
    | |- context [str_eqb (lit ?a) (lit ?b)] =>
        let b' := eval vm_compute in (str_eqb (lit a) (lit b)) in
        change (str_eqb (lit a) (lit b)) with b'; cbv iota
    end;
    rewrite ?E, ?E0, ?E1, ?E2, ?E3, ?E4, ?E5, ?E6; reflexivity.
Qed.

(** X16. [MESSAGE_INTERVAL] must be a decimal numeral: a value with a
    character that no numeral has (a decimal point, a letter, a unit),
    or without any digit (the empty string, blanks), makes [int] raise
    and the script stop before [main] exists. *)
Theorem interval_must_be_a_decimal_numeral (environ : list (pystr * pystr))
  (text : pystr) :
  environ_get environ (lit "MESSAGE_INTERVAL") = Some text ->
  (exists c, In c text /\ c < 127 /\ numeral_char c = false)
  \/ forallb (fun c => (c <? 127) && negb (is_digit c)) text = true ->
  load_config environ = None.
Proof.
  intros He H. unfold load_config, getenv. rewrite He.
  rewrite (py_int_rejects text H). reflexivity.
Qed.

(** X17. [MESSAGE_INTERVAL] takes every integer of up to 640 digits written
    the way Python prints it, negative ones included: the script does
    not check that the interval is at least 0, and [main] passes what
    was read on to the banner and to [time.sleep]. *)
Theorem interval_accepts_printed_integers (environ : list (pystr * pystr)) (z : Z) :
  environ_get environ (lit "MESSAGE_INTERVAL") = Some (str_int z) ->
  (Z.abs z < 10 ^ 640)%Z ->
  exists cfg,
    load_config environ = Some cfg
    /\ MESSAGE_INTERVAL cfg = z
    /\ py_int (str_int (MESSAGE_INTERVAL cfg)) = Some z.
Proof.
  intros He Hz.
  assert (Hlen : (length (str_N (Z.abs_N z)) <= 640)%nat).
  { apply (str_N_length_le 639). apply N2Z.inj_lt.
    rewrite N2Z.inj_abs_N, N2Z.inj_pow.
    change (Z.of_N 10) with 10%Z.
    replace (Z.of_N (N.of_nat 640)) with 640%Z by (vm_compute; reflexivity).
    exact Hz. }
  unfold load_config, getenv. rewrite He, (py_int_str_int z Hlen).
  eexists. split; [reflexivity|]. cbn [MESSAGE_INTERVAL].
  split; [reflexivity | apply (py_int_str_int z Hlen)].
Qed.

End Settings.

(** ** The configuration at concrete environments *)

Lemma unset_environment_gives_defaults_witness :
  Forall (fun key => environ_get [(lit "HOME", lit "/root")] (lit key) = None)
    ["MQ_HOST"; "MQ_PORT"; "MQ_QUEUE_MANAGER"; "MQ_CHANNEL"; "MQ_QUEUE"; "MQ_USER";
     "MQ_PASSWORD"; "MESSAGE_INTERVAL"]%string
  /\ @load_config few_entries [(lit "HOME", lit "/root")] = Some default_config
  /\ forall queue,
       @load_config few_entries [(lit "MQ_QUEUE", queue); (lit "HOME", lit "/root")]
       = Some {| MQ_HOST := MQ_HOST default_config;
                 MQ_PORT := MQ_PORT default_config;
                 MQ_QUEUE_MANAGER := MQ_QUEUE_MANAGER default_config;
                 MQ_CHANNEL := MQ_CHANNEL default_config;
                 MQ_QUEUE := queue;
                 MQ_USER := MQ_USER default_config;
                 MQ_PASSWORD := MQ_PASSWORD default_config;
                 MESSAGE_INTERVAL := MESSAGE_INTERVAL default_config |}.
Proof.
  split; [repeat constructor|].
  apply (@unset_environment_gives_defaults few_entries [(lit "HOME", lit "/root")]).
  repeat constructor.
Defined.

Lemma interval_must_be_a_decimal_numeral_witness :
  environ_get [(lit "MESSAGE_INTERVAL", lit "0.5")] (lit "MESSAGE_INTERVAL")
  = Some (lit "0.5")
  /\ ((exists c, In c (lit "0.5") /\ c < 127 /\ numeral_char c = false)
      \/ forallb (fun c => (c <? 127) && negb (is_digit c)) (lit "0.5") = true)
  /\ @load_config few_entries [(lit "MESSAGE_INTERVAL", lit "0.5")] = None.
Proof.
  assert (H : (exists c, In c (lit "0.5") /\ c < 127 /\ numeral_char c = false)
              \/ forallb (fun c => (c <? 127) && negb (is_digit c)) (lit "0.5") = true).
  { left. exists 46. split; [right; left; reflexivity|]. split; reflexivity. }
  split; [reflexivity|]. split; [exact H|].
  apply (@interval_must_be_a_decimal_numeral few_entries
           [(lit "MESSAGE_INTERVAL", lit "0.5")] (lit "0.5")); [reflexivity | exact H].
Defined.

Lemma interval_accepts_printed_integers_witness :
  environ_get [(lit "MESSAGE_INTERVAL", str_int (-3))] (lit "MESSAGE_INTERVAL")
  = Some (str_int (-3))
  /\ (Z.abs (-3) < 10 ^ 640)%Z
  /\ exists cfg,
       @load_config few_entries [(lit "MESSAGE_INTERVAL", str_int (-3))] = Some cfg
       /\ MESSAGE_INTERVAL cfg = (-3)%Z
       /\ @py_int few_entries (str_int (MESSAGE_INTERVAL cfg)) = Some (-3)%Z.
Proof.
  split; [reflexivity|]. split; [reflexivity|].
  apply (@interval_accepts_printed_integers few_entries
           [(lit "MESSAGE_INTERVAL", str_int (-3))] (-3)%Z); reflexivity.
Defined.

(** ** The timestamp and the instant it records *)

Lemma digits_val_zeros (k : nat) (s : pystr) :
  digits_val (repeat ch_zero k ++ s) = digits_val s.
Proof. induction k as [|k IH]; [reflexivity | exact IH]. Qed.

Lemma digits_val_pad0 (w : nat) (n : N) : digits_val (pad0 w n) = n.
Proof. unfold pad0, zfill. rewrite digits_val_zeros. apply digits_val_str_N. Qed.

Lemma app_eq_length {A} (a a' b b' : list A) :
  length a = length a' -> a ++ b = a' ++ b' -> a = a' /\ b = b'.
Proof.
  revert a'. induction a as [|x a IH]; intros [|x' a'] Hl H; try discriminate.
  - split; [reflexivity | exact H].
  - injection Hl as Hl. injection H as -> H.
    destruct (IH a' Hl H) as [-> ->]. split; reflexivity.
Qed.

(** Two zero-padded numbers of the same width in front of equal texts. *)
Lemma pad0_app_inj (w : nat) (n m : N) (s s' : pystr) :
  n < 10 ^ N.of_nat (S w) -> m < 10 ^ N.of_nat (S w) ->
  pad0 (S w) n ++ s = pad0 (S w) m ++ s' -> n = m /\ s = s'.
Proof.
  intros Hn Hm H.
  destruct (pad0_shape w n Hn) as [Ln _]. destruct (pad0_shape w m Hm) as [Lm _].
  destruct (app_eq_length _ _ _ _ (eq_trans Ln (eq_sym Lm)) H) as [Hp Hs].
  split; [|exact Hs].
  rewrite <- (digits_val_pad0 (S w) n), <- (digits_val_pad0 (S w) m), Hp. reflexivity.
Qed.

Lemma isoformat_inj (t1 t2 : datetime) :
  valid_datetime t1 -> valid_datetime t2 -> isoformat t1 = isoformat t2 -> t1 = t2.
Proof.
  intros (Hy1 & Hmo1 & Hd1 & Hh1 & Hmi1 & Hs1 & Hus1)
         (Hy2 & Hmo2 & Hd2 & Hh2 & Hmi2 & Hs2 & Hus2) H.
  unfold isoformat, format_time in H. repeat rewrite <- app_assoc in H.
  apply (pad0_app_inj 3) in H; [|simpl; lia ..]. destruct H as [Ey H].
  injection H as H.
  apply (pad0_app_inj 1) in H; [|simpl; lia ..]. destruct H as [Emo H].
  injection H as H.
  apply (pad0_app_inj 1) in H; [|simpl; lia ..]. destruct H as [Ed H].
  injection H as H.
  apply (pad0_app_inj 1) in H; [|simpl; lia ..]. destruct H as [Eh H].
  injection H as H.
  apply (pad0_app_inj 1) in H; [|simpl; lia ..]. destruct H as [Emi H].
  injection H as H.
  apply (pad0_app_inj 1) in H; [|simpl; lia ..]. destruct H as [Es H].
  assert (Eus : microsecond t1 = microsecond t2).
  { destruct (N.eqb_spec (microsecond t1) 0) as [E1|N1],
             (N.eqb_spec (microsecond t2) 0) as [E2|N2].
    - congruence.
    - discriminate.
    - discriminate.
    - injection H as H.
      rewrite <- (app_nil_r (pad0 6 (microsecond t1))),
              <- (app_nil_r (pad0 6 (microsecond t2))) in H.
      apply (pad0_app_inj 5) in H; [|simpl; lia ..]. apply H. }
  destruct t1, t2. cbn in *. subst. reflexivity.
Qed.

Section Instant.
Context {F : FloatOps}.

(** X18. The timestamp loses nothing of the clock reading: two records
    whose timestamps are equal were generated at the same instant, to
    the microsecond. *)
Theorem timestamp_determines_the_instant (d1 d2 : draws) (r1 r2 : pyval) :
  valid_datetime (d_now d1) -> valid_datetime (d_now d2) ->
  generate_transaction d1 = Some r1 -> generate_transaction d2 = Some r2 ->
  getitem r1 (lit "timestamp") = getitem r2 (lit "timestamp") ->
  d_now d1 = d_now d2.
Proof.
  intros Hv1 Hv2 Hr1 Hr2 H.
  destruct (generate_transaction_timestamp d1) as (r1' & Hr1' & Ht1).
  destruct (generate_transaction_timestamp d2) as (r2' & Hr2' & Ht2).
  rewrite Hr1 in Hr1'. injection Hr1' as <-.
  rewrite Hr2 in Hr2'. injection Hr2' as <-.
  rewrite Ht1, Ht2 in H. injection H as H.
  apply app_inv_tail in H. apply isoformat_inj; assumption.
Qed.

End Instant.

Lemma timestamp_determines_the_instant_witness :
  valid_datetime (d_now sample_draws)
  /\ generate_transaction sample_draws = Some sample_record
  /\ getitem sample_record (lit "timestamp") = getitem sample_record (lit "timestamp")
  /\ d_now sample_draws = d_now sample_draws.
Proof.
  split; [exact sample_time_valid|]. split; [reflexivity|]. split; [reflexivity|].
  apply (@timestamp_determines_the_instant whole_float sample_draws sample_draws
           sample_record sample_record);
    [exact sample_time_valid | exact sample_time_valid | reflexivity | reflexivity
    | reflexivity].
Defined.

Lemma no_exception_leaves_main_witness :
  fst (main default_config exiting_world 3 initial_state)
  = Raised (BaseException_ (lit "SystemExit"))
  /\ is_Exception (BaseException_ (lit "SystemExit")) = false
  /\ (on_connect exiting_world = Raises (BaseException_ (lit "SystemExit"))
      \/ on_connect exiting_world = Succeeds
         /\ BaseException_ (lit "SystemExit") <> KeyboardInterrupt
         /\ exists k, (k < 3)%nat /\ runs_until exiting_world k
                      /\ iteration_exit exiting_world k
                         = Some (BaseException_ (lit "SystemExit"))).
Proof.
  split; [vm_compute; reflexivity|].
  apply (no_exception_leaves_main default_config exiting_world 3
           (BaseException_ (lit "SystemExit"))).
  vm_compute. reflexivity.
Defined.
